(** * TNT: adaptive parameter derivation and staged orchestration

    A shallow embedding of the parameter-derivation code of the TNT audio
    batch processor, and the properties its specification states about it.

    Sources.  The repository holds several generations of the program.

    - [Audio]: package internal/audio (its compression, dynaudnorm and
      type files) and the same functions in go/dynscore.go; the copies
      agree on the functions embedded here.
    - [Compressor], [Pipeline]: package main of version 1.3.0
      ([buildBandAcompressor], [buildMultibandCompression],
      [calculateAdaptiveCompression], [calculateMakeupGain],
      [processFile], [cleanupTempFiles]).
    - [FreqAnal]: go/freq_anal.go.  [FreqAnalEarly]: the earliest copy
      of that file.  [EqClamp]: its newest copy, the one with
      [clampExtremeEQ].
    - [AudioMore]: the other functions of the compression file of
      package internal/audio ([LinearToDb], [CalculateMakeupGain]), its
      phase check ([PhaseCheck], [parsePhaseCheck],
      [calculatePhaseOffset]) and the decision that the workers of
      [process] take from it.
    - [Refactor]: the compressor builders of package main in the
      go-refactor generation (version 1.2.0), which call package
      internal/audio where version 1.3.0 has the code inline.
    - [GoLib]: the library calls that the code below goes through
      ([strings.Contains], [strings.Split], [strings.ReplaceAll],
      [strconv.Atoi], [%d]), as the Go library defines them.
    - [Versions], [Encode], [FileList]: package main of version 1.3.0
      ([compareVersions]; the bit rate block of [processFile];
      [addFile], [removeFile] and the loop of [selectFolder]).

    Number model.  The Go code computes on [float64].  The development
    abstracts from IEEE rounding, infinities and NaN and reads every
    [float64] as an exact number:

    - the dynamics code converts between decibels and linear amplitude
      with [math.Pow(10, x/20)], so its numbers are the reals [R] and the
      conversion is [Rpower 10 (x/20)];
    - the EQ curve engine only adds, subtracts, divides by constants and
      compares, so its numbers are the rationals [Q] and the model runs.

    Text produced with [fmt.Sprintf] (ffmpeg filter strings) is kept in
    structured form: one record or constructor per filter, holding the
    numbers that the format string prints; the rounding of [%.2f] and
    [%.6f] is not modelled.  Log lines are left out. *)

From Stdlib Require Import Reals Lra Lia List String Ascii Bool ZArith.
From Stdlib Require Import QArith Qminmax Lqa.
Import ListNotations.

(** The two linear-arithmetic deciders, one per number model. *)
Ltac rlra := Lra.lra.
Ltac rnra := Lra.nra.
Ltac qlra := Lqa.lra.

(* ===================================================================== *)
(** * Package [audio]: dynamics score, modifiers, clamps, dynaudnorm     *)
(* ===================================================================== *)

Module Audio.

Local Open Scope R_scope.

(** internal/audio types *)
Record DynamicsAnalysis := mkDynamicsAnalysis {
  PeakLevel : R;
  RMSPeak : R;
  RMSTrough : R;
  CrestFactor : R;
  DynamicRange : R;
  RMSLevel : R;
  NoiseFloor : R
}.

Record CompressionModifiers := mkMods {
  AttackMultiplier : R;
  ReleaseMultiplier : R;
  RatioMultiplier : R
}.

Record DynaudnormParams := mkDynaudnormParams {
  TargetRMS : R;
  Threshold : R;
  RMSPeakDB : R;
  NoiseFloorDB : R
}.

(** [DbToLinear]: [math.Pow(10, db/20)]. *)
Definition DbToLinear (db : R) : R := Rpower 10 (db / 20).

(** [GetCompressionModifiers] (go/dynscore.go [getCompressionModifiers],
    go-refactor/internal/audio/compression.go): the two copies are the
    same code. *)
Definition GetCompressionModifiers (ds : R) : CompressionModifiers :=
  let mods := mkMods 1 1 1 in
  if Rlt_dec ds 9 then
    mkMods 4 4 0.15
  else if Rlt_dec ds 15 then
    mkMods 2 2 2.1
  else if Rle_dec ds 21 then
    mods
  else
    let excess := Rmin (ds - 21) 79 in
    let scaleFactor := 2 + (2 * excess / 79) in
    mkMods (1 / scaleFactor) (1 / scaleFactor) (4 + (4 * excess / 79)).

(** [GetBaseRatioFromCrest] *)
Definition GetBaseRatioFromCrest (crest : R) : R :=
  if Rle_dec crest 3 then 1.4
  else if Rle_dec crest 5 then 2
  else if Rle_dec crest 8 then 4
  else if Rle_dec 16 crest then 8
  else 4 + (4 * (crest - 8) / 8).

(** [ClampCompressorParams]: each parameter goes through a lower and then
    an upper test, in the order of the source. *)
Definition ClampCompressorParams (thresholdLin ratio attackMs releaseMs makeupLin : R)
  : R * R * R * R * R :=
  let thresholdLin := if Rlt_dec thresholdLin 0.00097563 then 0.00097563 else thresholdLin in
  let thresholdLin := if Rlt_dec 1 thresholdLin then 1 else thresholdLin in
  let ratio := if Rlt_dec ratio 1 then 1 else ratio in
  let ratio := if Rlt_dec 20 ratio then 20 else ratio in
  let attackMs := if Rlt_dec attackMs 0.01 then 0.01 else attackMs in
  let attackMs := if Rlt_dec 2000 attackMs then 2000 else attackMs in
  let releaseMs := if Rlt_dec releaseMs 0.01 then 0.01 else releaseMs in
  let releaseMs := if Rlt_dec 9000 releaseMs then 9000 else releaseMs in
  let makeupLin := if Rlt_dec makeupLin 1 then 1 else makeupLin in
  let makeupLin := if Rlt_dec 64 makeupLin then 64 else makeupLin in
  (thresholdLin, ratio, attackMs, releaseMs, makeupLin).

(** [GetKneeFromRatio] *)
Definition GetKneeFromRatio (ratio : R) : R :=
  if Rlt_dec ratio 1 then 1
  else if Rlt_dec ratio 2 then 2
  else if Rlt_dec ratio 4 then 3
  else if Rlt_dec ratio 8 then 4
  else if Rlt_dec ratio 12 then 6
  else if Rle_dec 12 ratio then 7.5
  else 4.

(** [CalculateDynaudnormParams] (internal/audio) and
    [analyzeDynaudnormParams] (go/dynscore.go): same arithmetic.  A nil
    analysis gives nil. *)
Definition CalculateDynaudnormParams (analysis : option DynamicsAnalysis)
  : option DynaudnormParams :=
  match analysis with
  | None => None
  | Some a =>
      let rmsPeakDB := RMSPeak a in
      let noiseFloorDB := NoiseFloor a in
      let targetDB := rmsPeakDB - 6 in
      let targetRMS := DbToLinear targetDB in
      let thresholdDB := noiseFloorDB + 12 in
      let threshold := DbToLinear thresholdDB in
      let targetRMS := if Rlt_dec targetRMS 0 then 0 else targetRMS in
      let targetRMS := if Rlt_dec 1 targetRMS then 1 else targetRMS in
      let threshold := if Rlt_dec threshold 0 then 0 else threshold in
      let threshold := if Rlt_dec 1 threshold then 1 else threshold in
      Some (mkDynaudnormParams targetRMS threshold rmsPeakDB noiseFloorDB)
  end.

(** The three multipliers as functions of the score. *)
Definition attackOf (ds : R) : R := AttackMultiplier (GetCompressionModifiers ds).
Definition releaseOf (ds : R) : R := ReleaseMultiplier (GetCompressionModifiers ds).
Definition ratioOf (ds : R) : R := RatioMultiplier (GetCompressionModifiers ds).

(** The [excess] and [scaleFactor] of the last branch. *)
Definition excessOf (ds : R) : R := Rmin (ds - 21) 79.
Definition scaleOf (ds : R) : R := 2 + (2 * excessOf ds / 79).

End Audio.

(* ===================================================================== *)
(** * Package [main] (v1.3.0): compressor and limiter parameter sets     *)
(* ===================================================================== *)

Module Compressor.

Import Audio.
Local Open Scope R_scope.
Local Open Scope string_scope.

(** Per-band analysis for multiband compression. *)
Record FrequencyBandAnalysis := mkBand {
  BandName : string;
  bPeakLevel : R;
  bRMSLevel : R;
  bCrestFactor : R;
  bDynamicRange : R
}.

(** What one per-band filter string carries:
    [acompressor=threshold:ratio:attack:release:makeup[:knee],
     alimiter=limit:attack:release[:level=false],volume].
    The knee and [level=false] are absent from the fallback string. *)
Record BandFilter := mkBandFilter {
  ac_threshold : R;
  ac_ratio : R;
  ac_attack : R;
  ac_release : R;
  ac_makeup : R;
  ac_knee : option R;
  al_limit : R;
  al_attack : R;
  al_release : R;
  al_level_false : bool;
  volume : R
}.

(** The [if ratio < 1.0 { ratio = 1.0; knee = 1.0 } else if ...] chain
    that both compressor builders run: the ratio is raised to 1 and the
    knee follows the ratio; at exactly 12 the knee keeps its value. *)
Definition ratioAndKnee (ratio knee : R) : R * R :=
  if Rlt_dec ratio 1 then (1, 1)
  else if Rlt_dec ratio 2 then (ratio, 2)
  else if Rlt_dec ratio 4 then (ratio, 3)
  else if Rlt_dec ratio 8 then (ratio, 4)
  else if Rlt_dec ratio 12 then (ratio, 6)
  else if Rlt_dec 12 ratio then (ratio, 7.5)
  else (ratio, knee).

(** [buildBandAcompressor]; [band = None] is the nil pointer.  The last
    field returned next to the filter is [limiterCeilingDb] as it stands
    when the log line is written. *)
Definition buildBandAcompressor_log (band : option FrequencyBandAnalysis)
  (attackMs releaseMs ratio fallbackThresholdDb : R) (mods : CompressionModifiers)
  : BandFilter * option R :=
  match band with
  | None =>
      let thresholdLin := Rpower 10 (fallbackThresholdDb / 20) in
      let makeup := Rpower 10 (3 / 20) in
      let limiterLin := Rpower 10 (-1 / 20) in
      let limiterLin := if Rlt_dec 1 limiterLin then 1 else limiterLin in
      (mkBandFilter thresholdLin ratio attackMs releaseMs 1 None
                    limiterLin 5 50 false makeup, None)
  | Some band =>
      let adaptiveThresholdDb :=
        if Rlt_dec (RatioMultiplier mods) 0.3 then
          bPeakLevel band - 1
        else
          let thresholdOffset := 6 in
          let thresholdOffset :=
            if Rlt_dec 3 (RatioMultiplier mods) then 3 else thresholdOffset in
          bRMSLevel band + thresholdOffset in
      let thresholdLin := Rpower 10 (adaptiveThresholdDb / 20) in
      let makeupGainDb :=
        if Rlt_dec (RatioMultiplier mods) 0.3 then
          0
        else
          let expectedGRDb := (bRMSLevel band - adaptiveThresholdDb) / ratio in
          let makeupGainDb := - expectedGRDb * 0.8 in
          if Rlt_dec makeupGainDb 0 then 0 else makeupGainDb in
      let makeupLin := Rpower 10 (makeupGainDb / 20) in
      let limiterCeilingDb :=
        if Rlt_dec (RatioMultiplier mods) 0.3 then
          let limiterCeilingDb := bPeakLevel band - 0.1 in
          if Rlt_dec 0 limiterCeilingDb then 0 else limiterCeilingDb
        else
          bPeakLevel band - 0.8 in
      let limiterCeilingDb :=
        if Rlt_dec limiterCeilingDb (-24) then -24 else limiterCeilingDb in
      let limiterLin := Rpower 10 (limiterCeilingDb / 20) in
      let limiterLin := if Rlt_dec 1 limiterLin then 1 else limiterLin in
      let attackMs := attackMs * AttackMultiplier mods in
      let releaseMs := releaseMs * ReleaseMultiplier mods in
      let ratio := ratio * RatioMultiplier mods in
      let limiterAttack := 25 * AttackMultiplier mods in
      let limiterRelease := 150 * ReleaseMultiplier mods in
      let knee := 4 in
      let ratioKnee := ratioAndKnee ratio knee in
      let ratio := fst ratioKnee in
      let knee := snd ratioKnee in
      let ratioKnee := if Rlt_dec 20 ratio then (20, 8) else (ratio, knee) in
      let ratio := fst ratioKnee in
      let knee := snd ratioKnee in
      let thresholdLin := if Rlt_dec thresholdLin 0.00099 then 0.00099 else thresholdLin in
      let thresholdLin := if Rlt_dec 1 thresholdLin then 1 else thresholdLin in
      let attackMs := if Rlt_dec attackMs 0.01 then 0.01 else attackMs in
      let attackMs := if Rlt_dec 2000 attackMs then 2000 else attackMs in
      let releaseMs := if Rlt_dec releaseMs 0.01 then 0.01 else releaseMs in
      let releaseMs := if Rlt_dec 9000 releaseMs then 9000 else releaseMs in
      let makeupLin := if Rlt_dec makeupLin 1 then 1 else makeupLin in
      let makeupLin := if Rlt_dec 64 makeupLin then 64 else makeupLin in
      let limiterAttack := if Rlt_dec 80 limiterAttack then 80 else limiterAttack in
      let limiterRelease := if Rlt_dec 8000 limiterRelease then 8000 else limiterRelease in
      let limiterCeilingDb :=
        if Rlt_dec (RatioMultiplier mods) 0.3 then 0 else limiterCeilingDb in
      let limiterAttack :=
        if Rlt_dec (RatioMultiplier mods) 0.3 then 80 else limiterAttack in
      let limiterRelease :=
        if Rlt_dec (RatioMultiplier mods) 0.3 then 2000 else limiterRelease in
      (mkBandFilter thresholdLin ratio attackMs releaseMs 1 (Some knee)
                    limiterLin limiterAttack limiterRelease true makeupLin,
       Some limiterCeilingDb)
  end.

Definition buildBandAcompressor (band : option FrequencyBandAnalysis)
  (attackMs releaseMs ratio fallbackThresholdDb : R) (mods : CompressionModifiers)
  : BandFilter :=
  fst (buildBandAcompressor_log band attackMs releaseMs ratio fallbackThresholdDb mods).

(** The Go map [map[string]*FrequencyBandAnalysis] as an association
    list; a missing key reads as nil. *)
Definition BandMap := list (string * FrequencyBandAnalysis).

Fixpoint lookupBand (m : BandMap) (k : string) : option FrequencyBandAnalysis :=
  match m with
  | [] => None
  | (k', b) :: m' => if String.eqb k k' then Some b else lookupBand m' k
  end.

(** The multiband chain: five band filters between the crossover and the
    mix, then the final [alimiter=limit=0.9886]. *)
Record MultibandChain := mkChain {
  subFilter : BandFilter;
  bassFilter : BandFilter;
  lowMidFilter : BandFilter;
  midFilter : BandFilter;
  highFilter : BandFilter;
  finalLimit : R
}.

(** Base parameters per preset; an unlisted preset leaves the Go zero
    values. *)
Definition presetBase (preset : string) : R * R * R :=
  if String.eqb preset "Light" then (150, 300, 2.5)
  else if String.eqb preset "Moderate" then (100, 200, 4)
  else if String.eqb preset "Broadcast" then (10, 20, 6)
  else (0, 0, 0).

(** [buildMultibandCompression]; [None] is the empty string.  [dsScore]
    is [dsAnalysis.DynamicsScore], [None] for a nil analysis.  (The source
    also computes the hottest band peak here and never uses it.) *)
Definition buildMultibandCompression (bandAnalysis : BandMap)
  (dsScore : option R) (preset : string) : option MultibandChain :=
  if (Nat.eqb (List.length bandAnalysis) 0 || String.eqb preset "Off")%bool then None
  else
    let mods := match dsScore with
                | Some ds => GetCompressionModifiers ds
                | None => mkMods 1 1 1
                end in
    let sub := lookupBand bandAnalysis "sub" in
    let bass := lookupBand bandAnalysis "bass" in
    let lowMid := lookupBand bandAnalysis "low_mid" in
    let mid := lookupBand bandAnalysis "mid" in
    let high := lookupBand bandAnalysis "high" in
    let '(attackMs, releaseMs, baseRatio) := presetBase preset in
    Some (mkChain
      (buildBandAcompressor sub attackMs releaseMs baseRatio (-18) mods)
      (buildBandAcompressor bass attackMs releaseMs baseRatio (-15) mods)
      (buildBandAcompressor lowMid (attackMs * 0.8) (releaseMs * 0.9) (baseRatio * 1.2) (-12) mods)
      (buildBandAcompressor mid (attackMs * 0.6) (releaseMs * 0.7) (baseRatio * 1.5) (-10) mods)
      (buildBandAcompressor high (attackMs * 0.5) (releaseMs * 0.6) (baseRatio * 2) (-8) mods)
      0.9886).

(** [calculateMakeupGain] of the single-band path. *)
Definition calculateMakeupGain (analysis : DynamicsAnalysis) (threshold ratio : R) : R :=
  let rmsPeak := RMSPeak analysis in
  let rmsLevel := RMSLevel analysis in
  if Rle_dec rmsPeak threshold then 1
  else
    let percentageAboveThreshold :=
      if Rle_dec threshold rmsLevel then 0.7
      else
        let thresholdPosition := (rmsPeak - threshold) / (rmsPeak - rmsLevel) in
        0.3 * thresholdPosition in
    let avgExcursion := (rmsPeak - threshold) / 2 in
    let gainReductionPerSample := avgExcursion * ((ratio - 1) / ratio) in
    let effectiveGainReduction := gainReductionPerSample * percentageAboveThreshold in
    let makeupGainDB := effectiveGainReduction * 0.85 in
    let makeupGainLinear := Rpower 10 (makeupGainDB / 20) in
    if Rlt_dec makeupGainLinear 1 then 1
    else if Rlt_dec 64 makeupGainLinear then 64
    else makeupGainLinear.

(** The single-band filter string:
    [acompressor=threshold:ratio:attack:release:knee:makeup] and, when
    limiting is needed, [,alimiter=limit:attack=5:release=50]. *)
Record SingleBandFilter := mkSingle {
  sb_threshold : R;
  sb_ratio : R;
  sb_attack : R;
  sb_release : R;
  sb_knee : R;
  sb_makeup : R;
  sb_limiter : option R
}.

(** The preset switch of [calculateAdaptiveCompression]; an unlisted
    preset leaves the Go zero values. *)
Record SingleBandBase := mkBase {
  sbThreshold : R;
  sbRatio : R;
  sbAttack : R;
  sbRelease : R;
  sbLimiterCeiling : R
}.

Definition singleBandBase (analysis : DynamicsAnalysis) (preset : string)
  : SingleBandBase :=
  if String.eqb preset "Light" then
    mkBase (RMSLevel analysis + 6) (GetBaseRatioFromCrest (CrestFactor analysis)) 100 250 (-1)
  else if String.eqb preset "Moderate" then
    mkBase (RMSLevel analysis + 5) (GetBaseRatioFromCrest (CrestFactor analysis)) 40 150 (-1)
  else if String.eqb preset "Broadcast" then
    mkBase (RMSLevel analysis + 4) (GetBaseRatioFromCrest (CrestFactor analysis)) 10 30 (-1)
  else mkBase 0 0 0 0 0.

(** [calculateAdaptiveCompression]; [None] is the empty string.  The
    modifiers are applied only when a dynamics score is supplied. *)
Definition calculateAdaptiveCompression (analysis : option DynamicsAnalysis)
  (dsScore : option R) (preset : string) : option SingleBandFilter :=
  match analysis with
  | None => None
  | Some analysis =>
    if String.eqb preset "Off" then None
    else
      let needsLimiting := if Rlt_dec 5 (CrestFactor analysis) then true else false in
      let base := singleBandBase analysis preset in
      let threshold := sbThreshold base in
      let limiterCeiling := sbLimiterCeiling base in
      let attack :=
        match dsScore with
        | Some ds => sbAttack base * AttackMultiplier (GetCompressionModifiers ds)
        | None => sbAttack base
        end in
      let release :=
        match dsScore with
        | Some ds => sbRelease base * ReleaseMultiplier (GetCompressionModifiers ds)
        | None => sbRelease base
        end in
      let ratio :=
        match dsScore with
        | Some ds => sbRatio base * RatioMultiplier (GetCompressionModifiers ds)
        | None => sbRatio base
        end in
      let makeupGain := calculateMakeupGain analysis threshold ratio in
      let thresholdLin := Rpower 10 (threshold / 20) in
      let knee := 4 in
      let thresholdLin := if Rlt_dec 1 thresholdLin then 1 else thresholdLin in
      let thresholdLin := if Rlt_dec thresholdLin 0.00099 then 0.00099 else thresholdLin in
      let ratioKnee := ratioAndKnee ratio knee in
      let ratio := fst ratioKnee in
      let knee := snd ratioKnee in
      let ratio := if Rlt_dec 20 ratio then 20 else ratio in
      let attack := if Rlt_dec 2000 attack then 2000 else attack in
      let attack := if Rlt_dec attack 0.01 then 0.01 else attack in
      let release := if Rlt_dec release 0.01 then 0.01 else release in
      let release := if Rlt_dec 9000 release then 9000 else release in
      let makeupGain := if Rlt_dec makeupGain 1 then 1 else makeupGain in
      let makeupGain := if Rlt_dec 64 makeupGain then 64 else makeupGain in
      let limiter :=
        if needsLimiting then
          let limiterLinear := Rpower 10 (limiterCeiling / 20) in
          Some (if Rlt_dec 1 limiterLinear then 1 else limiterLinear)
        else None in
      Some (mkSingle thresholdLin ratio attack release knee makeupGain limiter)
  end.

(** The documented clamp ranges of the compressor parameters. *)
Definition inClampRanges (threshold ratio attack release makeup : R) : Prop :=
  0.00097563 <= threshold <= 1 /\
  1 <= ratio <= 20 /\
  0.01 <= attack <= 2000 /\
  0.01 <= release <= 9000 /\
  1 <= makeup <= 64.

(** A per-band filter is in range when its compressor parameters are,
    for the written [makeup] as well as for the makeup gain applied by
    [volume]. *)
Definition bandInRanges (f : BandFilter) : Prop :=
  inClampRanges (ac_threshold f) (ac_ratio f) (ac_attack f) (ac_release f) (volume f)
  /\ 1 <= ac_makeup f <= 64.

Definition chainInRanges (c : MultibandChain) : Prop :=
  bandInRanges (subFilter c) /\ bandInRanges (bassFilter c) /\
  bandInRanges (lowMidFilter c) /\ bandInRanges (midFilter c) /\
  bandInRanges (highFilter c).

Definition singleInRanges (f : SingleBandFilter) : Prop :=
  inClampRanges (sb_threshold f) (sb_ratio f) (sb_attack f) (sb_release f) (sb_makeup f).

End Compressor.

(* ===================================================================== *)
(** * Package [main] (v1.3.0): the per-file pipeline [processFile]       *)
(* ===================================================================== *)

Module Pipeline.

Import Audio Compressor.
Local Open Scope R_scope.
Local Open Scope string_scope.

(** The fields of [ProcessConfig] that steer the stages.  Codec, bit
    rate and sample-rate fields only shape the arguments of the final
    encode and are left out. *)
Record ProcessConfig := mkConfig {
  UseLoudnorm : bool;
  IsSpeech : bool;
  writeTags : bool;
  bypassProc : bool;
  DynamicsPreset : string;
  EqTarget : string;
  DynNorm : bool
}.

(** A loudness measurement ([map[string]string]): the two entries that
    [processFile] parses with [strconv.ParseFloat].  [None] stands for an
    entry that is missing, empty or does not parse. *)
Record Measured := mkMeasured {
  input_i : option R;
  input_tp : option R
}.

(** Paths of one run.  Every temp name carries [time.Now().UnixNano()];
    each is created at most once per run, so one constructor per stage. *)
Inductive Path :=
| InputPath | EqTempPath | DynTempPath | AttenuatedPath | CompTempPath | OutputPath.

Definition Path_eqb (a b : Path) : bool :=
  match a, b with
  | InputPath, InputPath | EqTempPath, EqTempPath | DynTempPath, DynTempPath
  | AttenuatedPath, AttenuatedPath | CompTempPath, CompTempPath
  | OutputPath, OutputPath => true
  | _, _ => false
  end.

(** The engine invocations of [processFile], in source order. *)
Inductive Stage :=
| EqApply            (* EQ rendering to the EQ temp file *)
| ScoreAnalysis      (* calculateDynamicsScore *)
| DynAnalysis        (* analyzeDynamics before dynaudnorm *)
| DynApply           (* dynaudnorm rendering *)
| MeasureLoudnorm    (* measureLoudness *)
| MeasureEbuR128     (* measureLoudnessEbuR128 *)
| PeakCheck          (* quick astats peak check; its error is dropped *)
| Attenuate          (* attenuation pre-pass *)
| BandAnalysis       (* analyzeFrequencyBands *)
| SbcAnalysis        (* analyzeDynamics before single-band compression *)
| CompApply          (* compression rendering *)
| Encode.            (* final encode to the output path *)

(** What the external engine answers at each call site of one run.  The
    engine is a black box: any combination of answers is possible, and so
    is what a rendering that fails leaves at its target ([-y target]):
    nothing, or a file. *)
Record World := mkWorld {
  w_eqFilter : option string;       (* buildEqFilter on the 10-band analysis;
                                       None: the analysis came back nil or empty *)
  w_eqApply : bool;
  w_score : option R;               (* DynamicsScore; None: nil analysis *)
  w_dynAnalysis : option DynamicsAnalysis;
  w_dynApply : bool;
  w_dynLoudnorm : option Measured;  (* measurements taken inside stage 2 *)
  w_dynEbuR128 : option Measured;
  w_peakOk : bool;
  w_peak : option R;                (* "Peak level dB:" found in the output *)
  w_attenuate : bool;
  w_bands : BandMap;
  w_sbcAnalysis : option DynamicsAnalysis;
  w_compApply : bool;
  w_loudnorm : option Measured;     (* stage 4 *)
  w_ebuR128 : option Measured;
  w_encode : bool;
  w_target : option R;              (* strconv.ParseFloat(target) *)
  w_partial : Stage -> bool         (* the invocation, when it fails, leaves
                                       a file at its target *)
}.

(** State of one run: the locals [workingPath], [tempFiles], [measured]
    that the stages update, and the effects on the outside: the files
    that exist, the invocations made with their success, and the
    ReplayGain tags handed to the final encode. *)
Record Run := mkRun {
  workingPath : Path;
  tempFiles : list Path;
  measured : option Measured;
  files : list Path;
  trace : list (Stage * bool);
  tags : option (R * R)
}.

(** Control flow of a Go function body: fall through with a value, or
    [return b]. *)
Inductive Flow (A : Type) :=
| Continue (a : A)
| Returned (b : bool).
Arguments Continue {A} a.
Arguments Returned {A} b.

Definition Proc (A : Type) := Run -> Flow A * Run.

Definition ret {A} (a : A) : Proc A := fun r => (Continue a, r).

Definition bind {A B} (m : Proc A) (k : A -> Proc B) : Proc B :=
  fun r => match m r with
           | (Continue a, r') => k a r'
           | (Returned b, r') => (Returned b, r')
           end.

Definition return_ {A} (b : bool) : Proc A := fun r => (Returned b, r).

Declare Scope proc_scope.
Delimit Scope proc_scope with proc.
Notation "x <- m ;; k" := (bind m (fun x => k))
  (at level 61, m at next level, right associativity) : proc_scope.
Notation "m ;; k" := (bind m (fun _ => k))
  (at level 61, right associativity) : proc_scope.
Local Open Scope proc_scope.

Definition when (c : bool) (m : Proc unit) : Proc unit :=
  if c then m else ret tt.

(** One engine invocation.  It is logged with its exit status; when it
    succeeds and has a target, the target file exists afterwards; when it
    fails, the target exists afterwards if the engine left one
    ([partial]).  [processFile] itself does nothing about the target of
    an invocation that failed. *)
Definition invoke (st : Stage) (ok : bool) (target : option Path)
  (partial : bool) : Proc bool :=
  fun r =>
    (Continue ok,
     mkRun (workingPath r) (tempFiles r) (measured r)
           (match target with
            | Some p => if ok then p :: files r
                        else if partial then p :: files r
                        else files r
            | None => files r
            end)
           (trace r ++ [(st, ok)]) (tags r)).

Definition appendTemp (p : Path) : Proc unit :=
  fun r => (Continue tt,
            mkRun (workingPath r) (tempFiles r ++ [p]) (measured r)
                  (files r) (trace r) (tags r)).

Definition setWorkingPath (p : Path) : Proc unit :=
  fun r => (Continue tt,
            mkRun p (tempFiles r) (measured r) (files r) (trace r) (tags r)).

Definition setMeasured (m : option Measured) : Proc unit :=
  fun r => (Continue tt,
            mkRun (workingPath r) (tempFiles r) m (files r) (trace r) (tags r)).

Definition setTags (t : option (R * R)) : Proc unit :=
  fun r => (Continue tt,
            mkRun (workingPath r) (tempFiles r) (measured r) (files r) (trace r) t).

Definition getWorkingPath : Proc Path := fun r => (Continue (workingPath r), r).
Definition getMeasured : Proc (option Measured) := fun r => (Continue (measured r), r).

Definition isSome {A} (o : option A) : bool :=
  match o with Some _ => true | None => false end.

(** [os.Remove]: the file is gone afterwards (a missing file is only
    reported). *)
Definition removeFile (p : Path) (fs : list Path) : list Path :=
  filter (fun q => negb (Path_eqb p q)) fs.

(** [cleanupTempFiles] *)
Fixpoint cleanupTempFiles (temps : list Path) (fs : list Path) : list Path :=
  match temps with
  | [] => fs
  | f :: rest => cleanupTempFiles rest (removeFile f fs)
  end.

(** The ReplayGain values of the tag-writing block: [rgTpInLin] and
    [gain].  A missing or unparsable peak gives the default 1.0; a
    missing or unparsable loudness or target reads as 0. *)
Definition rgTpInLin (m : option Measured) : R :=
  match m with
  | Some m =>
      match input_tp m with
      | None => 1
      | Some rgTpFlt => Rpower 10 (rgTpFlt / 20)
      end
  | None => 1
  end.

Definition replayGain (target : option R) (m : Measured) : R :=
  let inputI := match input_i m with Some v => v | None => 0 end in
  let targetFloat := match target with Some v => v | None => 0 end in
  targetFloat - inputI.

(** The measurement of stage 2 and stage 4: both modes measure when
    their flag is set, tagging last. *)
Definition measureBoth (cfg : ProcessConfig) (ln eb : option Measured) : Proc unit :=
  when (UseLoudnorm cfg)
    (ok <- invoke MeasureLoudnorm (isSome ln) None false ;;
     setMeasured ln ;;
     if ok then ret tt else return_ false) ;;
  when (writeTags cfg)
    (ok <- invoke MeasureEbuR128 (isSome eb) None false ;;
     setMeasured eb ;;
     if ok then ret tt else return_ false).

Definition enabled (s : string) : bool :=
  negb (String.eqb s "") && negb (String.eqb s "Off").

(** Stage 1: EQ analysis and application. *)
Definition stageEq (w : World) (cfg : ProcessConfig) : Proc unit :=
  when (enabled (EqTarget cfg) && negb (bypassProc cfg))
    (match w_eqFilter w with
     | None => return_ false
     | Some eqFilter =>
         when (negb (String.eqb eqFilter ""))
           (appendTemp EqTempPath ;;
            ok <- invoke EqApply (w_eqApply w) (Some EqTempPath)
                         (w_partial w EqApply) ;;
            if ok then setWorkingPath EqTempPath else return_ false)
     end).

(** The dynamics score, computed when a dynamics preset is selected. *)
Definition stageScore (w : World) (cfg : ProcessConfig) : Proc unit :=
  when (negb (bypassProc cfg) && enabled (DynamicsPreset cfg))
    (ok <- invoke ScoreAnalysis (isSome (w_score w)) None false ;;
     if ok then ret tt else return_ false).

Definition dsAnalysisOf (w : World) (cfg : ProcessConfig) : option R :=
  if negb (bypassProc cfg) && enabled (DynamicsPreset cfg) then w_score w else None.

(** Stage 2: dynaudnorm, then the loudness measurement of the
    normalized file.  ([buildDynaudnormFilter] never returns the empty
    string for non-nil parameters.) *)
Definition stageDynaudnorm (w : World) (cfg : ProcessConfig) : Proc unit :=
  when (DynNorm cfg && negb (bypassProc cfg))
    (ok <- invoke DynAnalysis (isSome (w_dynAnalysis w)) None false ;;
     if negb ok then return_ false else
     match CalculateDynaudnormParams (w_dynAnalysis w) with
     | None => ret tt
     | Some _ =>
         appendTemp DynTempPath ;;
         ok <- invoke DynApply (w_dynApply w) (Some DynTempPath)
                      (w_partial w DynApply) ;;
         if negb ok then return_ false else
         setWorkingPath DynTempPath ;;
         measureBoth cfg (w_dynLoudnorm w) (w_dynEbuR128 w)
     end).

(** Stage 3, first half: the attenuation pre-pass of the Broadcast
    preset; gives [attenuatedPath]. *)
Definition attenuationPrePass (w : World) (cfg : ProcessConfig) : Proc Path :=
  working <- getWorkingPath ;;
  if String.eqb (DynamicsPreset cfg) "Broadcast" then
    _ <- invoke PeakCheck (w_peakOk w) None false ;;
    match w_peak w with
    | Some peakLevel =>
        if Rlt_dec (-5) peakLevel then
          appendTemp AttenuatedPath ;;
          ok <- invoke Attenuate (w_attenuate w) (Some AttenuatedPath)
                       (w_partial w Attenuate) ;;
          if ok then ret AttenuatedPath else return_ false
        else ret working
    | None => ret working
    end
  else ret working.

(** Stage 3, second half: which compression filter is built (multiband
    for Broadcast, single-band otherwise); [true] when it is not the
    empty string. *)
Definition compressionFilterBuilt (w : World) (cfg : ProcessConfig) : Proc bool :=
  if String.eqb (DynamicsPreset cfg) "Broadcast" then
    ok <- invoke BandAnalysis (negb (Nat.eqb (List.length (w_bands w)) 0)) None false ;;
    if negb ok then return_ false else
    ret (isSome (buildMultibandCompression (w_bands w) (dsAnalysisOf w cfg)
                                           (DynamicsPreset cfg)))
  else
    ok <- invoke SbcAnalysis (isSome (w_sbcAnalysis w)) None false ;;
    if negb ok then return_ false else
    ret (isSome (calculateAdaptiveCompression (w_sbcAnalysis w) (dsAnalysisOf w cfg)
                                             (DynamicsPreset cfg))).

(** Stage 3: dynamics analysis and application. *)
Definition stageDynamics (w : World) (cfg : ProcessConfig) : Proc unit :=
  when (enabled (DynamicsPreset cfg) && negb (bypassProc cfg))
    (_ <- attenuationPrePass w cfg ;;
     compressionFilter <- compressionFilterBuilt w cfg ;;
     when compressionFilter
       (appendTemp CompTempPath ;;
        ok <- invoke CompApply (w_compApply w) (Some CompTempPath)
                     (w_partial w CompApply) ;;
        if ok then setWorkingPath CompTempPath else return_ false)).

(** Stage 4: loudness measurement after all processing. *)
Definition stageLoudness (w : World) (cfg : ProcessConfig) : Proc unit :=
  measureBoth cfg (w_loudnorm w) (w_ebuR128 w).

(** The ReplayGain metadata and the final encode. *)
Definition stageEncode (w : World) (cfg : ProcessConfig) : Proc bool :=
  m <- getMeasured ;;
  setTags (match m with
           | Some mm =>
               if writeTags cfg then Some (replayGain (w_target w) mm, rgTpInLin m)
               else None
           | None => None
           end) ;;
  ok <- invoke Encode (w_encode w) (Some OutputPath) (w_partial w Encode) ;;
  if ok then return_ true else return_ false.

(** The body of [processFile], from "Stage 1" to the final encode. *)
Definition processFileBody (w : World) (cfg : ProcessConfig) : Proc bool :=
  stageEq w cfg ;;
  stageScore w cfg ;;
  stageDynaudnorm w cfg ;;
  stageDynamics w cfg ;;
  stageLoudness w cfg ;;
  stageEncode w cfg.

(** [processFile]: the body runs from a fresh state; the deferred
    [cleanupTempFiles(tempFiles)] then runs on whatever path the body
    left by, on the list as it stands at that moment. *)
Definition initialRun (fs : list Path) : Run :=
  mkRun InputPath [] None fs [] None.

Definition processFile (w : World) (cfg : ProcessConfig) (fs : list Path) : bool * Run :=
  let '(flow, r) := processFileBody w cfg (initialRun fs) in
  let result := match flow with Continue b => b | Returned b => b end in
  (result,
   mkRun (workingPath r) (tempFiles r) (measured r)
         (cleanupTempFiles (tempFiles r) (files r)) (trace r) (tags r)).

(** A stage invocation of the run failed. *)
Definition failed (st : Stage) (r : Run) : Prop := In (st, false) (trace r).

(** The final encode ran to completion: the only invocation that
    targets the output path. *)
Definition outputWritten (r : Run) : Prop := In (Encode, true) (trace r).

(** Specifications of a piece of the body: from a state satisfying [P]
    it either falls through into [Q] or returns into [E]. *)
Definition triple {A} (P : Run -> Prop) (m : Proc A)
  (Q : A -> Run -> Prop) (E : bool -> Run -> Prop) : Prop :=
  forall r, P r ->
    match m r with
    | (Continue a, r') => Q a r'
    | (Returned b, r') => E b r'
    end.

(** What holds between the stages of a run started with the files [fs]:
    no invocation other than the quick peak check has failed, every file
    the run has created (whole or partial) is on the temp list, the final
    encode has not been invoked, and the output path is not on the temp
    list. *)
Definition running (fs : list Path) (r : Run) : Prop :=
  (forall st, st <> PeakCheck -> ~ failed st r) /\
  (forall p, In p (files r) -> In p fs \/ In p (tempFiles r)) /\
  (forall b, ~ In (Encode, b) (trace r)) /\
  ~ In OutputPath (tempFiles r).

(** What holds when the body returns [b]: a file that was not there
    before is on the temp list, or it is the output: written by the final
    encode, or left by it when it failed. *)
Definition returned (w : World) (fs : list Path) (b : bool) (r : Run) : Prop :=
  (b = true -> (forall st, st <> PeakCheck -> ~ failed st r) /\ outputWritten r) /\
  (b = false -> ~ outputWritten r) /\
  (forall p, In p (files r) ->
     In p fs \/ In p (tempFiles r) \/
     (p = OutputPath /\
      (b = true \/ (failed Encode r /\ w_partial w Encode = true)))) /\
  ~ In OutputPath (tempFiles r) /\
  (failed Encode r -> w_partial w Encode = true -> In OutputPath (files r)).


(** Scenario D: Flat EQ is selected, the EQ filter is not empty, and
    the engine fails while rendering it, leaving a partial file. *)
Definition scenarioD_world : World :=
  mkWorld (Some "lowshelf=f=50:g=-3.00:width_type=q:width=0.7") false
          None None true None None true None true [] None true
          None None true None (fun _ => true).

Definition scenarioD_config : ProcessConfig :=
  mkConfig false false false false "Off" "Flat" false.

(** A tag-only run: no processing stage is selected, the EBU R128
    measurement reports I = -18.0 LUFS and a true peak of -1.5 dBFS, and
    the target is -23 LUFS. *)
Definition tagOnly_world : World :=
  mkWorld None true None None true None None true None true [] None true
          None (Some (mkMeasured (Some (-18)) (Some (-1.5)))) true (Some (-23))
          (fun _ => false).

Definition tagOnly_config : ProcessConfig :=
  mkConfig false false true false "Off" "Off" false.



End Pipeline.

(* ===================================================================== *)
(** * The EQ curve engine (frequency-response analysis, package [main])  *)
(* ===================================================================== *)

(** Types and helpers that the copies of the EQ engine share. *)
Module EqBands.

Local Open Scope Q_scope.
Local Open Scope string_scope.

Record FrequencyBand := mkFrequencyBand {
  Frequency : string;
  FilterType : string;
  RMSLevel : Q;
  PeakLevel : Q;
  CrestFactor : Q
}.

(** The band table at the head of [analyzeFrequencyResponseBands]. *)
Definition bandTable : list (string * string) :=
  [ ("50Hz", "lowpass"); ("100Hz", "bandpass"); ("200Hz", "bandpass");
    ("400Hz", "bandpass"); ("800Hz", "bandpass"); ("1.6kHz", "bandpass");
    ("3.2kHz", "bandpass"); ("6.4kHz", "bandpass"); ("12.8kHz", "bandpass");
    ("12.8kHz+", "highpass") ].

(** [analyzeFrequencyResponseBands]: every table entry is measured by
    the engine; [measure] gives (rms, peak, crest) per band label (all
    zero when the invocation fails or prints nothing).  The result always
    has the ten bands of the table. *)
Definition analyzeFrequencyResponseBands (measure : string -> Q * Q * Q)
  : list FrequencyBand :=
  map (fun e => let '(rms, peak, crest) := measure (fst e) in
                mkFrequencyBand (fst e) (snd e) rms peak crest) bandTable.

(** [getBandpassParams]: centre frequency and bandwidth (equal). *)
Definition getBandpassParams (freqStr : string) : Z * Q :=
  let centerFreq :=
    if freqStr =? "100Hz" then 100%Z
    else if freqStr =? "200Hz" then 200%Z
    else if freqStr =? "400Hz" then 400%Z
    else if freqStr =? "800Hz" then 800%Z
    else if freqStr =? "1.6kHz" then 1600%Z
    else if freqStr =? "3.2kHz" then 3200%Z
    else if freqStr =? "6.4kHz" then 6400%Z
    else if freqStr =? "12.8kHz" then 12800%Z
    else 0%Z in
  (centerFreq, inject_Z centerFreq).

(** One element of the comma-joined EQ chain, with the numbers that the
    format string prints.  [ShelfLow] and [ShelfHigh] are the
    [lowshelf=f=50] and [highshelf=f=12800] filters; [guarded] records
    the extra [highpass=f=25] / [lowpass=f=17500] that the newer copy
    writes in front of them.  [Fixed] is a preset's fixed high-pass or
    low-pass string. *)
Inductive EqPart :=
| ShelfLow (guarded : bool) (gain : Q)
| ShelfHigh (guarded : bool) (gain : Q)
| Anequalizer (centerFreq : Z) (bandwidth : Q) (gain : Q)
| Fixed (filter : string).

(** The gain a chain element applies, if it is a band filter. *)
Definition partGain (p : EqPart) : option Q :=
  match p with
  | ShelfLow _ g | ShelfHigh _ g | Anequalizer _ _ g => Some g
  | Fixed _ => None
  end.

(** [overallRMS]: the sum loop followed by the division by [len(bands)]. *)
Definition overallRMS (bands : list FrequencyBand) : Q :=
  fold_left (fun acc band => acc + RMSLevel band) bands 0
  / inject_Z (Z.of_nat (List.length bands)).

(** The first gain loop of [buildEqFilter]: target minus measured level,
    limited to +-10 dB. *)
Definition limitGain (targetLevel : Q) (band : FrequencyBand) : Q :=
  let gain := targetLevel - RMSLevel band in
  let maxGain := 10 in
  if Qlt_le_dec maxGain gain then maxGain
  else if Qlt_le_dec gain (- maxGain) then - maxGain
  else gain.

(** [gain > -0.5 && gain < 0.5]: the band is skipped. *)
Definition tiny (gain : Q) : bool :=
  if Qlt_le_dec (-0.5) gain then (if Qlt_le_dec gain 0.5 then true else false)
  else false.

(** The 2:1 correction of the Speech and Broadcast cases, shared by the
    copies that boost as well as cut: [deviation / 2] limited to +-10,
    skipped when tiny. *)
Definition twoToOneTarget (band : FrequencyBand) (targetLevel : Q) : Q :=
  let deviation := RMSLevel band - targetLevel in
  let correction := deviation / 2 in
  let correction :=
    if Qlt_le_dec 10 correction then 10
    else if Qlt_le_dec correction (-10) then -10
    else correction in
  if tiny correction then RMSLevel band
  else RMSLevel band - correction.

(** The attenuate-only rule: a band above its reference is pulled down
    by half the excess, at most 10 dB; a band at or below it is left. *)
Definition attenuateAbove (band : FrequencyBand) (reference : Q) : Q :=
  if Qlt_le_dec reference (RMSLevel band) then
    let excess := RMSLevel band - reference in
    let attenuation := excess / 2 in
    let attenuation := if Qlt_le_dec 10 attenuation then 10 else attenuation in
    RMSLevel band - attenuation
  else RMSLevel band.

(** An engine that reports the given RMS levels for the ten bands of
    the table, in table order (peak and crest left at zero). *)
Fixpoint lookupLevel (table : list (string * string)) (rms : list Q)
  (label : string) : Q :=
  match table, rms with
  | (l, _) :: table', r :: rms' =>
      if label =? l then r else lookupLevel table' rms' label
  | _, _ => 0
  end.

Definition measureFrom (rms : list Q) (label : string) : Q * Q * Q :=
  (lookupLevel bandTable rms label, 0, 0).

(** Numbers are compared up to their value: each rational of a chain
    element is put in lowest terms. *)
Definition canonical (p : EqPart) : EqPart :=
  match p with
  | ShelfLow b g => ShelfLow b (Qred g)
  | ShelfHigh b g => ShelfHigh b (Qred g)
  | Anequalizer f w g => Anequalizer f (Qred w) (Qred g)
  | Fixed s => Fixed s
  end.

(** Scenario C: ten bands, all at RMS = -20 dB. *)
Definition scenarioC : list FrequencyBand :=
  analyzeFrequencyResponseBands
    (measureFrom [-20; -20; -20; -20; -20; -20; -20; -20; -20; -20]).

(** A quiet programme with a strong band above 12.8 kHz: the overall
    RMS is -30 dB, the 100 Hz band lies 2 dB above it and the top band
    20 dB above it. *)
Definition brightTop : list FrequencyBand :=
  analyzeFrequencyResponseBands
    (measureFrom [-30; -28; -33; -33; -33; -33; -33; -33; -34; -10]).

(** A programme with a strong band below 50 Hz: the overall RMS is
    -37 dB and the lowest band lies 27 dB above it. *)
Definition boomyLow : list FrequencyBand :=
  analyzeFrequencyResponseBands
    (measureFrom [-10; -40; -40; -40; -40; -40; -40; -40; -40; -40]).

End EqBands.

(** ** go/freq_anal.go *)
Module FreqAnal.

Import EqBands.
Local Open Scope Q_scope.
Local Open Scope string_scope.

Definition getOctavesFrom1k (freqStr : string) : Q :=
  if freqStr =? "50Hz" then -4.32
  else if freqStr =? "100Hz" then -3.32
  else if freqStr =? "200Hz" then -2.32
  else if freqStr =? "400Hz" then -1.32
  else if freqStr =? "800Hz" then -0.32
  else if freqStr =? "1.6kHz" then 0.68
  else if freqStr =? "3.2kHz" then 1.68
  else if freqStr =? "6.4kHz" then 2.68
  else if freqStr =? "12.8kHz" then 3.68
  else if freqStr =? "12.8kHz+" then 4.5
  else 0.

(** Pink-noise reference of a band: +3 dB per octave below 1 kHz. *)
Definition pinkNoiseRef (overall : Q) (band : FrequencyBand) : Q :=
  overall - (getOctavesFrom1k (Frequency band) * 3).

Definition speechAdjustment (freqStr : string) : Q :=
  if freqStr =? "50Hz" then -9
  else if freqStr =? "100Hz" then -4.5
  else if freqStr =? "200Hz" then 1
  else if freqStr =? "400Hz" then -4
  else if freqStr =? "800Hz" then 0.5
  else if freqStr =? "1.6kHz" then 3
  else if freqStr =? "3.2kHz" then 2
  else if freqStr =? "6.4kHz" then 1
  else if freqStr =? "12.8kHz" then 1.5
  else if freqStr =? "12.8kHz+" then 0
  else 0.

Definition broadcastAdjustment (freqStr : string) : Q :=
  if freqStr =? "50Hz" then -12
  else if freqStr =? "100Hz" then -8
  else if freqStr =? "200Hz" then -0.5
  else if freqStr =? "400Hz" then -5.5
  else if freqStr =? "800Hz" then 2
  else if freqStr =? "1.6kHz" then 4.5
  else if freqStr =? "3.2kHz" then 3.5
  else if freqStr =? "6.4kHz" then 3
  else if freqStr =? "12.8kHz" then -1.5
  else if freqStr =? "12.8kHz+" then -1.5
  else 0.

(** [calculateTargetCurve] *)
Definition calculateTargetCurve (bands : list FrequencyBand) (eqTarget : string)
  : list Q :=
  let overall := overallRMS bands in
  if eqTarget =? "Flat" then
    map (fun band => attenuateAbove band (pinkNoiseRef overall band)) bands
  else if eqTarget =? "Speech" then
    map (fun band =>
           twoToOneTarget band
             (pinkNoiseRef overall band + speechAdjustment (Frequency band))) bands
  else if eqTarget =? "Broadcast" then
    map (fun band =>
           twoToOneTarget band
             (pinkNoiseRef overall band + broadcastAdjustment (Frequency band))) bands
  else map RMSLevel bands.

(** The correction set: per band, the limited gain, or nothing when the
    band is skipped as tiny. *)
Definition corrections (bands : list FrequencyBand) (eqTarget : string)
  : list (FrequencyBand * Q) :=
  filter (fun bg => negb (tiny (snd bg)))
         (map (fun bt => (fst bt, limitGain (snd bt) (fst bt)))
              (combine bands (calculateTargetCurve bands eqTarget))).

Definition renderBand (bg : FrequencyBand * Q) : list EqPart :=
  let '(band, gain) := bg in
  if FilterType band =? "lowpass" then [ShelfLow false gain]
  else if FilterType band =? "highpass" then [ShelfHigh false gain]
  else if FilterType band =? "bandpass" then
    let '(centerFreq, bandwidth) := getBandpassParams (Frequency band) in
    [Anequalizer centerFreq bandwidth gain]
  else [].

(** [buildEqFilter]; the empty list is the empty string. *)
Definition buildEqFilter (bands : list FrequencyBand) (eqTarget : string)
  : list EqPart :=
  if (Nat.eqb (List.length bands) 0 || (eqTarget =? "Off"))%bool then []
  else flat_map renderBand (corrections bands eqTarget).

End FreqAnal.

(** ** The earliest copy of the frequency-analysis file: the per-octave
    term is added, and Speech and Broadcast only attenuate. *)
Module FreqAnalEarly.

Import EqBands.
Local Open Scope Q_scope.
Local Open Scope string_scope.

Definition getOctavesFrom1k (freqStr : string) : Q :=
  FreqAnal.getOctavesFrom1k freqStr.

Definition pinkNoiseRef (overall : Q) (band : FrequencyBand) : Q :=
  overall + (getOctavesFrom1k (Frequency band) * 3).

Definition speechOffset (freqStr : string) : Q :=
  if ((freqStr =? "50Hz") || (freqStr =? "100Hz"))%bool then -4
  else if freqStr =? "200Hz" then -3
  else if freqStr =? "400Hz" then -3
  else if freqStr =? "800Hz" then -2
  else if freqStr =? "3.2kHz" then -2
  else 0.

Definition broadcastOffset (freqStr : string) : Q :=
  if freqStr =? "50Hz" then -3
  else if ((freqStr =? "100Hz") || (freqStr =? "200Hz"))%bool then -2
  else if freqStr =? "400Hz" then -3
  else if freqStr =? "800Hz" then -2
  else if freqStr =? "3.2kHz" then -2
  else if ((freqStr =? "12.8kHz") || (freqStr =? "12.8kHz+"))%bool then 1
  else 0.

Definition calculateTargetCurve (bands : list FrequencyBand) (eqTarget : string)
  : list Q :=
  let overall := overallRMS bands in
  if eqTarget =? "Flat" then
    map (fun band => attenuateAbove band (pinkNoiseRef overall band)) bands
  else if eqTarget =? "Speech" then
    map (fun band =>
           attenuateAbove band
             (pinkNoiseRef overall band + speechOffset (Frequency band))) bands
  else if eqTarget =? "Broadcast" then
    map (fun band =>
           attenuateAbove band
             (pinkNoiseRef overall band + broadcastOffset (Frequency band))) bands
  else map RMSLevel bands.

Definition corrections (bands : list FrequencyBand) (eqTarget : string)
  : list (FrequencyBand * Q) :=
  filter (fun bg => negb (tiny (snd bg)))
         (map (fun bt => (fst bt, limitGain (snd bt) (fst bt)))
              (combine bands (calculateTargetCurve bands eqTarget))).

(** [buildEqFilter] is the same text as in go/freq_anal.go. *)
Definition buildEqFilter (bands : list FrequencyBand) (eqTarget : string)
  : list EqPart :=
  if (Nat.eqb (List.length bands) 0 || (eqTarget =? "Off"))%bool then []
  else flat_map FreqAnal.renderBand (corrections bands eqTarget).

End FreqAnalEarly.

(** ** The newest copy of the frequency-analysis file (it follows
    go-refactor/ui.go in the source tree and calls the engine through the
    [ffmpeg] package, as the v1.3.0 [main] does): [clampExtremeEQ], and
    [buildEqFilter] with the preset high-pass and low-pass around the
    band filters. *)
Module EqClamp.

Import EqBands.
Local Open Scope Q_scope.
Local Open Scope string_scope.

Definition getOctavesFrom1k (freqStr : string) : Q :=
  if freqStr =? "50Hz" then -4.32
  else if freqStr =? "100Hz" then -3.32
  else if freqStr =? "200Hz" then -2.32
  else if freqStr =? "400Hz" then -1.32
  else if freqStr =? "800Hz" then -0.32
  else if freqStr =? "1.6kHz" then 0.68
  else if freqStr =? "3.2kHz" then 1.68
  else if freqStr =? "6.4kHz" then 2.68
  else if freqStr =? "12.8kHz" then 3.68
  else if freqStr =? "12.8kHz+" then 5
  else 0.

Definition pinkNoiseRef (overall : Q) (band : FrequencyBand) : Q :=
  overall - (getOctavesFrom1k (Frequency band) * 3).

Definition speechAdjustment (freqStr : string) : Q :=
  if freqStr =? "50Hz" then -9
  else if freqStr =? "100Hz" then -3.5
  else if freqStr =? "200Hz" then -2.5
  else if freqStr =? "400Hz" then -3
  else if freqStr =? "800Hz" then 0.5
  else if freqStr =? "1.6kHz" then 3
  else if freqStr =? "3.2kHz" then 1
  else if freqStr =? "6.4kHz" then 0
  else if freqStr =? "12.8kHz" then -2
  else if freqStr =? "12.8kHz+" then -2
  else 0.

Definition broadcastAdjustment (freqStr : string) : Q :=
  if freqStr =? "50Hz" then -2
  else if freqStr =? "100Hz" then -1
  else if freqStr =? "200Hz" then -2.5
  else if freqStr =? "400Hz" then -4.5
  else if freqStr =? "800Hz" then 1
  else if freqStr =? "1.6kHz" then 2.5
  else if freqStr =? "3.2kHz" then 3.5
  else if freqStr =? "6.4kHz" then 2
  else if freqStr =? "12.8kHz" then -0.5
  else if freqStr =? "12.8kHz+" then -2.5
  else 0.

(** [calculateTargetCurve]: in this copy the Flat reference is the
    overall RMS itself. *)
Definition calculateTargetCurve (bands : list FrequencyBand) (eqTarget : string)
  : list Q :=
  let overall := overallRMS bands in
  if eqTarget =? "Flat" then
    map (fun band => attenuateAbove band overall) bands
  else if eqTarget =? "Speech" then
    map (fun band =>
           twoToOneTarget band
             (pinkNoiseRef overall band + speechAdjustment (Frequency band))) bands
  else if eqTarget =? "Broadcast" then
    map (fun band =>
           twoToOneTarget band
             (pinkNoiseRef overall band + broadcastAdjustment (Frequency band))) bands
  else map RMSLevel bands.

(** Slice helpers: [gains[i]] (zero out of range, never used there) and
    the assignment [clamped[i] = v]. *)
Definition at_ (gains : list Q) (i : nat) : Q := nth i gains 0.

Fixpoint setAt (gains : list Q) (i : nat) (v : Q) : list Q :=
  match gains, i with
  | [], _ => []
  | _ :: rest, O => v :: rest
  | g :: rest, S i' => g :: setAt rest i' v
  end.

(** [for i := 1; i < len(gains)-1; i++ { sum += gains[i] }] *)
Definition sumNonExtremes (gains : list Q) : Q :=
  fold_left Qplus (firstn (List.length gains - 2) (skipn 1 gains)) 0.

Definition avgNonExtremes (gains : list Q) : Q :=
  sumNonExtremes gains / inject_Z (Z.of_nat (List.length gains - 2)).

(** Rule 3, the same for both shelves: (max, min) from the average. *)
Definition avgLimits (avg : Q) : Q * Q :=
  if Qlt_le_dec avg 0 then (999, avg) else (avg, -999).

(** The final range [(min, max)] of a shelf from the other extreme and
    its inner neighbour: the most restrictive of the three rules. *)
Definition shelfRange (other neighbor avg : Q) : Q * Q :=
  let maxFromOther := other + 4 in
  let minFromOther := other - 4 in
  let maxFromNeighbor := neighbor + 4 in
  let minFromNeighbor := neighbor - 4 in
  let '(maxFromAvg, minFromAvg) := avgLimits avg in
  (Qmax (Qmax minFromOther minFromNeighbor) minFromAvg,
   Qmin (Qmin maxFromOther maxFromNeighbor) maxFromAvg).

(** [if shelf > max { max } else if shelf < min { min }] *)
Definition clampShelf (shelf : Q) (range : Q * Q) : Q :=
  let '(lo, hi) := range in
  if Qlt_le_dec hi shelf then hi
  else if Qlt_le_dec shelf lo then lo
  else shelf.

Definition lowRange (gains : list Q) : Q * Q :=
  shelfRange (at_ gains (List.length gains - 1)) (at_ gains 1) (avgNonExtremes gains).

Definition clampedLow (gains : list Q) : Q :=
  clampShelf (at_ gains 0) (lowRange gains).

(** The high shelf is bounded from the low value already clamped. *)
Definition highRange (gains : list Q) : Q * Q :=
  shelfRange (clampedLow gains) (at_ gains (List.length gains - 2))
             (avgNonExtremes gains).

Definition clampedHigh (gains : list Q) : Q :=
  clampShelf (at_ gains (List.length gains - 1)) (highRange gains).

(** [clampExtremeEQ] *)
Definition clampExtremeEQ (gains : list Q) : list Q :=
  if (List.length gains <? 3)%nat then gains
  else
    let clamped := gains in
    let clamped := setAt clamped 0 (clampedLow gains) in
    setAt clamped (List.length clamped - 1) (clampedHigh gains).

(** The gains of [buildEqFilter]: collected per band, limited to +-10,
    then passed through [clampExtremeEQ]. *)
Definition limitedGains (bands : list FrequencyBand) (eqTarget : string) : list Q :=
  map (fun bt => limitGain (snd bt) (fst bt))
      (combine bands (calculateTargetCurve bands eqTarget)).

Definition eqGains (bands : list FrequencyBand) (eqTarget : string) : list Q :=
  clampExtremeEQ (limitedGains bands eqTarget).

Definition renderBand (bg : FrequencyBand * Q) : list EqPart :=
  let '(band, gain) := bg in
  if tiny gain then []
  else if FilterType band =? "lowpass" then [ShelfLow true gain]
  else if FilterType band =? "highpass" then [ShelfHigh true gain]
  else if FilterType band =? "bandpass" then
    let '(centerFreq, bandwidth) := getBandpassParams (Frequency band) in
    [Anequalizer centerFreq bandwidth gain]
  else [].

Definition presetHighpass (eqTarget : string) : string :=
  if eqTarget =? "Flat" then "highpass=f=25:p=2"
  else if eqTarget =? "Speech" then "highpass=f=80:p=2"
  else if eqTarget =? "Broadcast" then "highpass=f=70:p=2"
  else "".

Definition presetLowpass (eqTarget : string) : string :=
  if eqTarget =? "Flat" then ""
  else if eqTarget =? "Speech" then "lowpass=f=13000:p=1"
  else if eqTarget =? "Broadcast" then "lowpass=f=14000:p=2"
  else "".

Definition fixedPart (s : string) : list EqPart :=
  if s =? "" then [] else [Fixed s].

(** [buildEqFilter]; the empty list is the empty string. *)
Definition buildEqFilter (bands : list FrequencyBand) (eqTarget : string)
  : list EqPart :=
  if (Nat.eqb (List.length bands) 0 || (eqTarget =? "Off"))%bool then []
  else
    let filterParts :=
      flat_map renderBand (combine bands (eqGains bands eqTarget)) in
    fixedPart (presetHighpass eqTarget) ++ filterParts
      ++ fixedPart (presetLowpass eqTarget).

(** The extreme-band rules, on a vector of gains: shelves at the two
    ends, [avg] the average of the bands between them. *)
Definition within4 (a b : Q) : Prop := a - b <= 4 /\ b - a <= 4.

Definition boundedByAverage (avg g : Q) : Prop :=
  (0 <= avg -> g <= avg) /\ (avg < 0 -> avg <= g).

Definition extremeRules (avg : Q) (g : list Q) : Prop :=
  let n := List.length g in
  within4 (at_ g 0) (at_ g (n - 1)) /\
  within4 (at_ g 0) (at_ g 1) /\
  within4 (at_ g (n - 1)) (at_ g (n - 2)) /\
  boundedByAverage avg (at_ g 0) /\
  boundedByAverage avg (at_ g (n - 1)).

(** A range is usable when its lower limit does not exceed its upper
    limit. *)
Definition nonEmpty (range : Q * Q) : Prop := fst range <= snd range.

(** Reading a filter chain: the gain of its low shelf, of its high
    shelf and of its filter at a centre frequency; 0 dB when the chain
    holds no such element (the band was skipped). *)
Fixpoint shelfLowGain (chain : list EqPart) : Q :=
  match chain with
  | [] => 0
  | ShelfLow _ g :: _ => g
  | _ :: rest => shelfLowGain rest
  end.

Fixpoint shelfHighGain (chain : list EqPart) : Q :=
  match chain with
  | [] => 0
  | ShelfHigh _ g :: _ => g
  | _ :: rest => shelfHighGain rest
  end.

Fixpoint bandGain (centerFreq : Z) (chain : list EqPart) : Q :=
  match chain with
  | [] => 0
  | Anequalizer f _ g :: rest =>
      if Z.eqb f centerFreq then g else bandGain centerFreq rest
  | _ :: rest => bandGain centerFreq rest
  end.

End EqClamp.

(* ===================================================================== *)
(** * Package [audio]: level conversion, makeup gain, phase check        *)
(* ===================================================================== *)

Module AudioMore.

Import Audio.
Local Open Scope R_scope.


(** [CalculateMakeupGain] of package audio; [None] is the nil pointer. *)
Definition CalculateMakeupGain (analysis : option DynamicsAnalysis)
  (thresholdDb ratio : R) : R :=
  match analysis with
  | None => 1
  | Some analysis =>
      if Rle_dec ratio 1 then 1
      else
        let avgLevel := RMSLevel analysis in
        if Rlt_dec thresholdDb avgLevel then
          let excessDb := avgLevel - thresholdDb in
          let reductionDb := excessDb - (excessDb / ratio) in
          let makeupDb := reductionDb * 0.8 in
          Rpower 10 (makeupDb / 20)
        else 1
  end.

(** [ClampCompressorParams] applied to the tuple it returned. *)
Definition clampAgain (p : R * R * R * R * R) : R * R * R * R * R :=
  let '(thresholdLin, ratio, attackMs, releaseMs, makeupLin) := p in
  ClampCompressorParams thresholdLin ratio attackMs releaseMs makeupLin.

(** [calculatePhaseOffset] *)
Definition calculatePhaseOffset (ch1Min ch1Max ch2Min ch2Max : R) : R :=
  let diff1 := Rabs (Rabs ch1Min - Rabs ch2Max) in
  let diff2 := Rabs (Rabs ch1Max - Rabs ch2Min) in
  Rmax diff1 diff2.

(** The three ways [PhaseCheck] fails. *)
Inductive PhaseError :=
| AstatsFailed
| Channel1NotFound
| Channel2NotFound.

(** [parsePhaseCheck]: each argument is what the channel's regular
    expression captured, (min level, max level) as read by
    [strconv.ParseFloat], whose error is dropped; [None] when the
    expression does not match. *)
Definition parsePhaseCheck (ch1 ch2 : option (R * R)) : PhaseError + R * R * R * R :=
  match ch1 with
  | None => inl Channel1NotFound
  | Some (ch1Min, ch1Max) =>
      match ch2 with
      | None => inl Channel2NotFound
      | Some (ch2Min, ch2Max) => inr (ch1Min, ch1Max, ch2Min, ch2Max)
      end
  end.

(** [PhaseCheck]: (inverted, offset, err).  [output] is the answer of
    [buildPhaseCheck]: [None] when the engine fails, else what the two
    channel expressions capture in its output. *)
Definition PhaseCheck (output : option (option (R * R) * option (R * R)))
  : bool * R * option PhaseError :=
  match output with
  | None => (false, 0, Some AstatsFailed)
  | Some (ch1, ch2) =>
      match parsePhaseCheck ch1 ch2 with
      | inl err => (false, 0, Some err)
      | inr (ch1Min, ch1Max, ch2Min, ch2Max) =>
          let offset := calculatePhaseOffset ch1Min ch1Max ch2Min ch2Max in
          let inverted := if Rlt_dec offset 0.01 then true else false in
          (inverted, offset, None)
      end
  end.

(** The per-file decision of the workers of [process] (v1.3.0):
    [confirm] is the user's answer to the dialog, [processed] the result
    of [processFile]; the value is what the worker sends on [results]. *)
Definition shouldProcess (phaseCheck : bool)
  (phase : bool * R * option PhaseError) (confirm : bool) : bool :=
  if phaseCheck then
    let '(inverted, offset, err) := phase in
    match err with
    | Some _ => true
    | None => if inverted then confirm else true
    end
  else true.

Definition workerResult (phaseCheck : bool)
  (phase : bool * R * option PhaseError) (confirm processed : bool) : bool :=
  if shouldProcess phaseCheck phase confirm then processed else false.

End AudioMore.

(* ===================================================================== *)
(** * Package [main] of the go-refactor generation (v1.2.0): the         *)
(**   compressor builders that call package [audio]                      *)
(* ===================================================================== *)

Module Refactor.

Import Audio Compressor AudioMore.
Local Open Scope R_scope.
Local Open Scope string_scope.

(** [buildBandAcompressor]: the text of v1.3.0 with the inline knee
    chain and clamps replaced by [GetKneeFromRatio] and
    [ClampCompressorParams]; the filter string has the same fields. *)
Definition buildBandAcompressor (band : option FrequencyBandAnalysis)
  (attackMs releaseMs ratio fallbackThresholdDb : R) (mods : CompressionModifiers)
  : BandFilter :=
  match band with
  | None =>
      let thresholdLin := DbToLinear fallbackThresholdDb in
      let makeup := DbToLinear 3 in
      let limiterLin := DbToLinear (-1) in
      mkBandFilter thresholdLin ratio attackMs releaseMs 1 None
                   limiterLin 5 50 false makeup
  | Some band =>
      let adaptiveThresholdDb :=
        if Rlt_dec (RatioMultiplier mods) 0.3 then
          bPeakLevel band - 1
        else
          let thresholdOffset := 6 in
          let thresholdOffset :=
            if Rlt_dec 3 (RatioMultiplier mods) then 3 else thresholdOffset in
          bRMSLevel band + thresholdOffset in
      let thresholdLin := DbToLinear adaptiveThresholdDb in
      let makeupGainDb :=
        if Rlt_dec (RatioMultiplier mods) 0.3 then
          0
        else
          let expectedGRDb := (bRMSLevel band - adaptiveThresholdDb) / ratio in
          let makeupGainDb := - expectedGRDb * 0.8 in
          if Rlt_dec makeupGainDb 0 then 0 else makeupGainDb in
      let makeupLin := DbToLinear makeupGainDb in
      let limiterCeilingDb :=
        if Rlt_dec (RatioMultiplier mods) 0.3 then
          let limiterCeilingDb := bPeakLevel band - 0.1 in
          if Rlt_dec 0 limiterCeilingDb then 0 else limiterCeilingDb
        else
          bPeakLevel band - 0.8 in
      let limiterCeilingDb :=
        if Rlt_dec limiterCeilingDb (-24) then -24 else limiterCeilingDb in
      let limiterLin := DbToLinear limiterCeilingDb in
      let limiterLin := if Rlt_dec 1 limiterLin then 1 else limiterLin in
      let attackMs := attackMs * AttackMultiplier mods in
      let releaseMs := releaseMs * ReleaseMultiplier mods in
      let ratio := ratio * RatioMultiplier mods in
      let limiterAttack := 25 * AttackMultiplier mods in
      let limiterRelease := 150 * ReleaseMultiplier mods in
      let knee := GetKneeFromRatio ratio in
      let '(thresholdLin, ratio, attackMs, releaseMs, makeupLin) :=
        ClampCompressorParams thresholdLin ratio attackMs releaseMs makeupLin in
      let limiterAttack := if Rlt_dec 80 limiterAttack then 80 else limiterAttack in
      let limiterRelease := if Rlt_dec 8000 limiterRelease then 8000 else limiterRelease in
      mkBandFilter thresholdLin ratio attackMs releaseMs 1 (Some knee)
                   limiterLin limiterAttack limiterRelease true makeupLin
  end.

(** [buildMultibandCompression]: fixed per-band parameters, the preset
    is not consulted; [None] is the empty string. *)
Definition buildMultibandCompression (bandAnalysis : BandMap)
  (dsScore : option R) (preset : string) : option MultibandChain :=
  if Nat.eqb (List.length bandAnalysis) 0 then None
  else
    let mods := match dsScore with
                | Some ds => GetCompressionModifiers ds
                | None => mkMods 1 1 1
                end in
    Some (mkChain
      (buildBandAcompressor (lookupBand bandAnalysis "sub") 20 100 4 (-20) mods)
      (buildBandAcompressor (lookupBand bandAnalysis "bass") 15 80 3.5 (-18) mods)
      (buildBandAcompressor (lookupBand bandAnalysis "low_mid") 10 60 3 (-16) mods)
      (buildBandAcompressor (lookupBand bandAnalysis "mid") 8 50 2.5 (-14) mods)
      (buildBandAcompressor (lookupBand bandAnalysis "high") 5 40 2 (-12) mods)
      0.9886).

(** The preset switch of [calculateAdaptiveCompression]: threshold,
    ratio, attack, release; an unlisted preset leaves the zero values. *)
Definition singleBandBase (analysis : DynamicsAnalysis) (preset : string)
  : R * R * R * R :=
  if String.eqb preset "Light" then
    (RMSLevel analysis + 6, GetBaseRatioFromCrest (CrestFactor analysis), 100, 250)
  else if String.eqb preset "Moderate" then
    (RMSLevel analysis + 5, GetBaseRatioFromCrest (CrestFactor analysis), 40, 150)
  else if String.eqb preset "Broadcast" then
    (RMSLevel analysis + 4, GetBaseRatioFromCrest (CrestFactor analysis), 10, 30)
  else (0, 0, 0, 0).

(** [calculateAdaptiveCompression]: one compressor, always followed by
    the -1 dB limiter and the makeup [volume]; the string has the fields
    of a band filter. *)
Definition calculateAdaptiveCompression (analysis : option DynamicsAnalysis)
  (dsScore : option R) (preset : string) : option BandFilter :=
  match analysis with
  | None => None
  | Some a =>
    if String.eqb preset "Off" then None
    else
      let '(threshold, ratio, attack, release) := singleBandBase a preset in
      let '(attack, release, ratio) :=
        match dsScore with
        | Some ds =>
            let mods := GetCompressionModifiers ds in
            (attack * AttackMultiplier mods, release * ReleaseMultiplier mods,
             ratio * RatioMultiplier mods)
        | None => (attack, release, ratio)
        end in
      let thresholdLin := DbToLinear threshold in
      let makeupGain := CalculateMakeupGain analysis threshold ratio in
      let knee := GetKneeFromRatio ratio in
      let '(thresholdLin, ratio, attack, release, makeupGain) :=
        ClampCompressorParams thresholdLin ratio attack release makeupGain in
      let limiterLin := DbToLinear (-1) in
      Some (mkBandFilter thresholdLin ratio attack release 1 (Some knee)
                         limiterLin 5 50 true makeupGain)
  end.

End Refactor.

(* ===================================================================== *)
(** * The Go library calls of package [main]: strings and strconv        *)
(* ===================================================================== *)

Module GoLib.

Local Open Scope string_scope.
Local Open Scope Z_scope.

(** [strings.Contains] *)
Fixpoint Contains (s substr : string) : bool :=
  if String.prefix substr s then true
  else match s with
       | EmptyString => false
       | String _ s' => Contains s' substr
       end.

(** [strings.Split(s, sep)] for a separator of one byte: the pieces
    between the separators, one more than there are separators. *)
Fixpoint Split (s : string) (sep : ascii) : list string :=
  match s with
  | EmptyString => [EmptyString]
  | String c s' =>
      if Ascii.eqb c sep then EmptyString :: Split s' sep
      else match Split s' sep with
           | [] => [String c EmptyString]
           | piece :: pieces => String c piece :: pieces
           end
  end.

(** [strings.ReplaceAll(s, old, new)] for an [old] of one byte. *)
Fixpoint ReplaceAll (s : string) (old : ascii) (new : string) : string :=
  match s with
  | EmptyString => EmptyString
  | String c s' =>
      if Ascii.eqb c old then new ++ ReplaceAll s' old new
      else String c (ReplaceAll s' old new)
  end.

(** The value of a decimal digit, [ch - '0'] when it is at most 9. *)
Definition digitValue (ch : ascii) : option Z :=
  let n := Z.of_N (N_of_ascii ch) in
  if (48 <=? n) && (n <=? 57) then Some (n - 48) else None.

Definition maxUint64 : Z := 2 ^ 64 - 1.
Definition maxInt : Z := 2 ^ 63 - 1.
Definition minInt : Z := - 2 ^ 63.

(** How the digit loop of [strconv.ParseUint(s, 10, 64)] ends. *)
Inductive Parsed :=
| SyntaxError
| RangeError
| Value (un : Z).

(** The digit loop, from the number [n] read so far.  A byte that is
    not a digit is a syntax error; a number that leaves [uint64] is a
    range error, reported at the digit where it happens, whatever
    follows. *)
Fixpoint parseDigits (n : Z) (s : string) : Parsed :=
  match s with
  | EmptyString => Value n
  | String ch s' =>
      match digitValue ch with
      | None => SyntaxError
      | Some d =>
          if maxUint64 / 10 + 1 <=? n then RangeError
          else
            let n1 := n * 10 + d in
            if maxUint64 <? n1 then RangeError else parseDigits n1 s'
      end
  end.

(** [strconv.Atoi] on a 64-bit platform: the value and whether [err]
    is nil.  A syntax error gives 0; a number outside [int] gives the
    nearest [int], with an error.  (For strings shorter than 19 bytes
    the library runs a loop without range tests; no such string leaves
    the range.) *)
Definition Atoi (s : string) : Z * bool :=
  match s with
  | EmptyString => (0, false)
  | String c rest =>
      let neg := Ascii.eqb c "-" in
      let digits := if (neg || Ascii.eqb c "+")%bool then rest else s in
      match digits with
      | EmptyString => (0, false)
      | _ =>
          match parseDigits 0 digits with
          | SyntaxError => (0, false)
          | RangeError => if neg then (minInt, false) else (maxInt, false)
          | Value un =>
              if neg then
                if - un <? minInt then (minInt, false) else (- un, true)
              else
                if maxInt <? un then (maxInt, false) else (un, true)
          end
      end
  end.

(** Decimal digits of a non-negative number, most significant first,
    in front of [acc]. *)
Fixpoint digitsOf (fuel : nat) (n : Z) (acc : string) : string :=
  match fuel with
  | O => acc
  | S fuel' =>
      let acc' := String (ascii_of_N (Z.to_N (48 + n mod 10))) acc in
      if n <? 10 then acc' else digitsOf fuel' (n / 10) acc'
  end.

(** [fmt.Sprintf("%d", n)] / [strconv.Itoa]. *)
Definition Itoa (n : Z) : string :=
  if n <? 0 then String "-" (digitsOf (S (Z.to_nat (Z.log2 (- n)))) (- n) "")
  else digitsOf (S (Z.to_nat (Z.log2 n))) n "".

End GoLib.

(* ===================================================================== *)
(** * Package [main] (v1.3.0): update check                              *)
(* ===================================================================== *)

Module Versions.

Import GoLib.
Local Open Scope string_scope.
Local Open Scope Z_scope.

(** [for len(parts) < 3 { parts = append(parts, "0") }]: the loop runs
    at most three times. *)
Fixpoint padParts (fuel : nat) (parts : list string) : list string :=
  match fuel with
  | O => parts
  | S fuel' =>
      if (List.length parts <? 3)%nat then padParts fuel' (parts ++ ["0"])
      else parts
  end.

(** One round of the comparison loop; [rest] is what the later rounds
    give. *)
Definition comparePart (parts1 parts2 : list string) (i : nat) (rest : Z) : Z :=
  let n1 := fst (Atoi (nth i parts1 "")) in
  let n2 := fst (Atoi (nth i parts2 "")) in
  if n2 <? n1 then 1
  else if n1 <? n2 then -1
  else rest.

(** [compareVersions] *)
Definition compareVersions (v1 v2 : string) : Z :=
  let parts1 := padParts 3 (Split v1 ".") in
  let parts2 := padParts 3 (Split v2 ".") in
  comparePart parts1 parts2 0
    (comparePart parts1 parts2 1
       (comparePart parts1 parts2 2 0)).

(** [checkForUpdates] offers the download when
    [compareVersions(versionInfo.Version, currentVersion) > 0]. *)
Definition updateOffered (remoteVersion currentVersion : string) : bool :=
  0 <? compareVersions remoteVersion currentVersion.

(** The three numbers that [compareVersions] reads from a version. *)
Definition versionNumbers (v : string) : Z * Z * Z :=
  let parts := padParts 3 (Split v ".") in
  (fst (Atoi (nth 0 parts "")), fst (Atoi (nth 1 parts "")),
   fst (Atoi (nth 2 parts ""))).

(** A version written as dotted decimal numbers. *)
Definition dotted (numbers : list Z) : string :=
  String.concat "." (map Itoa numbers).

End Versions.

(* ===================================================================== *)
(** * Package [main] (v1.3.0): bit rate arguments of the final encode    *)
(* ===================================================================== *)

Module Encode.

Import GoLib.
Local Open Scope string_scope.
Local Open Scope Z_scope.

(** The bit rate block of [processFile]. *)
Definition needsFullNumber (actualCodec : string) : bool :=
  (actualCodec =? "libfdk_aac")%string || (actualCodec =? "aac")%string
  || (actualCodec =? "libopus")%string || (actualCodec =? "libmp3lame")%string.

Definition noBitrateUsed (actualCodec : string) : bool :=
  (actualCodec =? "PCM")%string || (actualCodec =? "flac")%string.

Definition bitrateStr (actualCodec Bitrate : string) : string :=
  if needsFullNumber actualCodec then
    if Contains Bitrate "k" then ReplaceAll Bitrate "k" "000"
    else if Contains Bitrate "000" then Bitrate
    else Bitrate ++ "000"
  else Bitrate.

Definition minBitrate : Z := 12.

Definition bitrate (actualCodec Bitrate : string) : Z :=
  let '(bitrate, ok) := Atoi (bitrateStr actualCodec Bitrate) in
  if negb ok || (bitrate <=? minBitrate) then
    if needsFullNumber actualCodec then 128000 else 128
  else bitrate.

(** The arguments appended for the bit rate. *)
Definition bitrateArgs (actualCodec Bitrate : string) : list string :=
  if negb (noBitrateUsed actualCodec) then
    if needsFullNumber actualCodec then
      ["-b:a"; Itoa (bitrate actualCodec Bitrate)]
    else
      ["-b:a"; Itoa (bitrate actualCodec Bitrate) ++ "k"]
  else [].

End Encode.

(* ===================================================================== *)
(** * Package [main] (v1.3.0): the file list                             *)
(* ===================================================================== *)

Module FileList.

Local Open Scope string_scope.
Local Open Scope list_scope.

(** [slices.Contains(n.files, path)] *)
Definition contains (files : list string) (path : string) : bool :=
  existsb (String.eqb path) files.

(** [addFile] *)
Definition addFile (files : list string) (path : string) : list string :=
  if contains files path then files else files ++ [path].

(** The loop of [selectFolder] over the audio files found. *)
Fixpoint addFolder (files audioFiles : list string) : list string :=
  match audioFiles with
  | [] => files
  | file :: rest =>
      addFolder (if contains files file then files else files ++ [file]) rest
  end.

(** [removeFile]: [append(n.files[:index], n.files[index+1:]...)].
    [None]: the slice expression panics, which it does for every index
    outside [0, len(n.files)). *)
Definition removeFile (files : list string) (index : Z) : option (list string) :=
  if ((0 <=? index) && (index <? Z.of_nat (List.length files)))%Z then
    Some (firstn (Z.to_nat index) files ++ skipn (Z.to_nat index + 1) files)
  else None.

(** What the user does to the file list. *)
Inductive Action :=
| AddFile (path : string)
| AddFolder (audioFiles : list string)
| RemoveFile (index : Z).

Definition act (files : list string) (a : Action) : option (list string) :=
  match a with
  | AddFile path => Some (addFile files path)
  | AddFolder audioFiles => Some (addFolder files audioFiles)
  | RemoveFile index => removeFile files index
  end.

Fixpoint session (files : list string) (actions : list Action) : option (list string) :=
  match actions with
  | [] => Some files
  | a :: rest =>
      match act files a with
      | Some files' => session files' rest
      | None => None
      end
  end.

End FileList.

(* ===================================================================== *)
(** * The EQ curve engine: presets and levels                            *)
(* ===================================================================== *)

Module EqMore.

Import EqBands.
Local Open Scope Q_scope.
Local Open Scope string_scope.


(** The preset names that [calculateTargetCurve] and [buildEqFilter]
    know. *)
Definition knownPreset (eqTarget : string) : bool :=
  (eqTarget =? "Flat") || (eqTarget =? "Speech") || (eqTarget =? "Broadcast")
  || (eqTarget =? "Off").

End EqMore.

(* ===================================================================== *)
(** * Package [main] (v1.3.0): what a run of [processFile] leaves        *)
(* ===================================================================== *)

Module PipelineMore.

Import Audio Compressor Pipeline.
Local Open Scope R_scope.
Local Open Scope string_scope.

(** The four temp files of a run. *)
Definition isTemp (p : Path) : bool :=
  match p with
  | EqTempPath | DynTempPath | AttenuatedPath | CompTempPath => true
  | InputPath | OutputPath => false
  end.

(** An engine that succeeds at every call site ([w_peakOk] and
    [w_peak] are free: the peak check may fail). *)
Definition cooperative (w : World) : bool :=
  isSome (w_eqFilter w) && w_eqApply w && isSome (w_score w)
  && isSome (w_dynAnalysis w) && w_dynApply w
  && isSome (w_dynLoudnorm w) && isSome (w_dynEbuR128 w)
  && w_attenuate w && negb (Nat.eqb (List.length (w_bands w)) 0)
  && isSome (w_sbcAnalysis w) && w_compApply w
  && isSome (w_loudnorm w) && isSome (w_ebuR128 w) && w_encode w.

(** The measurement that the final encode works from: stage 4 measures
    for normalization first and for tagging last. *)
Definition finalMeasurement (w : World) (cfg : ProcessConfig) : option Measured :=
  if writeTags cfg then w_ebuR128 w
  else if UseLoudnorm cfg then w_loudnorm w
  else None.

(** The stages that render audio, with their place in the source. *)
Definition renderRank (st : Stage) : option nat :=
  match st with
  | EqApply => Some 1%nat
  | DynApply => Some 2%nat
  | Attenuate => Some 3%nat
  | CompApply => Some 4%nat
  | Encode => Some 5%nat
  | _ => None
  end.

Fixpoint ranks (t : list (Stage * bool)) : list nat :=
  match t with
  | [] => []
  | (st, _) :: t' =>
      match renderRank st with
      | Some k => k :: ranks t'
      | None => ranks t'
      end
  end.

Fixpoint increasing (l : list nat) : bool :=
  match l with
  | a :: (b :: _) as l' => (a <? b)%nat && increasing l'
  | _ => true
  end.

(** [rendered st t]: the trace [t] holds a successful invocation of
    [st]. *)
Definition Stage_eqb (a b : Stage) : bool :=
  match a, b with
  | EqApply, EqApply | ScoreAnalysis, ScoreAnalysis | DynAnalysis, DynAnalysis
  | DynApply, DynApply | MeasureLoudnorm, MeasureLoudnorm
  | MeasureEbuR128, MeasureEbuR128 | PeakCheck, PeakCheck | Attenuate, Attenuate
  | BandAnalysis, BandAnalysis | SbcAnalysis, SbcAnalysis | CompApply, CompApply
  | Encode, Encode => true
  | _, _ => false
  end.

Definition rendered (st : Stage) (t : list (Stage * bool)) : bool :=
  existsb (fun e => Stage_eqb (fst e) st && snd e) t.

(** The file that the latest of the renderings EQ, dynaudnorm and
    compression (in source order) wrote, or the input. *)
Definition lastRendering (t : list (Stage * bool)) : Path :=
  if rendered CompApply t then CompTempPath
  else if rendered DynApply t then DynTempPath
  else if rendered EqApply t then EqTempPath
  else InputPath.

(** Between the stages: the working path is the last rendering, and
    the renderings in [later] have not succeeded yet. *)
Definition worksOn (later : list Stage) (r : Run) : Prop :=
  workingPath r = lastRendering (trace r) /\
  forallb (fun st => negb (rendered st (trace r))) later = true.

(** Between the stages: the renderings made so far are in source order
    and come before place [k]. *)
Definition upTo (k : nat) (r : Run) : Prop :=
  increasing (ranks (trace r) ++ [k]) = true.

(** What holds of the files throughout a run started with the files
    [fs]: nothing that was there has gone, and the temp list only holds
    temp files. *)
Definition filesKept (fs : list Path) (r : Run) : Prop :=
  (forall p, In p fs -> In p (files r)) /\
  (forall p, In p (tempFiles r) -> isTemp p = true).

Definition filesKeptAtReturn (fs : list Path) (b : bool) (r : Run) : Prop :=
  filesKept fs r /\ (b = true -> In OutputPath (files r)).

(** A run in bypass mode: only the measurements and the final encode
    have been invoked, there is no temp file, and the working path is the
    input. *)
Definition bypassed (r : Run) : Prop :=
  tempFiles r = [] /\ workingPath r = InputPath /\
  (forall st ok, In (st, ok) (trace r) ->
     st = MeasureLoudnorm \/ st = MeasureEbuR128 \/ st = Encode).

(** Before stage 4: without a measuring mode nothing has been
    measured. *)
Definition unmeasured (cfg : ProcessConfig) (r : Run) : Prop :=
  UseLoudnorm cfg = false -> writeTags cfg = false -> measured r = None.

End PipelineMore.

(* ===================================================================== *)
(** * Properties of package [audio]                                      *)
(* ===================================================================== *)

Module AudioProps.

Import Audio.
Local Open Scope R_scope.

(** Resolve the comparisons of a goal one after the other, closing the
    branches that the hypotheses exclude. *)
Ltac rcases :=
  repeat match goal with
         | |- context [Rlt_dec ?a ?b] => destruct (Rlt_dec a b); try (exfalso; rlra)
         | |- context [Rle_dec ?a ?b] => destruct (Rle_dec a b); try (exfalso; rlra)
         end.

Lemma Rpower10_pos (x : R) : 0 < Rpower 10 x.
Proof. unfold Rpower. apply exp_pos. Qed.

Lemma DbToLinear_pos (db : R) : 0 < DbToLinear db.
Proof. apply Rpower10_pos. Qed.

Lemma DbToLinear_0 : DbToLinear 0 = 1.
Proof.
  unfold DbToLinear. replace (0 / 20) with 0 by rlra.
  apply Rpower_O. rlra.
Qed.

Lemma DbToLinear_lt (a b : R) : a < b -> DbToLinear a < DbToLinear b.
Proof. intros H. unfold DbToLinear. apply Rpower_lt; rlra. Qed.

Lemma DbToLinear_le (a b : R) : a <= b -> DbToLinear a <= DbToLinear b.
Proof. intros H. unfold DbToLinear. apply Rle_Rpower; rlra. Qed.

Lemma DbToLinear_le_1 (db : R) : db <= 0 -> DbToLinear db <= 1.
Proof. intros H. rewrite <- DbToLinear_0. now apply DbToLinear_le. Qed.

Lemma DbToLinear_gt_1 (db : R) : 0 < db -> 1 < DbToLinear db.
Proof. intros H. rewrite <- DbToLinear_0. now apply DbToLinear_lt. Qed.

Lemma modifiers_lt_9 (ds : R) : ds < 9 -> GetCompressionModifiers ds = mkMods 4 4 0.15.
Proof. intros H. unfold GetCompressionModifiers. rcases. reflexivity. Qed.

Lemma modifiers_9_15 (ds : R) :
  9 <= ds < 15 -> GetCompressionModifiers ds = mkMods 2 2 2.1.
Proof. intros H. unfold GetCompressionModifiers. rcases. reflexivity. Qed.

Lemma modifiers_15_21 (ds : R) :
  15 <= ds <= 21 -> GetCompressionModifiers ds = mkMods 1 1 1.
Proof. intros H. unfold GetCompressionModifiers. rcases. reflexivity. Qed.

Lemma modifiers_gt_21 (ds : R) :
  21 < ds ->
  GetCompressionModifiers ds =
    mkMods (1 / scaleOf ds) (1 / scaleOf ds) (4 + (4 * excessOf ds / 79)).
Proof. intros H. unfold GetCompressionModifiers. rcases. reflexivity. Qed.

Lemma excessOf_bounds (ds : R) : 21 < ds -> 0 < excessOf ds <= 79.
Proof.
  intros H. unfold excessOf, Rmin. destruct (Rle_dec (ds - 21) 79); rlra.
Qed.

Lemma excessOf_cap (ds : R) : 100 <= ds -> excessOf ds = 79.
Proof.
  intros H. unfold excessOf, Rmin. destruct (Rle_dec (ds - 21) 79); rlra.
Qed.

Lemma excessOf_lip (x y : R) : Rabs (excessOf y - excessOf x) <= Rabs (y - x).
Proof.
  unfold excessOf, Rmin.
  destruct (Rle_dec (y - 21) 79), (Rle_dec (x - 21) 79);
    unfold Rabs; repeat destruct Rcase_abs; rlra.
Qed.

Lemma scaleOf_ge_2 (ds : R) : 21 < ds -> 2 <= scaleOf ds.
Proof. intros H. pose proof (excessOf_bounds ds H). unfold scaleOf. rlra. Qed.

Lemma inv_close (s t : R) : 2 <= s -> 2 <= t -> Rabs (1 / s - 1 / t) <= Rabs (s - t).
Proof.
  intros Hs Ht.
  replace (1 / s - 1 / t) with ((t - s) * / (s * t)) by (field; split; rlra).
  rewrite Rabs_mult, (Rabs_minus_sym t s).
  assert (Hst : 1 <= s * t) by rnra.
  assert (Hinv : 0 < / (s * t) <= 1).
  { split.
    - apply Rinv_0_lt_compat. rlra.
    - rewrite <- Rinv_1. apply Rinv_le_contravar; rlra. }
  rewrite (Rabs_right (/ (s * t))) by rlra.
  pose proof (Rabs_pos (s - t)). rnra.
Qed.

(** A function that agrees with a constant around [x] is continuous at [x]. *)
Lemma locally_constant_continuity (f : R -> R) (c x a : R) :
  0 < a -> (forall y, Rabs (y - x) < a -> f y = c) -> continuity_pt f x.
Proof.
  intros Ha Hc.
  apply (continuity_pt_locally_ext (fun _ => c) f a x Ha).
  - intros y Hy. symmetry. apply Hc. exact Hy.
  - apply continuity_pt_const. intros u v. reflexivity.
Qed.

(** A function that is 1-Lipschitz around [x] is continuous at [x]. *)
Lemma locally_lipschitz_continuity (f : R -> R) (x a : R) :
  0 < a ->
  (forall y, Rabs (y - x) < a -> Rabs (f y - f x) <= 4 * Rabs (y - x)) ->
  continuity_pt f x.
Proof.
  intros Ha Hl eps Heps.
  exists (Rmin a (eps / 4)). split.
  - apply Rmin_pos; rlra.
  - intros y [_ Hy]. simpl in *. unfold Rdist in *.
    assert (Hya : Rabs (y - x) < a).
    { eapply Rlt_le_trans; [exact Hy | apply Rmin_l]. }
    assert (Hye : Rabs (y - x) < eps / 4).
    { eapply Rlt_le_trans; [exact Hy | apply Rmin_r]. }
    specialize (Hl y Hya). rlra.
Qed.

(** A function that stays at distance [c] from [f x] on points
    arbitrarily close to [x] is not continuous at [x]. *)
Lemma jump_not_continuous (f : R -> R) (x c : R) :
  0 < c ->
  (forall a, 0 < a -> exists y, y <> x /\ Rabs (y - x) < a /\ c <= Rabs (f y - f x)) ->
  ~ continuity_pt f x.
Proof.
  intros Hc Hj Hcont.
  destruct (Hcont c Hc) as [a [Ha Hlim]].
  destruct (Hj a Ha) as [y [Hne [Hy Hfar]]].
  assert (Hd : dist R_met (f y) (f x) < c).
  { apply (Hlim y). split.
    - split; [exact I | congruence].
    - exact Hy. }
  simpl in Hd. unfold Rdist in Hd. rlra.
Qed.


(** ** The modifier mapping *)

(** C3.  For every dynamics score [ds] the mapping returns
    {attack x4, release x4, ratio x0.15} when [ds < 9];
    {x2, x2, x2.1} when [9 <= ds < 15]; exactly {1, 1, 1} when
    [15 <= ds <= 21]; and when [ds > 21], with
    [excess = min(ds - 21, 79)] and [scale = 2 + 2*excess/79], attack and
    release are [1/scale] and the ratio is [4 + 4*excess/79], which is 8
    from [ds = 100] on.  At 9 and at 15 only the upper branch applies,
    and at 21 the modifiers are {1, 1, 1}. *)
Theorem C3_modifier_mapping (ds : R) :
  (ds < 9 -> GetCompressionModifiers ds = mkMods 4 4 0.15) /\
  (9 <= ds < 15 -> GetCompressionModifiers ds = mkMods 2 2 2.1) /\
  (15 <= ds <= 21 -> GetCompressionModifiers ds = mkMods 1 1 1) /\
  (21 < ds ->
     excessOf ds = Rmin (ds - 21) 79 /\
     scaleOf ds = 2 + 2 * excessOf ds / 79 /\
     GetCompressionModifiers ds =
       mkMods (1 / scaleOf ds) (1 / scaleOf ds) (4 + 4 * excessOf ds / 79)) /\
  (100 <= ds -> RatioMultiplier (GetCompressionModifiers ds) = 8) /\
  GetCompressionModifiers 9 = mkMods 2 2 2.1 /\
  GetCompressionModifiers 15 = mkMods 1 1 1 /\
  GetCompressionModifiers 21 = mkMods 1 1 1 /\
  RatioMultiplier (GetCompressionModifiers 100) = 8.
Proof.
  assert (H100 : forall d, 100 <= d -> RatioMultiplier (GetCompressionModifiers d) = 8).
  { intros d Hd. rewrite modifiers_gt_21 by rlra. simpl.
    rewrite (excessOf_cap d Hd). rlra. }
  repeat split.
  - apply modifiers_lt_9.
  - apply modifiers_9_15.
  - apply modifiers_15_21.
  - rewrite modifiers_gt_21 by assumption. f_equal; rlra.
  - apply H100.
  - apply modifiers_9_15. rlra.
  - apply modifiers_15_21. rlra.
  - apply modifiers_15_21. rlra.
  - apply H100. rlra.
Qed.

(** One score in each branch: 5, 12, 18 and 60. *)
Lemma C3_modifier_mapping_witness :
  GetCompressionModifiers 5 = mkMods 4 4 0.15 /\
  GetCompressionModifiers 12 = mkMods 2 2 2.1 /\
  GetCompressionModifiers 18 = mkMods 1 1 1 /\
  GetCompressionModifiers 60 =
    mkMods (1 / scaleOf 60) (1 / scaleOf 60) (4 + 4 * excessOf 60 / 79) /\
  RatioMultiplier (GetCompressionModifiers 150) = 8.
Proof.
  split; [| split; [| split; [| split]]].
  - apply (C3_modifier_mapping 5). rlra.
  - apply (C3_modifier_mapping 12). rlra.
  - apply (C3_modifier_mapping 18). rlra.
  - apply (C3_modifier_mapping 60). rlra.
  - apply (C3_modifier_mapping 150). rlra.
Defined.

(** Values of the multipliers on each piece. *)
Lemma attackOf_lt_9 (y : R) : y < 9 -> attackOf y = 4.
Proof. intros H. unfold attackOf. now rewrite modifiers_lt_9. Qed.

Lemma attackOf_9_15 (y : R) : 9 <= y < 15 -> attackOf y = 2.
Proof. intros H. unfold attackOf. now rewrite modifiers_9_15. Qed.

Lemma attackOf_15_21 (y : R) : 15 <= y <= 21 -> attackOf y = 1.
Proof. intros H. unfold attackOf. now rewrite modifiers_15_21. Qed.

Lemma attackOf_gt_21 (y : R) : 21 < y -> attackOf y = 1 / scaleOf y.
Proof. intros H. unfold attackOf. now rewrite modifiers_gt_21. Qed.

Lemma releaseOf_attackOf (y : R) : releaseOf y = attackOf y.
Proof.
  unfold releaseOf, attackOf, GetCompressionModifiers.
  repeat destruct Rlt_dec; try destruct Rle_dec; reflexivity.
Qed.

Lemma ratioOf_lt_9 (y : R) : y < 9 -> ratioOf y = 0.15.
Proof. intros H. unfold ratioOf. now rewrite modifiers_lt_9. Qed.

Lemma ratioOf_9_15 (y : R) : 9 <= y < 15 -> ratioOf y = 2.1.
Proof. intros H. unfold ratioOf. now rewrite modifiers_9_15. Qed.

Lemma ratioOf_15_21 (y : R) : 15 <= y <= 21 -> ratioOf y = 1.
Proof. intros H. unfold ratioOf. now rewrite modifiers_15_21. Qed.

Lemma ratioOf_gt_21 (y : R) : 21 < y -> ratioOf y = 4 + 4 * excessOf y / 79.
Proof. intros H. unfold ratioOf. rewrite modifiers_gt_21 by assumption. simpl. rlra. Qed.

(** Distance to a centre, as two inequalities. *)
Lemma Rabs_lt_both (y x a : R) : Rabs (y - x) < a -> x - a < y < x + a.
Proof. intros H. apply Rabs_def2 in H. rlra. Qed.

Lemma Rabs_small (y x a : R) : x - a < y < x + a -> Rabs (y - x) < a.
Proof. intros H. apply Rabs_def1; rlra. Qed.

(** Away from 9, 15 and 21 the attack multiplier is continuous. *)
Lemma attackOf_continuous (ds : R) :
  ds <> 9 -> ds <> 15 -> ds <> 21 -> continuity_pt attackOf ds.
Proof.
  intros H9 H15 H21.
  destruct (Rlt_dec ds 9) as [L9 | G9].
  { apply (locally_constant_continuity attackOf 4 ds (9 - ds)); [rlra |].
    intros y Hy. apply Rabs_lt_both in Hy. apply attackOf_lt_9. rlra. }
  destruct (Rlt_dec ds 15) as [L15 | G15].
  { apply (locally_constant_continuity attackOf 2 ds (Rmin (ds - 9) (15 - ds))).
    - apply Rmin_pos; rlra.
    - intros y Hy. apply Rabs_lt_both in Hy.
      pose proof (Rmin_l (ds - 9) (15 - ds)). pose proof (Rmin_r (ds - 9) (15 - ds)).
      apply attackOf_9_15. rlra. }
  destruct (Rlt_dec ds 21) as [L21 | G21].
  { apply (locally_constant_continuity attackOf 1 ds (Rmin (ds - 15) (21 - ds))).
    - apply Rmin_pos; rlra.
    - intros y Hy. apply Rabs_lt_both in Hy.
      pose proof (Rmin_l (ds - 15) (21 - ds)). pose proof (Rmin_r (ds - 15) (21 - ds)).
      apply attackOf_15_21. rlra. }
  apply (locally_lipschitz_continuity attackOf ds (ds - 21)); [rlra |].
  intros y Hy. pose proof (Rabs_lt_both _ _ _ Hy) as Hy'.
  rewrite !attackOf_gt_21 by rlra.
  eapply Rle_trans.
  - apply inv_close; apply scaleOf_ge_2; rlra.
  - pose proof (excessOf_lip ds y) as Hl. unfold scaleOf.
    replace (2 + 2 * excessOf y / 79 - (2 + 2 * excessOf ds / 79))
      with ((2 / 79) * (excessOf y - excessOf ds)) by rlra.
    rewrite Rabs_mult. rewrite (Rabs_right (2 / 79)) by rlra.
    pose proof (Rabs_pos (y - ds)). rlra.
Qed.

(** Away from 9, 15 and 21 the ratio multiplier is continuous. *)
Lemma ratioOf_continuous (ds : R) :
  ds <> 9 -> ds <> 15 -> ds <> 21 -> continuity_pt ratioOf ds.
Proof.
  intros H9 H15 H21.
  destruct (Rlt_dec ds 9) as [L9 | G9].
  { apply (locally_constant_continuity ratioOf 0.15 ds (9 - ds)); [rlra |].
    intros y Hy. apply Rabs_lt_both in Hy. apply ratioOf_lt_9. rlra. }
  destruct (Rlt_dec ds 15) as [L15 | G15].
  { apply (locally_constant_continuity ratioOf 2.1 ds (Rmin (ds - 9) (15 - ds))).
    - apply Rmin_pos; rlra.
    - intros y Hy. apply Rabs_lt_both in Hy.
      pose proof (Rmin_l (ds - 9) (15 - ds)). pose proof (Rmin_r (ds - 9) (15 - ds)).
      apply ratioOf_9_15. rlra. }
  destruct (Rlt_dec ds 21) as [L21 | G21].
  { apply (locally_constant_continuity ratioOf 1 ds (Rmin (ds - 15) (21 - ds))).
    - apply Rmin_pos; rlra.
    - intros y Hy. apply Rabs_lt_both in Hy.
      pose proof (Rmin_l (ds - 15) (21 - ds)). pose proof (Rmin_r (ds - 15) (21 - ds)).
      apply ratioOf_15_21. rlra. }
  apply (locally_lipschitz_continuity ratioOf ds (ds - 21)); [rlra |].
  intros y Hy. pose proof (Rabs_lt_both _ _ _ Hy) as Hy'.
  rewrite !ratioOf_gt_21 by rlra.
  pose proof (excessOf_lip ds y) as Hl.
  replace (4 + 4 * excessOf y / 79 - (4 + 4 * excessOf ds / 79))
    with ((4 / 79) * (excessOf y - excessOf ds)) by rlra.
  rewrite Rabs_mult. rewrite (Rabs_right (4 / 79)) by rlra.
  pose proof (Rabs_pos (y - ds)). rlra.
Qed.

(** The jump of the attack multiplier at 9: 4 just below, 2 at 9. *)
Lemma attackOf_jump_9 : ~ continuity_pt attackOf 9.
Proof.
  apply (jump_not_continuous attackOf 9 1); [rlra |].
  intros a Ha. exists (9 - a / 2). repeat split.
  - rlra.
  - apply Rabs_small. rlra.
  - rewrite attackOf_lt_9, attackOf_9_15 by rlra.
    replace (4 - 2) with 2 by rlra. rewrite Rabs_right; rlra.
Qed.

(** The jump at 15: 2 just below, 1 at 15. *)
Lemma attackOf_jump_15 : ~ continuity_pt attackOf 15.
Proof.
  apply (jump_not_continuous attackOf 15 1); [rlra |].
  intros a Ha. exists (15 - Rmin (a / 2) 1).
  pose proof (Rmin_l (a / 2) 1). pose proof (Rmin_r (a / 2) 1).
  assert (0 < Rmin (a / 2) 1) by (apply Rmin_pos; rlra).
  repeat split.
  - rlra.
  - apply Rabs_small. rlra.
  - rewrite attackOf_9_15, attackOf_15_21 by rlra.
    replace (2 - 1) with 1 by rlra. rewrite Rabs_right; rlra.
Qed.

(** The jump at 21: 1 at 21, at most 1/2 just above. *)
Lemma attackOf_jump_21 : ~ continuity_pt attackOf 21.
Proof.
  apply (jump_not_continuous attackOf 21 (1 / 2)); [rlra |].
  intros a Ha. exists (21 + a / 2). repeat split.
  - rlra.
  - apply Rabs_small. rlra.
  - rewrite attackOf_gt_21, attackOf_15_21 by rlra.
    assert (Hs : 2 <= scaleOf (21 + a / 2)) by (apply scaleOf_ge_2; rlra).
    assert (Hi : 1 / scaleOf (21 + a / 2) <= 1 / 2).
    { unfold Rdiv. rewrite !Rmult_1_l. apply Rinv_le_contravar; rlra. }
    rewrite Rabs_left; rlra.
Qed.

(** C4, as stated, fails: the attack multiplier (and with it the release
    multiplier) jumps at each of the branch boundaries 9, 15 and 21. *)
Lemma C4_not_continuous_at_boundaries :
  ~ continuity_pt attackOf 9 /\ ~ continuity_pt attackOf 15 /\
  ~ continuity_pt attackOf 21.
Proof.
  split; [exact attackOf_jump_9 | split; [exact attackOf_jump_15 | exact attackOf_jump_21]].
Qed.

(** C4, amended.  The mapping is a total, deterministic function of the
    score, and its attack, release and ratio multipliers are continuous
    at every score other than the branch boundaries 9, 15 and 21. *)
Theorem C4_piecewise_continuous (ds : R) :
  ds <> 9 -> ds <> 15 -> ds <> 21 ->
  (exists! m, GetCompressionModifiers ds = m) /\
  continuity_pt attackOf ds /\
  continuity_pt releaseOf ds /\
  continuity_pt ratioOf ds.
Proof.
  intros H9 H15 H21. split; [| split; [| split]].
  - exists (GetCompressionModifiers ds). split; [reflexivity | intros m' Hm'; exact Hm'].
  - now apply attackOf_continuous.
  - apply (continuity_pt_locally_ext attackOf releaseOf 1 ds); [rlra | |].
    + intros y _. symmetry. apply releaseOf_attackOf.
    + now apply attackOf_continuous.
  - now apply ratioOf_continuous.
Qed.

(** Scores 0, 12, 21.5 and 100 are points of continuity. *)
Lemma C4_piecewise_continuous_witness :
  continuity_pt attackOf 0 /\ continuity_pt ratioOf 12 /\
  continuity_pt releaseOf 21.5 /\ continuity_pt ratioOf 100.
Proof.
  split; [| split; [| split]].
  - apply (C4_piecewise_continuous 0); rlra.
  - apply (C4_piecewise_continuous 12); rlra.
  - apply (C4_piecewise_continuous 21.5); rlra.
  - apply (C4_piecewise_continuous 100); rlra.
Defined.


(** ** Dynamic normalization *)

Lemma clamp_positive (x : R) :
  0 < x ->
  (if Rlt_dec 1 (if Rlt_dec x 0 then 0 else x) then 1
   else (if Rlt_dec x 0 then 0 else x)) = Rmin 1 (Rmax 0 x).
Proof.
  intros Hx. rewrite Rmax_right by rlra.
  destruct (Rlt_dec x 0); [rlra |].
  destruct (Rlt_dec 1 x).
  - rewrite Rmin_left; rlra.
  - rewrite Rmin_right; rlra.
Qed.

(** C9.  For every dynamics analysis the derived parameters are
    targetRMS = 10^((RMSPeak - 6)/20) and
    threshold = 10^((NoiseFloor + 12)/20), each clamped to [0, 1]. *)
Theorem C9_dynaudnorm_params (a : DynamicsAnalysis) :
  exists p,
    CalculateDynaudnormParams (Some a) = Some p /\
    TargetRMS p = Rmin 1 (Rmax 0 (Rpower 10 ((RMSPeak a - 6) / 20))) /\
    Threshold p = Rmin 1 (Rmax 0 (Rpower 10 ((NoiseFloor a + 12) / 20))) /\
    0 <= TargetRMS p <= 1 /\ 0 <= Threshold p <= 1 /\
    RMSPeakDB p = RMSPeak a /\ NoiseFloorDB p = NoiseFloor a.
Proof.
  eexists. split; [reflexivity |]. cbn [TargetRMS Threshold RMSPeakDB NoiseFloorDB].
  unfold DbToLinear.
  rewrite !clamp_positive by apply Rpower10_pos.
  pose proof (Rpower10_pos ((RMSPeak a - 6) / 20)) as H1.
  pose proof (Rpower10_pos ((NoiseFloor a + 12) / 20)) as H2.
  repeat split; try reflexivity.
  - rewrite Rmax_right by rlra. apply Rmin_glb; rlra.
  - apply Rmin_l.
  - rewrite Rmax_right by rlra. apply Rmin_glb; rlra.
  - apply Rmin_l.
Qed.

(** C10.  For every non-nil analysis both outputs are strictly positive:
    the conversion 10^(x/20) is positive, so the tests that would set an
    output to 0.0 never succeed and both outputs lie in (0, 1]. *)
Theorem C10_dynaudnorm_positive (a : DynamicsAnalysis) :
  ~ DbToLinear (RMSPeak a - 6) < 0 /\
  ~ DbToLinear (NoiseFloor a + 12) < 0 /\
  exists p,
    CalculateDynaudnormParams (Some a) = Some p /\
    0 < TargetRMS p <= 1 /\ 0 < Threshold p <= 1.
Proof.
  pose proof (DbToLinear_pos (RMSPeak a - 6)) as H1.
  pose proof (DbToLinear_pos (NoiseFloor a + 12)) as H2.
  split; [rlra | split; [rlra |]].
  eexists. split; [reflexivity |]. cbn [TargetRMS Threshold].
  destruct (Rlt_dec (DbToLinear (RMSPeak a - 6)) 0); [rlra |].
  destruct (Rlt_dec (DbToLinear (NoiseFloor a + 12)) 0); [rlra |].
  repeat destruct Rlt_dec; repeat split; rlra.
Qed.

End AudioProps.

(* ===================================================================== *)
(** * Properties of the compressor and limiter parameter sets            *)
(* ===================================================================== *)

Module CompressorProps.

Import Audio Compressor AudioProps.
Local Open Scope R_scope.
Local Open Scope string_scope.

(** 10^-3 = 0.001: the -60 dB end of the threshold range. *)
Lemma DbToLinear_minus_60 : DbToLinear (-60) = 0.001.
Proof.
  unfold DbToLinear. replace (-60 / 20) with (- INR 3) by (simpl; rlra).
  rewrite Rpower_Ropp, Rpower_pow by rlra. simpl. rlra.
Qed.

Lemma DbToLinear_20 : DbToLinear 20 = 10.
Proof.
  unfold DbToLinear. replace (20 / 20) with 1 by rlra. apply Rpower_1. rlra.
Qed.

Lemma DbToLinear_range (db : R) :
  -60 <= db <= 0 -> 0.00097563 <= DbToLinear db <= 1.
Proof.
  intros [Hlo Hhi]. split.
  - pose proof (DbToLinear_le _ _ Hlo) as H. rewrite DbToLinear_minus_60 in H. rlra.
  - now apply DbToLinear_le_1.
Qed.

(** Each two-sided clamp lands in its interval. *)
Lemma clamp_between (lo hi x : R) :
  lo <= hi ->
  lo <= (if Rlt_dec hi (if Rlt_dec x lo then lo else x) then hi
         else (if Rlt_dec x lo then lo else x)) <= hi.
Proof. intros H. repeat destruct Rlt_dec; rlra. Qed.

Lemma ClampCompressorParams_in_ranges (t r a rl m : R) :
  let '(t', r', a', rl', m') := ClampCompressorParams t r a rl m in
  inClampRanges t' r' a' rl' m'.
Proof.
  unfold ClampCompressorParams, inClampRanges.
  repeat split; apply clamp_between; rlra.
Qed.

(** The ratio after the knee chain and the upper test. *)
Lemma ratio_clamped (ratio knee : R) :
  let rk := ratioAndKnee ratio knee in
  1 <= fst (if Rlt_dec 20 (fst rk) then (20, 8) else (fst rk, snd rk)) <= 20.
Proof.
  cbv zeta. unfold ratioAndKnee.
  destruct (Rlt_dec ratio 1);
    [| destruct (Rlt_dec ratio 2);
       [| destruct (Rlt_dec ratio 4);
          [| destruct (Rlt_dec ratio 8);
             [| destruct (Rlt_dec ratio 12);
                [| destruct (Rlt_dec 12 ratio)]]]]];
    cbn [fst snd]; destruct (Rlt_dec 20 _); cbn [fst]; rlra.
Qed.

Lemma ratio_raised (ratio knee : R) : 1 <= fst (ratioAndKnee ratio knee).
Proof.
  unfold ratioAndKnee.
  destruct (Rlt_dec ratio 1);
    [| destruct (Rlt_dec ratio 2);
       [| destruct (Rlt_dec ratio 4);
          [| destruct (Rlt_dec ratio 8);
             [| destruct (Rlt_dec ratio 12);
                [| destruct (Rlt_dec 12 ratio)]]]]];
    cbn [fst]; rlra.
Qed.

(** A measured band: every parameter of the filter is clamped. *)
Lemma measured_band_in_ranges (band : FrequencyBandAnalysis)
  (attackMs releaseMs ratio fallbackThresholdDb : R) (mods : CompressionModifiers) :
  bandInRanges
    (buildBandAcompressor (Some band) attackMs releaseMs ratio fallbackThresholdDb mods).
Proof.
  unfold bandInRanges, inClampRanges, buildBandAcompressor, buildBandAcompressor_log.
  cbn [fst ac_threshold ac_ratio ac_attack ac_release ac_makeup volume].
  split; [split; [| split; [| split; [| split]]] |].
  - split.
    + destruct (Rlt_dec 1 _); [rlra |]. destruct (Rlt_dec _ 0.00099); rlra.
    + destruct (Rlt_dec 1 _); rlra.
  - apply ratio_clamped.
  - apply clamp_between. rlra.
  - apply clamp_between. rlra.
  - apply clamp_between. rlra.
  - rlra.
Qed.

(** The fallback filter of a missing band repeats its arguments. *)
Lemma fallback_band_in_ranges (attackMs releaseMs ratio fallbackThresholdDb : R)
  (mods : CompressionModifiers) :
  -60 <= fallbackThresholdDb <= 0 ->
  1 <= ratio <= 20 -> 0.01 <= attackMs <= 2000 -> 0.01 <= releaseMs <= 9000 ->
  bandInRanges
    (buildBandAcompressor None attackMs releaseMs ratio fallbackThresholdDb mods).
Proof.
  intros Hf Hr Ha Hrl.
  unfold bandInRanges, inClampRanges, buildBandAcompressor, buildBandAcompressor_log.
  cbn [fst ac_threshold ac_ratio ac_attack ac_release ac_makeup volume].
  pose proof (DbToLinear_range _ Hf) as Ht. unfold DbToLinear in Ht.
  assert (Hm : 1 <= Rpower 10 (3 / 20) <= 64).
  { split.
    - left. apply (DbToLinear_gt_1 3). rlra.
    - assert (H : DbToLinear 3 <= DbToLinear 20) by (apply DbToLinear_le; rlra).
      rewrite DbToLinear_20 in H. unfold DbToLinear in H. rlra. }
  repeat split; rlra.
Qed.

Lemma any_band_in_ranges (band : option FrequencyBandAnalysis)
  (attackMs releaseMs ratio fallbackThresholdDb : R) (mods : CompressionModifiers) :
  -60 <= fallbackThresholdDb <= 0 ->
  1 <= ratio <= 20 -> 0.01 <= attackMs <= 2000 -> 0.01 <= releaseMs <= 9000 ->
  bandInRanges
    (buildBandAcompressor band attackMs releaseMs ratio fallbackThresholdDb mods).
Proof.
  intros. destruct band.
  - apply measured_band_in_ranges.
  - now apply fallback_band_in_ranges.
Qed.

Lemma multiband_in_ranges (bands : BandMap) (dsScore : option R) (preset : string)
  (c : MultibandChain) :
  preset = "Light" \/ preset = "Moderate" \/ preset = "Broadcast" ->
  buildMultibandCompression bands dsScore preset = Some c ->
  chainInRanges c.
Proof.
  intros Hp Hc. unfold buildMultibandCompression in Hc.
  destruct (Nat.eqb (List.length bands) 0 || String.eqb preset "Off")%bool;
    [discriminate |].
  destruct Hp as [-> | [-> | ->]]; cbn [presetBase String.eqb Ascii.eqb Bool.eqb] in Hc;
    injection Hc as <-; unfold chainInRanges;
    cbn [subFilter bassFilter lowMidFilter midFilter highFilter];
    repeat split; apply any_band_in_ranges; rlra.
Qed.

Lemma single_band_in_ranges (analysis : DynamicsAnalysis) (dsScore : option R)
  (preset : string) (f : SingleBandFilter) :
  calculateAdaptiveCompression (Some analysis) dsScore preset = Some f ->
  singleInRanges f.
Proof.
  unfold calculateAdaptiveCompression.
  destruct (String.eqb preset "Off"); [discriminate |].
  intros H. injection H as <-.
  unfold singleInRanges, inClampRanges.
  cbn [sb_threshold sb_ratio sb_attack sb_release sb_makeup].
  split; [| split; [| split; [| split]]].
  - split.
    + destruct (Rlt_dec _ 0.00099); [rlra |]. destruct (Rlt_dec 1 _); rlra.
    + destruct (Rlt_dec _ 0.00099); [rlra |]. destruct (Rlt_dec 1 _); rlra.
  - split.
    + destruct (Rlt_dec 20 _); [rlra | apply ratio_raised].
    + destruct (Rlt_dec 20 _); rlra.
  - split.
    + destruct (Rlt_dec _ 0.01); [rlra |]. destruct (Rlt_dec 2000 _); rlra.
    + destruct (Rlt_dec _ 0.01); [rlra |]. destruct (Rlt_dec 2000 _); rlra.
  - apply clamp_between. rlra.
  - apply clamp_between. rlra.
Qed.


(** C7.  Every compressor parameter that reaches a filter string lies in
    the documented ranges (threshold in [0.00097563, 1], ratio in
    [1, 20], attack in [0.01, 2000] ms, release in [0.01, 9000] ms, makeup
    in [1, 64]), whatever the statistics and the requested values:
    [ClampCompressorParams] on any five numbers, the per-band filter of
    any measured band, the five filters of the multiband chain of a
    preset (measured or missing bands), and the single-band filter. *)
Theorem C7_compressor_params_clamped :
  (forall t r a rl m,
     let '(t', r', a', rl', m') := ClampCompressorParams t r a rl m in
     inClampRanges t' r' a' rl' m') /\
  (forall band attackMs releaseMs ratio fallbackThresholdDb mods,
     bandInRanges
       (buildBandAcompressor (Some band) attackMs releaseMs ratio
                             fallbackThresholdDb mods)) /\
  (forall bands dsScore preset c,
     preset = "Light" \/ preset = "Moderate" \/ preset = "Broadcast" ->
     buildMultibandCompression bands dsScore preset = Some c ->
     chainInRanges c) /\
  (forall analysis dsScore preset f,
     calculateAdaptiveCompression (Some analysis) dsScore preset = Some f ->
     singleInRanges f).
Proof.
  split; [| split; [| split]].
  - apply ClampCompressorParams_in_ranges.
  - apply measured_band_in_ranges.
  - apply multiband_in_ranges.
  - apply single_band_in_ranges.
Qed.

(** Out-of-range requests (threshold 5, ratio 50, attack 0, release
    99999, makeup 0.5); a Broadcast chain with one measured band, peaks at
    +3 dB, and four missing bands; a Moderate single-band filter. *)
Lemma C7_compressor_params_clamped_witness :
  (let '(t', r', a', rl', m') := ClampCompressorParams 5 50 0 99999 0.5 in
   inClampRanges t' r' a' rl' m') /\
  (exists c,
     buildMultibandCompression [("sub", mkBand "sub" 3 (-20) 4 30)] (Some 120)
                               "Broadcast" = Some c /\
     chainInRanges c) /\
  (exists f,
     calculateAdaptiveCompression
       (Some (mkDynamicsAnalysis (-1) (-12) (-40) 6 30 (-20) (-70))) None
       "Moderate" = Some f /\
     singleInRanges f).
Proof.
  destruct C7_compressor_params_clamped as [H1 [_ [H3 H4]]].
  split; [| split].
  - apply (H1 5 50 0 99999 0.5).
  - eexists. split; [reflexivity |].
    apply (H3 [("sub", mkBand "sub" 3 (-20) 4 30)] (Some 120) "Broadcast");
      [right; right; reflexivity | reflexivity].
  - eexists. split; [reflexivity |].
    apply (H4 (mkDynamicsAnalysis (-1) (-12) (-40) 6 30 (-20) (-70)) None "Moderate").
    reflexivity.
Defined.

(** ** The per-band limiter *)



(** For a pre-compressed band the log line reports a ceiling of 0.0 dB:
    the assignment that makes it so comes after the linear limit has been
    computed. *)
Lemma logged_ceiling_of_precompressed_band (band : FrequencyBandAnalysis)
  (attackMs releaseMs ratio fallbackThresholdDb : R) (mods : CompressionModifiers) :
  RatioMultiplier mods < 0.3 ->
  snd (buildBandAcompressor_log (Some band) attackMs releaseMs ratio
                                fallbackThresholdDb mods) = Some 0.
Proof.
  intros Hm. unfold buildBandAcompressor_log. cbn [snd].
  destruct (Rlt_dec (RatioMultiplier mods) 0.3); [reflexivity | contradiction].
Qed.




End CompressorProps.

(* ===================================================================== *)
(** * Properties of the per-file pipeline                                *)
(* ===================================================================== *)

Module PipelineProps.

Import Audio Compressor Pipeline.
Local Open Scope R_scope.
Local Open Scope string_scope.
Local Open Scope proc_scope.

(** ** Rules for composing specifications *)

Lemma triple_bind {A B} (P : Run -> Prop) (Q : A -> Run -> Prop)
  (S : B -> Run -> Prop) (E : bool -> Run -> Prop) (m : Proc A) (k : A -> Proc B) :
  triple P m Q E -> (forall a, triple (Q a) (k a) S E) -> triple P (bind m k) S E.
Proof.
  intros Hm Hk r HP. unfold bind. specialize (Hm r HP).
  destruct (m r) as [[a | b] r'].
  - apply (Hk a r' Hm).
  - exact Hm.
Qed.

Lemma triple_when (P : Run -> Prop) (E : bool -> Run -> Prop) (c : bool) (m : Proc unit) :
  triple P m (fun _ => P) E -> triple P (when c m) (fun _ => P) E.
Proof.
  intros Hm. unfold when. destruct c; [exact Hm |]. intros r HP. exact HP.
Qed.

Lemma triple_weaken {A} (P P' : Run -> Prop) (Q : A -> Run -> Prop)
  (E : bool -> Run -> Prop) (m : Proc A) :
  (forall r, P' r -> P r) -> triple P m Q E -> triple P' m Q E.
Proof. intros HPP Hm r HP'. apply Hm. apply HPP. exact HP'. Qed.

(** ** Cleanup *)



Lemma Path_eqb_neq (p q : Path) : p <> q -> Path_eqb p q = false.
Proof. intros H. destruct p, q; try reflexivity; congruence. Qed.

Lemma removeFile_keeps (p q : Path) (fs : list Path) :
  p <> q -> In q fs -> In q (removeFile p fs).
Proof.
  intros Hne H. unfold removeFile. apply filter_In. split; [exact H |].
  rewrite Path_eqb_neq by exact Hne. reflexivity.
Qed.



(** Files that are not on the list are left alone. *)
Lemma cleanup_keeps (temps fs : list Path) (q : Path) :
  ~ In q temps -> In q fs -> In q (cleanupTempFiles temps fs).
Proof.
  revert fs. induction temps as [| t temps IH]; intros fs Hn H; cbn in *.
  - exact H.
  - apply IH; [tauto |]. apply removeFile_keeps; [| exact H].
    intros ->. tauto.
Qed.

(** ** The stages keep the run consistent *)

Ltac unfold_proc :=
  unfold when, bind, ret, return_, invoke, appendTemp, setWorkingPath,
         setMeasured, setTags, getWorkingPath, getMeasured in *;
  cbn [workingPath tempFiles measured files trace tags] in *.

Ltac solve_state :=
  match goal with
  | Hr : running _ _ |- _ =>
      destruct Hr as (Hfail & Hfiles & Henc & Hout);
      unfold running, returned, failed, outputWritten in *;
      cbn [workingPath tempFiles measured files trace tags] in *;
      repeat split; intros;
      repeat match goal with
             | H : In _ (_ ++ _) |- _ => apply in_app_or in H
             | H : In _ (_ :: _) |- _ => destruct H
             | H : In _ [] |- _ => destruct H
             | H : _ \/ _ |- _ => destruct H
             | H : ~ (_ \/ _) |- _ => apply Decidable.not_or in H; destruct H
             | H : _ /\ _ |- _ => destruct H
             | |- ~ _ => intros ?
             end;
      subst;
      try discriminate; try congruence;
      try (exfalso; eapply Hfail; eassumption);
      try (exfalso; eapply Henc; eassumption);
      try (exfalso; apply Hout; assumption);
      try match goal with
          | H : In ?p (files _) |- _ =>
              destruct (Hfiles p H); [left; assumption | right]
          end;
      rewrite ?in_app_iff; cbn [In]; try tauto; auto;
      try (right; right; split; [reflexivity |]; tauto)
  end.

Ltac run_stage :=
  intros r Hr; unfold_proc;
  repeat (match goal with
          | |- context [match ?c with _ => _ end] =>
              match c with
              | negb ?c' => destruct c' eqn:?; cbn [negb]
              | _ =>
                  match type of c with
                  | bool => destruct c eqn:?
                  | option _ => destruct c eqn:?
                  | sumbool _ _ => destruct c
                  end
              end
          end; unfold_proc);
  try solve_state.

Lemma stageEq_spec (w : World) (cfg : ProcessConfig) (fs : list Path) :
  triple (running fs) (stageEq w cfg) (fun _ => running fs) (returned w fs).
Proof. unfold stageEq. run_stage. Qed.

Lemma stageScore_spec (w : World) (cfg : ProcessConfig) (fs : list Path) :
  triple (running fs) (stageScore w cfg) (fun _ => running fs) (returned w fs).
Proof. unfold stageScore. run_stage. Qed.

Lemma measureBoth_spec (w : World) (cfg : ProcessConfig) (ln eb : option Measured)
  (fs : list Path) :
  triple (running fs) (measureBoth cfg ln eb) (fun _ => running fs) (returned w fs).
Proof. unfold measureBoth. run_stage. Qed.

Lemma stageDynaudnorm_spec (w : World) (cfg : ProcessConfig) (fs : list Path) :
  triple (running fs) (stageDynaudnorm w cfg) (fun _ => running fs) (returned w fs).
Proof. unfold stageDynaudnorm, measureBoth. run_stage. Qed.

Lemma stageDynamics_spec (w : World) (cfg : ProcessConfig) (fs : list Path) :
  triple (running fs) (stageDynamics w cfg) (fun _ => running fs) (returned w fs).
Proof.
  unfold stageDynamics, attenuationPrePass, compressionFilterBuilt. run_stage.
Qed.

Lemma stageLoudness_spec (w : World) (cfg : ProcessConfig) (fs : list Path) :
  triple (running fs) (stageLoudness w cfg) (fun _ => running fs) (returned w fs).
Proof. apply measureBoth_spec. Qed.

Lemma stageEncode_spec (w : World) (cfg : ProcessConfig) (fs : list Path) :
  triple (running fs) (stageEncode w cfg) (fun b r => returned w fs b r)
         (returned w fs).
Proof. unfold stageEncode. run_stage. Qed.

Lemma processFileBody_spec (w : World) (cfg : ProcessConfig) (fs : list Path) :
  triple (running fs) (processFileBody w cfg) (fun b r => returned w fs b r)
         (returned w fs).
Proof.
  unfold processFileBody.
  eapply triple_bind; [apply stageEq_spec | intros ?; cbv beta].
  eapply triple_bind; [apply stageScore_spec | intros ?; cbv beta].
  eapply triple_bind; [apply stageDynaudnorm_spec | intros ?; cbv beta].
  eapply triple_bind; [apply stageDynamics_spec | intros ?; cbv beta].
  eapply triple_bind; [apply stageLoudness_spec | intros ?; cbv beta].
  apply stageEncode_spec.
Qed.

Lemma initialRun_running (fs : list Path) : running fs (initialRun fs).
Proof.
  unfold running, failed, initialRun. cbn. repeat split; auto.
Qed.

(** The body leaves by a return, in a state described by [returned]. *)
Lemma processFile_returned (w : World) (cfg : ProcessConfig) (fs : list Path) :
  exists r,
    returned w fs (fst (processFile w cfg fs)) r /\
    snd (processFile w cfg fs) =
      mkRun (workingPath r) (tempFiles r) (measured r)
            (cleanupTempFiles (tempFiles r) (files r)) (trace r) (tags r).
Proof.
  pose proof (processFileBody_spec w cfg fs (initialRun fs) (initialRun_running fs)) as H.
  unfold processFile.
  destruct (processFileBody w cfg (initialRun fs)) as [[b | b] r]; cbn [fst snd];
    exists r; split; auto.
Qed.




(** ** ReplayGain tags *)












End PipelineProps.

(* ===================================================================== *)
(** * Properties of the EQ curve engine                                  *)
(* ===================================================================== *)

Module EqProps.

Import EqBands.
Local Open Scope Q_scope.
Local Open Scope string_scope.

(** Decide a closed comparison of rationals by evaluation. *)
Ltac qdecide :=
  match goal with
  | |- ~ _ => let H := fresh in intros H; vm_compute in H; first [discriminate H | apply H; reflexivity]
  | |- _ == _ => vm_compute; reflexivity
  | |- _ < _ => vm_compute; reflexivity
  | |- _ <= _ => let H := fresh in vm_compute; intros H; discriminate H
  end.

(** ** Scenario C: Flat preset, ten bands at -20 dB *)

(** C5, as stated, fails: with the Flat preset and all ten bands at
    -20 dB, go/freq_anal.go does not return an empty chain, and neither
    does the earliest nor the newest copy of the file. *)
Lemma C5_flat_scenario_counterexample :
  FreqAnal.buildEqFilter scenarioC "Flat" <> [] /\
  FreqAnalEarly.buildEqFilter scenarioC "Flat" <> [] /\
  EqClamp.buildEqFilter scenarioC "Flat" <> [].
Proof. repeat split; vm_compute; discriminate. Qed.

(** C5, amended.  With the Flat preset and ten bands all at -20 dB the
    overall RMS is -20 dB.  In go/freq_anal.go no band sits exactly on
    the pink-noise reference: the five bands from 50 Hz to 800 Hz sit
    below it and get no correction, the five bands from 1.6 kHz up sit
    above it and are cut by half their excess (1.02, 2.52, 4.02, 5.52 and
    6.75 dB); the correction set has these five entries and
    [buildEqFilter] returns the five filters that carry them.  In the
    newest copy, whose Flat reference is the overall RMS itself, every
    band sits exactly on the reference, every gain is zero, and
    [buildEqFilter] returns the preset high-pass filter alone. *)
Theorem C5_flat_scenario :
  overallRMS scenarioC == -20 /\
  (Forall (fun band =>
             RMSLevel band < FreqAnal.pinkNoiseRef (overallRMS scenarioC) band)
          (firstn 5 scenarioC) /\
   Forall (fun band =>
             FreqAnal.pinkNoiseRef (overallRMS scenarioC) band < RMSLevel band)
          (skipn 5 scenarioC) /\
   map (fun bg => (Frequency (fst bg), Qred (snd bg)))
       (FreqAnal.corrections scenarioC "Flat")
   = [("1.6kHz", Qred (-1.02)); ("3.2kHz", Qred (-2.52)); ("6.4kHz", Qred (-4.02));
      ("12.8kHz", Qred (-5.52)); ("12.8kHz+", Qred (-6.75))] /\
   map canonical (FreqAnal.buildEqFilter scenarioC "Flat")
   = map canonical
       [Anequalizer 1600 1600 (-1.02); Anequalizer 3200 3200 (-2.52);
        Anequalizer 6400 6400 (-4.02); Anequalizer 12800 12800 (-5.52);
        ShelfHigh false (-6.75)]) /\
  (Forall (fun band => RMSLevel band == overallRMS scenarioC) scenarioC /\
   map Qred (EqClamp.eqGains scenarioC "Flat") = [0; 0; 0; 0; 0; 0; 0; 0; 0; 0] /\
   EqClamp.buildEqFilter scenarioC "Flat" = [Fixed "highpass=f=25:p=2"]).
Proof.
  split; [qdecide |]. split.
  - split; [repeat constructor; qdecide |].
    split; [repeat constructor; qdecide |].
    split; vm_compute; reflexivity.
  - split; [repeat constructor; qdecide |].
    split; vm_compute; reflexivity.
Qed.

(** The same scenario on the earliest copy, whose reference falls
    towards the bass: the four lowest bands are cut. *)
Lemma scenarioC_on_the_earliest_copy :
  map canonical (FreqAnalEarly.buildEqFilter scenarioC "Flat")
  = map canonical
      [ShelfLow false (-6.48); Anequalizer 100 100 (-4.98);
       Anequalizer 200 200 (-3.48); Anequalizer 400 400 (-1.98)].
Proof. vm_compute. reflexivity. Qed.

(** ** The extreme-band clamp *)

Import EqClamp.

Lemma limitGain_bounds (targetLevel : Q) (band : FrequencyBand) :
  -10 <= limitGain targetLevel band <= 10.
Proof.
  unfold limitGain. cbv zeta.
  destruct (Qlt_le_dec 10 (targetLevel - RMSLevel band)); [split; qdecide |].
  destruct (Qlt_le_dec (targetLevel - RMSLevel band) (Qopp 10)); [split; qdecide |].
  split; assumption.
Qed.

Lemma calculateTargetCurve_length (bands : list FrequencyBand) (eqTarget : string) :
  List.length (calculateTargetCurve bands eqTarget) = List.length bands.
Proof.
  unfold calculateTargetCurve.
  repeat (destruct (String.eqb eqTarget _)); apply length_map.
Qed.

Lemma limitedGains_length (bands : list FrequencyBand) (eqTarget : string) :
  List.length (limitedGains bands eqTarget) = List.length bands.
Proof.
  unfold limitedGains. rewrite length_map, length_combine, calculateTargetCurve_length.
  apply Nat.min_id.
Qed.

Lemma limitedGains_bounds (bands : list FrequencyBand) (eqTarget : string) :
  Forall (fun g => -10 <= g <= 10) (limitedGains bands eqTarget).
Proof.
  unfold limitedGains. apply Forall_map. apply Forall_forall.
  intros [band target] _. apply limitGain_bounds.
Qed.

(** A shelf's range respects each of the three rules. *)
Lemma shelfRange_bounds (other neighbor avg : Q) :
  other - 4 <= fst (shelfRange other neighbor avg) /\
  neighbor - 4 <= fst (shelfRange other neighbor avg) /\
  snd (shelfRange other neighbor avg) <= other + 4 /\
  snd (shelfRange other neighbor avg) <= neighbor + 4 /\
  (0 <= avg -> snd (shelfRange other neighbor avg) <= avg) /\
  (avg < 0 -> avg <= fst (shelfRange other neighbor avg)).
Proof.
  unfold shelfRange, avgLimits.
  destruct (Qlt_le_dec avg 0) as [Hneg | Hpos]; cbn [fst snd].
  - repeat split.
    + eapply Qle_trans; [apply Q.le_max_l | apply Q.le_max_l].
    + eapply Qle_trans; [apply Q.le_max_r | apply Q.le_max_l].
    + eapply Qle_trans; [apply Q.le_min_l | apply Q.le_min_l].
    + eapply Qle_trans; [apply Q.le_min_l | apply Q.le_min_r].
    + intros H. exfalso. qlra.
    + intros _. apply Q.le_max_r.
  - repeat split.
    + eapply Qle_trans; [apply Q.le_max_l | apply Q.le_max_l].
    + eapply Qle_trans; [apply Q.le_max_r | apply Q.le_max_l].
    + eapply Qle_trans; [apply Q.le_min_l | apply Q.le_min_l].
    + eapply Qle_trans; [apply Q.le_min_l | apply Q.le_min_r].
    + intros _. apply Q.le_min_r.
    + intros H. exfalso. qlra.
Qed.

(** Clamping into a non-empty range lands inside it. *)
Lemma clampShelf_in_range (shelf : Q) (range : Q * Q) :
  nonEmpty range -> fst range <= clampShelf shelf range <= snd range.
Proof.
  unfold nonEmpty, clampShelf. destruct range as [lo hi]. cbn [fst snd]. intros H.
  destruct (Qlt_le_dec hi shelf); [split; [assumption | apply Qle_refl] |].
  destruct (Qlt_le_dec shelf lo); [split; [apply Qle_refl | assumption] |].
  split; assumption.
Qed.

(** The rules hold for two shelves that lie in their ranges. *)
Lemma rules_from_ranges (low high first last avg other : Q) :
  fst (shelfRange other first avg) <= low <= snd (shelfRange other first avg) ->
  fst (shelfRange low last avg) <= high <= snd (shelfRange low last avg) ->
  within4 low high /\ within4 low first /\ within4 high last /\
  boundedByAverage avg low /\ boundedByAverage avg high.
Proof.
  intros [Hl1 Hl2] [Hh1 Hh2].
  destruct (shelfRange_bounds other first avg) as (A1 & A2 & A3 & A4 & A5 & A6).
  destruct (shelfRange_bounds low last avg) as (B1 & B2 & B3 & B4 & B5 & B6).
  unfold within4, boundedByAverage.
  repeat split; intros; try specialize (A5 ltac:(assumption));
    try specialize (A6 ltac:(assumption)); try specialize (B5 ltac:(assumption));
    try specialize (B6 ltac:(assumption)); qlra.
Qed.


(** The rules hold for the two clamped shelves of any gain vector whose
    ranges are not empty. *)
Lemma rules_of_clamped (raw : list Q) :
  nonEmpty (lowRange raw) -> nonEmpty (highRange raw) ->
  within4 (clampedLow raw) (clampedHigh raw) /\
  within4 (clampedLow raw) (at_ raw 1) /\
  within4 (clampedHigh raw) (at_ raw (List.length raw - 2)) /\
  boundedByAverage (avgNonExtremes raw) (clampedLow raw) /\
  boundedByAverage (avgNonExtremes raw) (clampedHigh raw).
Proof.
  intros Hl Hh.
  pose proof (clampShelf_in_range (at_ raw 0) (lowRange raw) Hl) as HL.
  pose proof (clampShelf_in_range (at_ raw (List.length raw - 1)) (highRange raw) Hh) as HH.
  fold (clampedLow raw) in HL. fold (clampedHigh raw) in HH.
  unfold lowRange in HL. unfold highRange in HH.
  exact (rules_from_ranges _ _ _ _ _ _ HL HH).
Qed.

(** On ten gains the clamp rewrites the two ends and nothing else. *)
Lemma clampExtremeEQ_ten (g0 g1 g2 g3 g4 g5 g6 g7 g8 g9 : Q) :
  clampExtremeEQ [g0; g1; g2; g3; g4; g5; g6; g7; g8; g9]
  = [clampedLow [g0; g1; g2; g3; g4; g5; g6; g7; g8; g9];
     g1; g2; g3; g4; g5; g6; g7; g8;
     clampedHigh [g0; g1; g2; g3; g4; g5; g6; g7; g8; g9]].
Proof. reflexivity. Qed.

Lemma ten_bands (measure : string -> Q * Q * Q) :
  List.length (analyzeFrequencyResponseBands measure) = 10%nat.
Proof. reflexivity. Qed.

(** go/freq_anal.go has no extreme-band clamp at all: on the input
    [brightTop] its chain cuts the high shelf by the full 10 dB next to a
    3.52 dB cut at 12.8 kHz, and leaves the low shelf alone. *)
Lemma freq_anal_applies_no_clamp :
  map (fun bg => (Frequency (fst bg), Qred (snd bg)))
      (FreqAnal.corrections brightTop "Flat")
  = [("3.2kHz", Qred (-1.02)); ("6.4kHz", Qred (-2.52));
     ("12.8kHz", Qred (-3.52)); ("12.8kHz+", -10)].
Proof. vm_compute. reflexivity. Qed.

(** C1.  [clampExtremeEQ] does not keep the three rules that its own
    comment lists.  Flat preset, overall RMS -30 dB, the 100 Hz band 2 dB
    above it and the top band 20 dB above it: the gains that reach the
    clamp are 0, -1, 0, ..., 0, -10.  The clamp resolves the low shelf
    against the high shelf as it still stands (-10): the range is empty
    (from -0.125 up to -6), the upper limit is tested first, and the low
    shelf, which was at 0, is set to -6; the high shelf is then raised to
    -0.125, which [buildEqFilter] skips as smaller than 0.5 dB.  The
    chain that is emitted cuts the low shelf by 6 dB next to a 1 dB cut at
    100 Hz and no high shelf: the two extremes differ by more than 4 dB,
    the low shelf differs from its neighbour by more than 4 dB, and it
    lies below the (negative) average of the inner bands.  The rules can
    be met on this input: the low shelf left at 0 with the high shelf at
    -0.125 meets all of them.  On go/freq_anal.go, which has no clamp,
    the emitted high shelf (-10) is more than 4 dB from its neighbour
    (-3.52) and from the low shelf (none). *)
Theorem C1_clamp_breaks_its_rules :
  let raw := limitedGains brightTop "Flat" in
  let chain := buildEqFilter brightTop "Flat" in
  let older := FreqAnal.buildEqFilter brightTop "Flat" in
  (map Qred raw = [0; -1; 0; 0; 0; 0; 0; 0; 0; -10] /\
   map Qred (clampExtremeEQ raw) = [-6; -1; 0; 0; 0; 0; 0; 0; 0; Qred (-0.125)] /\
   map canonical chain
   = [Fixed "highpass=f=25:p=2"; ShelfLow true (-6); Anequalizer 100 100 (-1)]) /\
  (~ within4 (shelfLowGain chain) (shelfHighGain chain) /\
   ~ within4 (shelfLowGain chain) (bandGain 100 chain) /\
   ~ boundedByAverage (avgNonExtremes raw) (shelfLowGain chain) /\
   ~ extremeRules (avgNonExtremes raw) (clampExtremeEQ raw)) /\
  extremeRules (avgNonExtremes raw) (setAt raw 9 (-0.125)) /\
  (map canonical older
   = map canonical
       [Anequalizer 3200 3200 (-1.02); Anequalizer 6400 6400 (-2.52);
        Anequalizer 12800 12800 (-3.52); ShelfHigh false (-10)] /\
   ~ within4 (shelfHighGain older) (bandGain 12800 older) /\
   ~ within4 (shelfLowGain older) (shelfHighGain older)).
Proof.
  cbv zeta.
  assert (Hneg : avgNonExtremes (limitedGains brightTop "Flat") < 0) by qdecide.
  assert (Hnb : ~ within4 (at_ (clampExtremeEQ (limitedGains brightTop "Flat")) 0)
                          (at_ (clampExtremeEQ (limitedGains brightTop "Flat")) 1)).
  { intros [_ H]. vm_compute in H. apply H. reflexivity. }
  split; [| split; [| split]].
  - split; [vm_compute; reflexivity |].
    split; vm_compute; reflexivity.
  - split; [intros [_ H]; vm_compute in H; apply H; reflexivity |].
    split; [intros [_ H]; vm_compute in H; apply H; reflexivity |].
    split.
    + intros [_ H]. specialize (H Hneg). vm_compute in H. apply H. reflexivity.
    + intros (_ & H & _). exact (Hnb H).
  - unfold extremeRules, within4, boundedByAverage. cbv zeta.
    repeat split; try qdecide;
      intros H; first [qdecide | exfalso; vm_compute in H; apply H; reflexivity].
  - split; [vm_compute; reflexivity |].
    split; intros [H1 H2]; vm_compute in H1, H2;
      first [apply H1; reflexivity | apply H2; reflexivity].
Qed.

(** ** Where the clamp works *)

(** A programme with a strong band below 50 Hz, Flat preset: both
    ranges are non-empty, the low shelf's 10 dB cut is brought back to
    4 dB, within 4 dB of the high shelf and of its neighbour, both at
    0. *)
Lemma clamp_on_boomyLow :
  map Qred (eqGains boomyLow "Flat") = [-4; 0; 0; 0; 0; 0; 0; 0; 0; 0] /\
  extremeRules (avgNonExtremes (limitedGains boomyLow "Flat")) (eqGains boomyLow "Flat").
Proof.
  split; [vm_compute; reflexivity |].
  assert (Hl : nonEmpty (lowRange (limitedGains boomyLow "Flat")))
    by (unfold nonEmpty; qdecide).
  assert (Hh : nonEmpty (highRange (limitedGains boomyLow "Flat")))
    by (unfold nonEmpty; qdecide).
  pose proof (rules_of_clamped _ Hl Hh) as H.
  pose proof (limitedGains_length boomyLow "Flat") as Hlen.
  change (List.length boomyLow) with 10%nat in Hlen.
  unfold extremeRules, eqGains.
  destruct (limitedGains boomyLow "Flat")
    as [| g0 [| g1 [| g2 [| g3 [| g4 [| g5 [| g6 [| g7 [| g8 [| g9 [| ? ?]]]]]]]]]]];
    try discriminate Hlen.
  rewrite clampExtremeEQ_ten.
  cbn [List.length Nat.sub at_ nth] in H |- *. exact H.
Qed.

End EqProps.

(* ===================================================================== *)
(** * Properties of the level conversion, makeup gain and phase check    *)
(* ===================================================================== *)

Module AudioMoreProps.

Import Audio Compressor AudioMore AudioProps.
Local Open Scope R_scope.





(** ** The clamp *)

Lemma clamp_fixed (lo hi x : R) :
  lo <= x <= hi ->
  (if Rlt_dec hi (if Rlt_dec x lo then lo else x) then hi
   else (if Rlt_dec x lo then lo else x)) = x.
Proof. intros H. repeat destruct Rlt_dec; rlra. Qed.

(** X2.  [ClampCompressorParams] is idempotent, and it returns five
    values that already lie in the documented ranges unchanged. *)
Theorem ClampCompressorParams_idempotent (t r a rl m : R) :
  clampAgain (ClampCompressorParams t r a rl m) = ClampCompressorParams t r a rl m /\
  (inClampRanges t r a rl m -> ClampCompressorParams t r a rl m = (t, r, a, rl, m)).
Proof.
  split.
  - unfold clampAgain, ClampCompressorParams. cbv zeta.
    repeat apply f_equal2; apply clamp_fixed; apply CompressorProps.clamp_between; rlra.
  - unfold inClampRanges. intros (Ht & Hr & Ha & Hrl & Hm).
    unfold ClampCompressorParams. cbv zeta.
    repeat apply f_equal2; apply clamp_fixed; assumption.
Qed.

Lemma ClampCompressorParams_idempotent_witness :
  ClampCompressorParams 0.5 4 10 100 2 = (0.5, 4, 10, 100, 2).
Proof.
  apply (ClampCompressorParams_idempotent 0.5 4 10 100 2).
  unfold inClampRanges. repeat split; rlra.
Defined.

(** ** Base ratio and knee *)

(** X3.  the base ratio never falls when the crest factor rises, and it
    stays between 1.4 and 8. *)
Theorem GetBaseRatioFromCrest_monotone (c1 c2 : R) :
  c1 <= c2 ->
  GetBaseRatioFromCrest c1 <= GetBaseRatioFromCrest c2 /\
  1.4 <= GetBaseRatioFromCrest c1 <= 8.
Proof.
  intros H. unfold GetBaseRatioFromCrest.
  repeat match goal with
         | |- context [Rle_dec ?a ?b] => destruct (Rle_dec a b)
         end; rlra.
Qed.

Lemma GetBaseRatioFromCrest_monotone_witness :
  GetBaseRatioFromCrest 6 <= GetBaseRatioFromCrest 12 /\
  1.4 <= GetBaseRatioFromCrest 6 <= 8.
Proof. apply GetBaseRatioFromCrest_monotone. rlra. Defined.

(** X4.  the knee that the two compressor builders of v1.3.0 choose
    inline is the knee of [GetKneeFromRatio] for every ratio except 12:
    there the inline chain leaves the knee at its initial 4.0, and
    [GetKneeFromRatio] answers 7.5.  The ratio itself is only raised to
    1. *)
Theorem inline_knee_vs_GetKneeFromRatio :
  (forall ratio : R, ratio <> 12 ->
     snd (ratioAndKnee ratio 4) = GetKneeFromRatio ratio) /\
  snd (ratioAndKnee 12 4) = 4 /\ GetKneeFromRatio 12 = 7.5 /\
  (forall ratio knee : R, fst (ratioAndKnee ratio knee) = Rmax 1 ratio).
Proof.
  split; [| split; [| split]].
  - intros ratio Hne. unfold ratioAndKnee, GetKneeFromRatio.
    repeat match goal with
           | |- context [Rlt_dec ?a ?b] => destruct (Rlt_dec a b)
           | |- context [Rle_dec ?a ?b] => destruct (Rle_dec a b)
           end; cbn [snd]; try reflexivity; exfalso; rlra.
  - unfold ratioAndKnee.
    repeat match goal with
           | |- context [Rlt_dec ?a ?b] => destruct (Rlt_dec a b)
           end; cbn [snd]; try reflexivity; exfalso; rlra.
  - unfold GetKneeFromRatio.
    repeat match goal with
           | |- context [Rlt_dec ?a ?b] => destruct (Rlt_dec a b)
           | |- context [Rle_dec ?a ?b] => destruct (Rle_dec a b)
           end; try reflexivity; exfalso; rlra.
  - intros ratio knee. unfold ratioAndKnee, Rmax.
    repeat match goal with
           | |- context [Rlt_dec ?a ?b] => destruct (Rlt_dec a b)
           | |- context [Rle_dec ?a ?b] => destruct (Rle_dec a b)
           end; cbn [fst]; rlra.
Qed.

Lemma inline_knee_vs_GetKneeFromRatio_witness :
  snd (ratioAndKnee 6 4) = GetKneeFromRatio 6.
Proof. apply (proj1 inline_knee_vs_GetKneeFromRatio). rlra. Defined.

(** ** The modifiers *)

Lemma excess_order (a b : R) : a <= b -> excessOf a <= excessOf b.
Proof. intros H. unfold excessOf, Rmin. repeat destruct Rle_dec; rlra. Qed.

Lemma inv_order (s t : R) : 0 < s -> s <= t -> 1 / t <= 1 / s.
Proof.
  intros Hs Hst. unfold Rdiv. rewrite !Rmult_1_l.
  apply Rinv_le_contravar; assumption.
Qed.

Lemma attackOf_range (ds : R) : 1 / 4 <= attackOf ds <= 4.
Proof.
  destruct (Rlt_dec ds 9) as [H9 | H9].
  { rewrite attackOf_lt_9 by exact H9. rlra. }
  destruct (Rlt_dec ds 15) as [H15 | H15].
  { rewrite attackOf_9_15 by rlra. rlra. }
  destruct (Rle_dec ds 21) as [H21 | H21].
  { rewrite attackOf_15_21 by rlra. rlra. }
  rewrite attackOf_gt_21 by rlra.
  assert (He : 0 < excessOf ds <= 79) by (apply excessOf_bounds; rlra).
  assert (Hs : 2 <= scaleOf ds <= 4) by (unfold scaleOf; rlra).
  split.
  - apply inv_order; rlra.
  - assert (1 / scaleOf ds <= 1 / 2) by (apply inv_order; rlra). rlra.
Qed.

(** X5.  for every score the attack and the release multiplier are the
    same number, between 1/4 and 4, and the ratio multiplier lies
    between 0.15 and 8; and a higher score never gives a larger attack
    multiplier. *)
Theorem GetCompressionModifiers_bounds :
  (forall ds : R,
     ReleaseMultiplier (GetCompressionModifiers ds)
       = AttackMultiplier (GetCompressionModifiers ds) /\
     1 / 4 <= AttackMultiplier (GetCompressionModifiers ds) <= 4 /\
     0.15 <= RatioMultiplier (GetCompressionModifiers ds) <= 8) /\
  (forall a b : R, a <= b ->
     AttackMultiplier (GetCompressionModifiers b)
       <= AttackMultiplier (GetCompressionModifiers a)).
Proof.
  split.
  - intros ds. split; [apply (releaseOf_attackOf ds) |].
    split; [apply attackOf_range |].
    change (0.15 <= ratioOf ds <= 8).
    destruct (Rlt_dec ds 9) as [H9 | H9].
    { rewrite ratioOf_lt_9 by exact H9. rlra. }
    destruct (Rlt_dec ds 15) as [H15 | H15].
    { rewrite ratioOf_9_15 by rlra. rlra. }
    destruct (Rle_dec ds 21) as [H21 | H21].
    { rewrite ratioOf_15_21 by rlra. rlra. }
    rewrite ratioOf_gt_21 by rlra.
    assert (He : 0 < excessOf ds <= 79) by (apply excessOf_bounds; rlra). rlra.
  - intros a b Hab. change (attackOf b <= attackOf a).
    destruct (Rle_dec b 21) as [Hb | Hb].
    + (* both in the stepped part *)
      destruct (Rlt_dec a 9); [rewrite (attackOf_lt_9 a) by assumption |
        destruct (Rlt_dec a 15); [rewrite (attackOf_9_15 a) by rlra |
          rewrite (attackOf_15_21 a) by rlra]];
      (destruct (Rlt_dec b 9); [rewrite (attackOf_lt_9 b) by assumption |
        destruct (Rlt_dec b 15); [rewrite (attackOf_9_15 b) by rlra |
          rewrite (attackOf_15_21 b) by rlra]]); rlra.
    + assert (Hb' : 21 < b) by rlra.
      rewrite (attackOf_gt_21 b) by exact Hb'.
      assert (Heb : 0 < excessOf b <= 79) by (apply excessOf_bounds; rlra).
      assert (Hsb : 2 <= scaleOf b) by (unfold scaleOf; rlra).
      assert (Hhalf : 1 / scaleOf b <= 1 / 2) by (apply inv_order; rlra).
      destruct (Rle_dec a 21) as [Ha | Ha].
      * pose proof (attackOf_range a) as Hr.
        destruct (Rlt_dec a 9); [rewrite (attackOf_lt_9 a) by assumption; rlra |].
        destruct (Rlt_dec a 15); [rewrite (attackOf_9_15 a) by rlra; rlra |].
        rewrite (attackOf_15_21 a) by rlra. rlra.
      * rewrite (attackOf_gt_21 a) by rlra.
        assert (Hea : 0 < excessOf a <= 79) by (apply excessOf_bounds; rlra).
        pose proof (excess_order a b Hab) as Ho.
        apply inv_order; unfold scaleOf; rlra.
Qed.

Lemma GetCompressionModifiers_bounds_witness :
  AttackMultiplier (GetCompressionModifiers 30)
    <= AttackMultiplier (GetCompressionModifiers 12).
Proof. apply (proj2 GetCompressionModifiers_bounds). rlra. Defined.


(** ** Makeup gain *)

(** X6.  [CalculateMakeupGain] of package audio never attenuates.  It is
    unity for a nil analysis, for a ratio of at most 1 and for a level at
    or below the threshold; otherwise it is the linear value of 80 % of
    the expected reduction [excess * (1 - 1/ratio)], which stays below
    80 % of the excess itself. *)
Theorem CalculateMakeupGain_bounds (analysis : option DynamicsAnalysis)
  (thresholdDb ratio : R) :
  1 <= CalculateMakeupGain analysis thresholdDb ratio /\
  (analysis = None \/ ratio <= 1 ->
     CalculateMakeupGain analysis thresholdDb ratio = 1) /\
  (forall a, analysis = Some a ->
     (RMSLevel a <= thresholdDb ->
        CalculateMakeupGain analysis thresholdDb ratio = 1) /\
     (1 < ratio -> thresholdDb < RMSLevel a ->
        CalculateMakeupGain analysis thresholdDb ratio
          = DbToLinear (0.8 * ((RMSLevel a - thresholdDb) * (1 - 1 / ratio))) /\
        CalculateMakeupGain analysis thresholdDb ratio
          < DbToLinear (0.8 * (RMSLevel a - thresholdDb)))).
Proof.
  assert (Hgain : forall a, 1 < ratio -> thresholdDb < RMSLevel a ->
            CalculateMakeupGain (Some a) thresholdDb ratio
              = DbToLinear (0.8 * ((RMSLevel a - thresholdDb) * (1 - 1 / ratio)))).
  { intros a Hr Hl. unfold CalculateMakeupGain.
    destruct (Rle_dec ratio 1); [rlra |].
    destruct (Rlt_dec thresholdDb (RMSLevel a)); [| rlra].
    unfold DbToLinear. f_equal. field. rlra. }
  assert (Hinv : 1 < ratio -> 0 < 1 / ratio < 1).
  { intros Hr. split.
    - apply Rdiv_lt_0_compat; rlra.
    - apply (Rmult_lt_reg_r ratio); [rlra |]. field_simplify; rlra. }
  split; [| split].
  - destruct analysis as [a |]; [| unfold CalculateMakeupGain; rlra].
    destruct (Rle_dec ratio 1) as [Hr | Hr].
    { unfold CalculateMakeupGain. destruct (Rle_dec ratio 1); rlra. }
    destruct (Rlt_dec thresholdDb (RMSLevel a)) as [Hl | Hl].
    + rewrite Hgain by rlra. left. apply DbToLinear_gt_1.
      assert (0 < 1 / ratio < 1) by (apply Hinv; rlra). rnra.
    + unfold CalculateMakeupGain. destruct (Rle_dec ratio 1); [rlra |].
      destruct (Rlt_dec thresholdDb (RMSLevel a)); rlra.
  - intros [-> | Hr]; [reflexivity |].
    unfold CalculateMakeupGain. destruct analysis; [| reflexivity].
    destruct (Rle_dec ratio 1); [reflexivity | rlra].
  - intros a ->. split.
    + intros Hl. unfold CalculateMakeupGain. destruct (Rle_dec ratio 1); [reflexivity |].
      destruct (Rlt_dec thresholdDb (RMSLevel a)); [rlra | reflexivity].
    + intros Hr Hl. split; [now apply Hgain |].
      rewrite Hgain by assumption. apply DbToLinear_lt.
      assert (0 < 1 / ratio < 1) by (apply Hinv; rlra). rnra.
Qed.

Lemma CalculateMakeupGain_bounds_witness :
  CalculateMakeupGain (Some (mkDynamicsAnalysis (-3) (-10) (-30) 6 20 (-18) (-60))) (-24) 4
    = DbToLinear (0.8 * ((-18 - -24) * (1 - 1 / 4))).
Proof.
  destruct (CalculateMakeupGain_bounds
              (Some (mkDynamicsAnalysis (-3) (-10) (-30) 6 20 (-18) (-60))) (-24) 4)
    as (_ & _ & H).
  destruct (H _ eq_refl) as (_ & Hgain).
  apply Hgain; cbn; rlra.
Defined.

(** X7.  [calculateMakeupGain] of the single-band path (v1.3.0) always
    lies in [1, 64]; it is unity when the threshold is at or above the
    RMS peak, and whenever the ratio is at most 1. *)
Theorem calculateMakeupGain_bounds (analysis : DynamicsAnalysis) (threshold ratio : R) :
  1 <= calculateMakeupGain analysis threshold ratio <= 64 /\
  (RMSPeak analysis <= threshold -> calculateMakeupGain analysis threshold ratio = 1) /\
  (0 < ratio <= 1 -> calculateMakeupGain analysis threshold ratio = 1).
Proof.
  split; [| split].
  - unfold calculateMakeupGain.
    destruct (Rle_dec (RMSPeak analysis) threshold); [rlra |].
    cbv zeta. repeat destruct Rlt_dec; rlra.
  - intros H. unfold calculateMakeupGain.
    destruct (Rle_dec (RMSPeak analysis) threshold); [reflexivity | rlra].
  - intros [Hr0 Hr1]. unfold calculateMakeupGain.
    destruct (Rle_dec (RMSPeak analysis) threshold) as [| Hp]; [reflexivity |].
    cbv zeta.
    match goal with
    | |- context [Rpower 10 (?e / 20)] => set (makeupGainDB := e)
    end.
    assert (Hdb : makeupGainDB <= 0).
    { subst makeupGainDB.
      assert (Hex : 0 < (RMSPeak analysis - threshold) / 2) by rlra.
      assert (Hq : (ratio - 1) / ratio <= 0).
      { assert (Hi : 0 < / ratio) by (apply Rinv_0_lt_compat; exact Hr0).
        unfold Rdiv. rnra. }
      destruct (Rle_dec threshold (RMSLevel analysis)) as [Hl | Hl].
      - rnra.
      - assert (Hpos : 0 < (RMSPeak analysis - threshold)
                           / (RMSPeak analysis - RMSLevel analysis)).
        { apply Rdiv_lt_0_compat; rlra. }
        assert (Hm : ((RMSPeak analysis - threshold) / 2 * ((ratio - 1) / ratio)) <= 0)
          by rnra.
        rnra. }
    assert (Hle : Rpower 10 (makeupGainDB / 20) <= 1).
    { apply (DbToLinear_le_1 makeupGainDB). exact Hdb. }
    repeat destruct Rlt_dec; rlra.
Qed.

Lemma calculateMakeupGain_bounds_witness :
  calculateMakeupGain (mkDynamicsAnalysis (-3) (-10) (-30) 6 20 (-18) (-60)) (-12) 0.9 = 1.
Proof.
  destruct (calculateMakeupGain_bounds
              (mkDynamicsAnalysis (-3) (-10) (-30) 6 20 (-18) (-60)) (-12) 0.9)
    as (_ & _ & H).
  apply H. rlra.
Defined.


(** ** How the score steers the band compressor *)

Lemma clip_as_min_max (lo x : R) :
  lo <= 1 ->
  (if Rlt_dec 1 (if Rlt_dec x lo then lo else x) then 1
   else (if Rlt_dec x lo then lo else x)) = Rmin 1 (Rmax lo x).
Proof.
  intros H. unfold Rmin, Rmax.
  destruct (Rlt_dec x lo); destruct (Rle_dec lo x);
    repeat match goal with
           | |- context [Rlt_dec ?a ?b] => destruct (Rlt_dec a b)
           | |- context [Rle_dec ?a ?b] => destruct (Rle_dec a b)
           end; rlra.
Qed.

Lemma Rpower10_0 : Rpower 10 (0 / 20) = 1.
Proof. exact DbToLinear_0. Qed.

(** X8.  fed with the modifiers of a dynamics score, the band compressor
    of v1.3.0 takes its pre-compressed branch exactly for scores below 9
    (threshold 1 dB under the band peak, no makeup gain, limiter timing
    80 ms / 2000 ms), sets the threshold 6 dB over the band RMS for
    scores from 9 to 21, and 3 dB over it for scores above 21; the
    threshold is always held between 0.00099 and 1. *)
Theorem band_threshold_follows_score (band : FrequencyBandAnalysis)
  (attackMs releaseMs ratio fallbackThresholdDb ds : R) :
  let f := Compressor.buildBandAcompressor (Some band) attackMs releaseMs ratio
             fallbackThresholdDb (GetCompressionModifiers ds) in
  (ds < 9 ->
     ac_threshold f = Rmin 1 (Rmax 0.00099 (DbToLinear (bPeakLevel band - 1))) /\
     volume f = 1 /\ al_attack f = 80 /\ al_release f = 2000) /\
  (9 <= ds <= 21 ->
     ac_threshold f = Rmin 1 (Rmax 0.00099 (DbToLinear (bRMSLevel band + 6)))) /\
  (21 < ds ->
     ac_threshold f = Rmin 1 (Rmax 0.00099 (DbToLinear (bRMSLevel band + 3)))).
Proof.
  cbv zeta.
  unfold Compressor.buildBandAcompressor, buildBandAcompressor_log.
  cbn [fst ac_threshold volume al_attack al_release].
  split; [| split].
  - intros H. rewrite (modifiers_lt_9 ds H).
    cbn [AttackMultiplier ReleaseMultiplier RatioMultiplier].
    destruct (Rlt_dec 0.15 0.3) as [_ | Hn]; [| exfalso; rlra].
    rewrite Rpower10_0.
    split; [apply clip_as_min_max; rlra |].
    split; [| split; reflexivity].
    repeat destruct Rlt_dec; rlra.
  - intros H.
    assert (Hm : 0.3 <= RatioMultiplier (GetCompressionModifiers ds) <= 3).
    { destruct (Rlt_dec ds 15).
      - rewrite modifiers_9_15 by rlra. cbn. rlra.
      - rewrite modifiers_15_21 by rlra. cbn. rlra. }
    destruct (Rlt_dec (RatioMultiplier (GetCompressionModifiers ds)) 0.3);
      [exfalso; rlra |].
    destruct (Rlt_dec 3 (RatioMultiplier (GetCompressionModifiers ds)));
      [exfalso; rlra |].
    apply clip_as_min_max. rlra.
  - intros H.
    assert (Hm : 4 < RatioMultiplier (GetCompressionModifiers ds)).
    { change (4 < ratioOf ds). rewrite ratioOf_gt_21 by exact H.
      assert (0 < excessOf ds <= 79) by (apply excessOf_bounds; exact H). rlra. }
    destruct (Rlt_dec (RatioMultiplier (GetCompressionModifiers ds)) 0.3);
      [exfalso; rlra |].
    destruct (Rlt_dec 3 (RatioMultiplier (GetCompressionModifiers ds)));
      [| exfalso; rlra].
    apply clip_as_min_max. rlra.
Qed.

Lemma band_threshold_follows_score_witness :
  ac_threshold (Compressor.buildBandAcompressor
                  (Some (mkBand "mid" (-6) (-20) 5 12)) 6 14 9 (-10)
                  (GetCompressionModifiers 30))
  = Rmin 1 (Rmax 0.00099 (DbToLinear (-20 + 3))).
Proof.
  apply (band_threshold_follows_score (mkBand "mid" (-6) (-20) 5 12) 6 14 9 (-10) 30).
  rlra.
Defined.


(** ** Pre-compressed material *)

Lemma calculateMakeupGain_unity (analysis : DynamicsAnalysis) (threshold ratio : R) :
  0 < ratio <= 1 -> calculateMakeupGain analysis threshold ratio = 1.
Proof.
  intros [Hr0 Hr1]. unfold calculateMakeupGain.
  destruct (Rle_dec (RMSPeak analysis) threshold) as [| Hp]; [reflexivity |].
  cbv zeta.
  match goal with
  | |- context [Rpower 10 (?e / 20)] => set (makeupGainDB := e)
  end.
  assert (Hdb : makeupGainDB <= 0).
  { subst makeupGainDB.
    assert (Hex : 0 < (RMSPeak analysis - threshold) / 2) by rlra.
    assert (Hq : (ratio - 1) / ratio <= 0).
    { assert (Hi : 0 < / ratio) by (apply Rinv_0_lt_compat; exact Hr0).
      unfold Rdiv. rnra. }
    destruct (Rle_dec threshold (RMSLevel analysis)) as [Hl | Hl].
    - rnra.
    - assert (Hpos : 0 < (RMSPeak analysis - threshold)
                         / (RMSPeak analysis - RMSLevel analysis)).
      { apply Rdiv_lt_0_compat; rlra. }
      assert (Hm : ((RMSPeak analysis - threshold) / 2 * ((ratio - 1) / ratio)) <= 0)
        by rnra.
      rnra. }
  assert (Hle : Rpower 10 (makeupGainDB / 20) <= 1).
  { apply (DbToLinear_le_1 makeupGainDB). exact Hdb. }
  repeat destruct Rlt_dec; rlra.
Qed.

(** A measured band under the modifiers of a score below 9, with a base
    ratio of at most 6: the product ratio is below 1. *)
Lemma precompressed_band (band : FrequencyBandAnalysis)
  (attackMs releaseMs ratio fallbackThresholdDb : R) :
  0 <= ratio <= 6 ->
  let f := Compressor.buildBandAcompressor (Some band) attackMs releaseMs ratio
             fallbackThresholdDb (mkMods 4 4 0.15) in
  ac_ratio f = 1 /\ ac_knee f = Some 1 /\ volume f = 1.
Proof.
  intros Hr. cbv zeta.
  unfold Compressor.buildBandAcompressor, buildBandAcompressor_log.
  cbn [fst ac_ratio ac_knee volume AttackMultiplier ReleaseMultiplier RatioMultiplier].
  destruct (Rlt_dec 0.15 0.3) as [_ | Hn]; [| exfalso; rlra].
  rewrite Rpower10_0.
  unfold ratioAndKnee.
  destruct (Rlt_dec (ratio * 0.15) 1) as [_ | Hn]; [| exfalso; rlra].
  cbn [fst snd].
  destruct (Rlt_dec 20 1) as [Hn | _]; [exfalso; rlra |].
  cbn [fst snd].
  split; [reflexivity | split; [reflexivity |]].
  repeat destruct Rlt_dec; rlra.
Qed.

(** X9.  for material with a dynamics score below 9 the multiband chain of
    v1.3.0 does not compress the two lowest bands at all, whatever the
    preset: a measured sub or bass band gets ratio 1, knee 1 and no
    makeup gain. *)
Theorem precompressed_low_bands_uncompressed (bands : BandMap) (ds : R)
  (preset : string) (sub bass : FrequencyBandAnalysis) (c : MultibandChain) :
  preset = "Light"%string \/ preset = "Moderate"%string \/ preset = "Broadcast"%string ->
  ds < 9 ->
  lookupBand bands "sub" = Some sub -> lookupBand bands "bass" = Some bass ->
  Compressor.buildMultibandCompression bands (Some ds) preset = Some c ->
  (ac_ratio (subFilter c) = 1 /\ ac_knee (subFilter c) = Some 1 /\
   volume (subFilter c) = 1) /\
  (ac_ratio (bassFilter c) = 1 /\ ac_knee (bassFilter c) = Some 1 /\
   volume (bassFilter c) = 1).
Proof.
  intros Hp Hds Hsub Hbass Hc. unfold Compressor.buildMultibandCompression in Hc.
  destruct (Nat.eqb (List.length bands) 0 || String.eqb preset "Off")%bool;
    [discriminate |].
  rewrite Hsub, Hbass, (modifiers_lt_9 ds Hds) in Hc.
  destruct Hp as [-> | [-> | ->]];
    cbn [presetBase String.eqb Ascii.eqb Bool.eqb] in Hc;
    injection Hc as <-; cbn [subFilter bassFilter];
    split; apply precompressed_band; rlra.
Qed.

Lemma precompressed_low_bands_uncompressed_witness :
  ac_ratio (Compressor.buildBandAcompressor (Some (mkBand "sub" (-3) (-9) 2 4))
              10 20 6 (-18) (GetCompressionModifiers 5)) = 1.
Proof.
  destruct (precompressed_low_bands_uncompressed
              [("sub"%string, mkBand "sub" (-3) (-9) 2 4);
               ("bass"%string, mkBand "bass" (-2) (-8) 2 4)]
              5 "Broadcast" (mkBand "sub" (-3) (-9) 2 4) (mkBand "bass" (-2) (-8) 2 4)
              _ (or_intror (or_intror eq_refl)) ltac:(rlra) eq_refl eq_refl eq_refl)
    as ((H & _) & _).
  exact H.
Defined.

(** X10.  for material with a dynamics score below 9 and a crest factor of
    at most 8 the single-band compressor of v1.3.0 is transparent in
    every preset: ratio 1, knee 1, makeup gain 1. *)
Theorem precompressed_single_band_transparent (a : DynamicsAnalysis) (ds : R)
  (preset : string) (f : SingleBandFilter) :
  preset = "Light"%string \/ preset = "Moderate"%string \/ preset = "Broadcast"%string ->
  ds < 9 -> CrestFactor a <= 8 ->
  Compressor.calculateAdaptiveCompression (Some a) (Some ds) preset = Some f ->
  sb_ratio f = 1 /\ sb_knee f = 1 /\ sb_makeup f = 1.
Proof.
  intros Hp Hds Hc Hf.
  assert (Hbase : 1.4 <= GetBaseRatioFromCrest (CrestFactor a) <= 4).
  { unfold GetBaseRatioFromCrest.
    repeat match goal with
           | |- context [Rle_dec ?x ?y] => destruct (Rle_dec x y)
           end; rlra. }
  assert (Hs : sbRatio (Compressor.singleBandBase a preset)
               = GetBaseRatioFromCrest (CrestFactor a)).
  { destruct Hp as [-> | [-> | ->]]; reflexivity. }
  unfold Compressor.calculateAdaptiveCompression in Hf.
  assert (Hoff : String.eqb preset "Off" = false)
    by (destruct Hp as [-> | [-> | ->]]; reflexivity).
  rewrite Hoff in Hf. injection Hf as <-.
  cbn [sb_ratio sb_knee sb_makeup].
  rewrite (modifiers_lt_9 ds Hds), Hs.
  cbn [AttackMultiplier ReleaseMultiplier RatioMultiplier].
  set (base := GetBaseRatioFromCrest (CrestFactor a)) in *.
  unfold ratioAndKnee.
  destruct (Rlt_dec (base * 0.15) 1) as [_ | Hn]; [| exfalso; rlra].
  cbn [fst snd].
  destruct (Rlt_dec 20 1) as [Hn | _]; [exfalso; rlra |].
  split; [reflexivity | split; [reflexivity |]].
  rewrite calculateMakeupGain_unity by rlra.
  repeat destruct Rlt_dec; rlra.
Qed.

Lemma precompressed_single_band_transparent_witness :
  exists f,
    Compressor.calculateAdaptiveCompression
      (Some (mkDynamicsAnalysis (-1) (-6) (-20) 3 8 (-10) (-60))) (Some 5) "Moderate"
    = Some f /\ sb_ratio f = 1 /\ sb_knee f = 1 /\ sb_makeup f = 1.
Proof.
  eexists. split; [reflexivity |].
  apply (precompressed_single_band_transparent
           (mkDynamicsAnalysis (-1) (-6) (-20) 3 8 (-10) (-60)) 5 "Moderate");
    [right; left; reflexivity | rlra | cbn; rlra | reflexivity].
Defined.


(** ** Phase check *)

(** X11.  when both channels are found, [PhaseCheck] reports no error and
    a non-negative offset, and it reports inversion exactly when the two
    cross differences of the absolute extreme levels are both below 0.01:
    only absolute values count.  So a second channel that is the exact
    negative of the first is reported with offset 0; and two identical
    channels are reported as inverted too as soon as their extremes are
    symmetric to within 0.01. *)
Theorem PhaseCheck_reports (ch1Min ch1Max ch2Min ch2Max : R) :
  let result := PhaseCheck (Some (Some (ch1Min, ch1Max), Some (ch2Min, ch2Max))) in
  let inverted := fst (fst result) in
  let offset := snd (fst result) in
  snd result = None /\ 0 <= offset /\
  (inverted = true <->
     Rabs (Rabs ch1Min - Rabs ch2Max) < 0.01 /\
     Rabs (Rabs ch1Max - Rabs ch2Min) < 0.01) /\
  (ch2Min = - ch1Max -> ch2Max = - ch1Min -> offset = 0 /\ inverted = true) /\
  (ch2Min = ch1Min -> ch2Max = ch1Max ->
     offset = Rabs (Rabs ch1Min - Rabs ch1Max)).
Proof.
  cbv zeta. unfold PhaseCheck, parsePhaseCheck. cbn [fst snd].
  unfold calculatePhaseOffset.
  set (d1 := Rabs (Rabs ch1Min - Rabs ch2Max)).
  set (d2 := Rabs (Rabs ch1Max - Rabs ch2Min)).
  assert (H1 : 0 <= d1) by apply Rabs_pos.
  assert (H2 : 0 <= d2) by apply Rabs_pos.
  split; [reflexivity |].
  split; [unfold Rmax; destruct (Rle_dec d1 d2); rlra |].
  split; [| split].
  - destruct (Rlt_dec (Rmax d1 d2) 0.01) as [Hlt | Hge].
    + split; [intros _ | reflexivity].
      revert Hlt. unfold Rmax. destruct (Rle_dec d1 d2); rlra.
    + split; [discriminate |]. intros [Ha Hb]. exfalso. apply Hge.
      unfold Rmax. destruct (Rle_dec d1 d2); rlra.
  - intros -> ->. subst d1 d2. rewrite !Rabs_Ropp.
    replace (Rabs ch1Min - Rabs ch1Min) with 0 by rlra.
    replace (Rabs ch1Max - Rabs ch1Max) with 0 by rlra.
    rewrite Rabs_R0. unfold Rmax. destruct (Rle_dec 0 0); [| rlra].
    split; [reflexivity |]. destruct (Rlt_dec 0 0.01); [reflexivity | rlra].
  - intros -> ->. subst d1 d2.
    rewrite (Rabs_minus_sym (Rabs ch1Max) (Rabs ch1Min)).
    unfold Rmax. destruct (Rle_dec _ _); reflexivity.
Qed.

Lemma PhaseCheck_reports_witness :
  fst (PhaseCheck (Some (Some (-0.8, 0.5), Some (-0.5, 0.8)))) = (true, 0).
Proof.
  destruct (PhaseCheck_reports (-0.8) 0.5 (-0.5) 0.8) as (_ & _ & _ & H & _).
  cbv zeta in H. destruct H as [Ho Hi]; [rlra | rlra |].
  destruct (PhaseCheck (Some (Some (-0.8, 0.5), Some (-0.5, 0.8)))) as [[i o] e].
  cbn [fst snd] in *. now subst.
Defined.

(** X12.  a worker of [process] skips a file only when the phase check is
    switched on, both channels were found, the offset is below 0.01 and
    the user declined the dialog; a phase check that fails, or is
    switched off, never keeps a file from being processed.  A skipped
    file counts as a failure. *)
Theorem file_skipped_iff (phaseCheck confirm : bool)
  (output : option (option (R * R) * option (R * R))) :
  (shouldProcess phaseCheck (PhaseCheck output) confirm = false <->
     phaseCheck = true /\ confirm = false /\
     exists ch1Min ch1Max ch2Min ch2Max,
       output = Some (Some (ch1Min, ch1Max), Some (ch2Min, ch2Max)) /\
       calculatePhaseOffset ch1Min ch1Max ch2Min ch2Max < 0.01) /\
  (forall processed,
     shouldProcess phaseCheck (PhaseCheck output) confirm = false ->
     workerResult phaseCheck (PhaseCheck output) confirm processed = false) /\
  (forall processed,
     shouldProcess phaseCheck (PhaseCheck output) confirm = true ->
     workerResult phaseCheck (PhaseCheck output) confirm processed = processed).
Proof.
  split; [| split].
  - unfold shouldProcess. destruct phaseCheck.
    2: { split; [discriminate | intros [H _]; discriminate]. }
    destruct output as [[[[a b] |] [[c d] |]] |]; cbn.
    2-5: split; [discriminate |];
         intros (_ & _ & (? & ? & ? & ? & H & _)); discriminate.
    destruct (Rlt_dec (calculatePhaseOffset a b c d) 0.01) as [Hlt | Hge].
    + split.
      * intros ->. repeat split. exists a, b, c, d. split; [reflexivity | exact Hlt].
      * intros (_ & -> & _). reflexivity.
    + split; [discriminate |].
      intros (_ & _ & (a' & b' & c' & d' & Heq & Hlt)).
      injection Heq as -> -> -> ->. contradiction.
  - intros processed H. unfold workerResult. rewrite H. reflexivity.
  - intros processed H. unfold workerResult. rewrite H. reflexivity.
Qed.

Lemma file_skipped_iff_witness :
  shouldProcess true (PhaseCheck (Some (Some (-0.8, 0.5), Some (-0.5, 0.8)))) false = false.
Proof.
  apply (proj1 (file_skipped_iff true false (Some (Some (-0.8, 0.5), Some (-0.5, 0.8))))).
  split; [reflexivity | split; [reflexivity |]].
  exists (-0.8), 0.5, (-0.5), 0.8. split; [reflexivity |].
  unfold calculatePhaseOffset.
  replace (Rabs (-0.8)) with 0.8 by (unfold Rabs; destruct (Rcase_abs _); rlra).
  replace (Rabs (-0.5)) with 0.5 by (unfold Rabs; destruct (Rcase_abs _); rlra).
  rewrite !(Rabs_pos_eq 0.8), !(Rabs_pos_eq 0.5) by rlra.
  replace (0.8 - 0.8) with 0 by rlra. replace (0.5 - 0.5) with 0 by rlra.
  rewrite Rabs_R0. unfold Rmax. destruct (Rle_dec 0 0); rlra.
Defined.

End AudioMoreProps.

(* ===================================================================== *)
(** * Properties of the go-refactor compressor builders                  *)
(* ===================================================================== *)

Module RefactorProps.

Import Audio Compressor AudioMore AudioProps CompressorProps.
Local Open Scope R_scope.
Local Open Scope string_scope.

Lemma refactor_measured_band_in_ranges (band : FrequencyBandAnalysis)
  (attackMs releaseMs ratio fallbackThresholdDb : R) (mods : CompressionModifiers) :
  bandInRanges
    (Refactor.buildBandAcompressor (Some band) attackMs releaseMs ratio
       fallbackThresholdDb mods).
Proof.
  unfold bandInRanges, inClampRanges, Refactor.buildBandAcompressor,
    ClampCompressorParams.
  cbv zeta. cbn [ac_threshold ac_ratio ac_attack ac_release ac_makeup volume].
  repeat split; try apply clamp_between; rlra.
Qed.

Lemma refactor_fallback_band_in_ranges (attackMs releaseMs ratio fallbackThresholdDb : R)
  (mods : CompressionModifiers) :
  -60 <= fallbackThresholdDb <= 0 ->
  1 <= ratio <= 20 -> 0.01 <= attackMs <= 2000 -> 0.01 <= releaseMs <= 9000 ->
  bandInRanges
    (Refactor.buildBandAcompressor None attackMs releaseMs ratio fallbackThresholdDb mods).
Proof.
  intros Hf Hr Ha Hrl.
  unfold bandInRanges, inClampRanges, Refactor.buildBandAcompressor.
  cbn [ac_threshold ac_ratio ac_attack ac_release ac_makeup volume].
  pose proof (DbToLinear_range _ Hf) as Ht.
  assert (Hm : 1 <= DbToLinear 3 <= 64).
  { split.
    - left. apply DbToLinear_gt_1. rlra.
    - assert (H : DbToLinear 3 <= DbToLinear 20) by (apply DbToLinear_le; rlra).
      rewrite DbToLinear_20 in H. rlra. }
  repeat split; rlra.
Qed.

(** X13.  in the go-refactor generation every compressor parameter that
    reaches a filter string lies in the ranges of [ClampCompressorParams]:
    for any measured band, for all five filters of the multiband chain
    (measured or missing bands), and for the single-band filter. *)
Theorem refactor_params_in_ranges :
  (forall band attackMs releaseMs ratio fallbackThresholdDb mods,
     bandInRanges
       (Refactor.buildBandAcompressor (Some band) attackMs releaseMs ratio
          fallbackThresholdDb mods)) /\
  (forall bands dsScore preset c,
     Refactor.buildMultibandCompression bands dsScore preset = Some c ->
     chainInRanges c) /\
  (forall a dsScore preset f,
     Refactor.calculateAdaptiveCompression (Some a) dsScore preset = Some f ->
     inClampRanges (ac_threshold f) (ac_ratio f) (ac_attack f) (ac_release f) (volume f)).
Proof.
  split; [exact refactor_measured_band_in_ranges | split].
  - intros bands dsScore preset c Hc. unfold Refactor.buildMultibandCompression in Hc.
    destruct (Nat.eqb (List.length bands) 0); [discriminate |].
    injection Hc as <-. unfold chainInRanges.
    cbn [subFilter bassFilter lowMidFilter midFilter highFilter].
    split; [| split; [| split; [| split]]];
      match goal with
      | |- bandInRanges (Refactor.buildBandAcompressor ?b _ _ _ _ _) =>
          destruct b;
          [apply refactor_measured_band_in_ranges
          | apply refactor_fallback_band_in_ranges; rlra]
      end.
  - intros a dsScore preset f Hf. unfold Refactor.calculateAdaptiveCompression in Hf.
    destruct (String.eqb preset "Off"); [discriminate |].
    destruct (Refactor.singleBandBase a preset) as [[[threshold ratio] attack] release].
    destruct dsScore as [ds |];
      unfold ClampCompressorParams in Hf; cbv zeta in Hf;
      injection Hf as <-; unfold inClampRanges;
      cbn [ac_threshold ac_ratio ac_attack ac_release volume];
      repeat split; try apply clamp_between; rlra.
Qed.

(** X14.  the band compressor of the go-refactor generation and the one
    of v1.3.0 build the same filter for a missing band, and for a
    measured band whenever the material is not pre-compressed (ratio
    multiplier at least 0.3), the band RMS is at least -63 dB, and the
    product of ratio and multiplier is at most 20 and not 12.  Where the
    product exceeds 20 both emit ratio 20, with knee 7.5 in go-refactor
    and knee 8 in v1.3.0. *)
Theorem refactor_band_agrees_with_v130 (band : FrequencyBandAnalysis)
  (attackMs releaseMs ratio fallbackThresholdDb : R) (mods : CompressionModifiers) :
  Refactor.buildBandAcompressor None attackMs releaseMs ratio fallbackThresholdDb mods
    = Compressor.buildBandAcompressor None attackMs releaseMs ratio
        fallbackThresholdDb mods /\
  (0.3 <= RatioMultiplier mods -> -63 <= bRMSLevel band ->
   ratio * RatioMultiplier mods <= 20 -> ratio * RatioMultiplier mods <> 12 ->
   Refactor.buildBandAcompressor (Some band) attackMs releaseMs ratio
     fallbackThresholdDb mods
   = Compressor.buildBandAcompressor (Some band) attackMs releaseMs ratio
       fallbackThresholdDb mods) /\
  (20 < ratio * RatioMultiplier mods ->
   ac_ratio (Refactor.buildBandAcompressor (Some band) attackMs releaseMs ratio
               fallbackThresholdDb mods) = 20 /\
   ac_knee (Refactor.buildBandAcompressor (Some band) attackMs releaseMs ratio
              fallbackThresholdDb mods) = Some 7.5 /\
   ac_ratio (Compressor.buildBandAcompressor (Some band) attackMs releaseMs ratio
               fallbackThresholdDb mods) = 20 /\
   ac_knee (Compressor.buildBandAcompressor (Some band) attackMs releaseMs ratio
              fallbackThresholdDb mods) = Some 8).
Proof.
  split; [| split].
  - unfold Refactor.buildBandAcompressor, Compressor.buildBandAcompressor,
      buildBandAcompressor_log, DbToLinear. cbn [fst].
    assert (H : Rpower 10 (-1 / 20) <= 1) by (apply (DbToLinear_le_1 (-1)); rlra).
    destruct (Rlt_dec 1 (Rpower 10 (-1 / 20))); [exfalso; rlra | reflexivity].
  - intros Hm Hrms Hle Hne.
    unfold Refactor.buildBandAcompressor, Compressor.buildBandAcompressor,
      buildBandAcompressor_log, ClampCompressorParams, DbToLinear. cbn [fst]. cbv zeta.
    destruct (Rlt_dec (RatioMultiplier mods) 0.3) as [Hc | _]; [exfalso; rlra |].
    set (thr := bRMSLevel band + (if Rlt_dec 3 (RatioMultiplier mods) then 3 else 6)).
    assert (Hthr : 0.00099 <= Rpower 10 (thr / 20)).
    { assert (H60 : DbToLinear (-60) <= DbToLinear thr).
      { apply DbToLinear_le. subst thr. destruct (Rlt_dec 3 _); rlra. }
      rewrite DbToLinear_minus_60 in H60. unfold DbToLinear in H60. rlra. }
    set (r := ratio * RatioMultiplier mods) in *.
    assert (Hknee : snd (ratioAndKnee r 4) = GetKneeFromRatio r).
    { unfold ratioAndKnee, GetKneeFromRatio.
      repeat match goal with
             | |- context [Rlt_dec ?a ?b] => destruct (Rlt_dec a b)
             | |- context [Rle_dec ?a ?b] => destruct (Rle_dec a b)
             end; cbn [snd]; try reflexivity; exfalso; rlra. }
    assert (Hratio : fst (ratioAndKnee r 4) = (if Rlt_dec r 1 then 1 else r)).
    { unfold ratioAndKnee.
      repeat match goal with
             | |- context [Rlt_dec ?a ?b] => destruct (Rlt_dec a b)
             end; cbn [fst]; try reflexivity; exfalso; rlra. }
    rewrite Hknee, Hratio.
    destruct (Rlt_dec 20 (if Rlt_dec r 1 then 1 else r)) as [Hc | _].
    { exfalso. destruct (Rlt_dec r 1); rlra. }
    cbn [fst snd].
    f_equal.
    + destruct (Rlt_dec (Rpower 10 (thr / 20)) 0.00097563); [exfalso; rlra |].
      destruct (Rlt_dec (Rpower 10 (thr / 20)) 0.00099); [exfalso; rlra |].
      reflexivity.
  - intros Hgt.
    unfold Refactor.buildBandAcompressor, Compressor.buildBandAcompressor,
      buildBandAcompressor_log, ClampCompressorParams. cbn [fst]. cbv zeta.
    cbn [ac_ratio ac_knee].
    set (r := ratio * RatioMultiplier mods) in *.
    assert (Hratio : fst (ratioAndKnee r 4) = r).
    { unfold ratioAndKnee.
      repeat match goal with
             | |- context [Rlt_dec ?a ?b] => destruct (Rlt_dec a b)
             end; cbn [fst]; try reflexivity; exfalso; rlra. }
    rewrite Hratio.
    destruct (Rlt_dec 20 r) as [_ | Hc]; [| exfalso; rlra].
    cbn [fst snd].
    destruct (Rlt_dec r 1) as [Hc | _]; [exfalso; rlra |].
    destruct (Rlt_dec 20 r) as [_ | Hc]; [| exfalso; rlra].
    repeat split.
    unfold GetKneeFromRatio.
    repeat match goal with
           | |- context [Rlt_dec ?a ?b] => destruct (Rlt_dec a b)
           | |- context [Rle_dec ?a ?b] => destruct (Rle_dec a b)
           end; try reflexivity; exfalso; rlra.
Qed.

End RefactorProps.

(* ===================================================================== *)
(** * Properties of the Go library calls                                 *)
(* ===================================================================== *)

Module GoLibProps.

Import GoLib.
Local Open Scope string_scope.
Local Open Scope Z_scope.

Lemma digitValue_digit (d : Z) :
  0 <= d < 10 -> digitValue (ascii_of_N (Z.to_N (48 + d))) = Some d.
Proof.
  intros H. unfold digitValue.
  rewrite N_ascii_embedding by lia.
  rewrite Z2N.id by lia.
  replace (48 <=? 48 + d) with true by (symmetry; apply Z.leb_le; lia).
  replace (48 + d <=? 57) with true by (symmetry; apply Z.leb_le; lia).
  cbn [andb]. f_equal. lia.
Qed.

(** Reading the digits written by [digitsOf]: the number is appended
    to what has been read so far. *)
Lemma parseDigits_digitsOf (fuel : nat) :
  forall (n : Z) (acc : string),
    0 <= n -> n < 10 ^ Z.of_nat fuel ->
    exists m : Z,
      0 <= m /\
      (forall a, 0 <= a -> a * 10 ^ m + n <= maxUint64 ->
         parseDigits a (digitsOf fuel n acc) = parseDigits (a * 10 ^ m + n) acc).
Proof.
  unfold maxUint64.
  induction fuel as [| fuel IH]; intros n acc Hn Hlt.
  - change (10 ^ Z.of_nat 0) with 1 in Hlt. assert (n = 0) as -> by lia.
    exists 0. split; [lia |]. intros a _ _. cbn [digitsOf]. f_equal. lia.
  - cbn [digitsOf].
    assert (Hmod : 0 <= n mod 10 < 10) by (apply Z.mod_pos_bound; lia).
    assert (Hstep : forall p rest, 0 <= p -> p * 10 + n mod 10 <= 2 ^ 64 - 1 ->
              parseDigits p (String (ascii_of_N (Z.to_N (48 + n mod 10))) rest)
              = parseDigits (p * 10 + n mod 10) rest).
    { intros p rest Hp Hle. cbn [parseDigits].
      rewrite digitValue_digit by lia. unfold maxUint64.
      replace ((2 ^ 64 - 1) / 10 + 1 <=? p) with false
        by (symmetry; apply Z.leb_gt; change ((2 ^ 64 - 1) / 10 + 1)
              with 1844674407370955162; lia).
      replace (2 ^ 64 - 1 <? p * 10 + n mod 10) with false
        by (symmetry; apply Z.ltb_ge; lia).
      reflexivity. }
    destruct (n <? 10) eqn:Hsmall.
    + apply Z.ltb_lt in Hsmall. exists 1. split; [lia |]. intros a Ha Hle.
      rewrite Z.mod_small in Hstep by lia.
      rewrite Z.mod_small by lia.
      rewrite Hstep by lia. f_equal; lia.
    + apply Z.ltb_ge in Hsmall.
      assert (Hdiv : 0 <= n / 10) by (apply Z.div_pos; lia).
      assert (Hdlt : n / 10 < 10 ^ Z.of_nat fuel).
      { apply Z.div_lt_upper_bound; [lia |].
        rewrite Nat2Z.inj_succ, Z.pow_succ_r in Hlt by lia. lia. }
      destruct (IH (n / 10) (String (ascii_of_N (Z.to_N (48 + n mod 10))) acc) Hdiv Hdlt)
        as (m & Hm & Hread).
      exists (m + 1). split; [lia |]. intros a Ha Hle.
      pose proof (Z.div_mod n 10 ltac:(lia)) as Hdm.
      assert (Hpow : 0 < 10 ^ m) by (apply Z.pow_pos_nonneg; lia).
      rewrite Z.pow_add_r in Hle by lia. change (10 ^ 1) with 10 in Hle.
      rewrite Hread by nia.
      rewrite Hstep by nia. f_equal.
      rewrite Z.pow_add_r by lia. lia.
Qed.

Lemma fuel_enough (n : Z) : 0 <= n -> n < 10 ^ Z.of_nat (S (Z.to_nat (Z.log2 n))).
Proof.
  intros Hn.
  destruct (Z.eq_dec n 0) as [-> | Hne]; [cbn; lia |].
  assert (Hpos : 0 < n) by lia.
  pose proof (Z.log2_spec n Hpos) as [_ Hub].
  pose proof (Z.log2_nonneg n) as Hl.
  rewrite Nat2Z.inj_succ, Z2Nat.id by lia.
  eapply Z.lt_le_trans; [exact Hub |].
  apply Z.pow_le_mono_l. lia.
Qed.

Lemma digitsOf_nonempty (fuel : nat) (n : Z) (acc : string) :
  digitsOf (S fuel) n acc <> EmptyString.
Proof.
  revert n acc. induction fuel as [| fuel IH]; intros n acc; cbn [digitsOf].
  - destruct (n <? 10); discriminate.
  - destruct (n <? 10); [discriminate |]. apply IH.
Qed.

Lemma parseDigits_Itoa_nonneg (n : Z) :
  0 <= n <= maxUint64 ->
  parseDigits 0 (digitsOf (S (Z.to_nat (Z.log2 n))) n "") = Value n.
Proof.
  intros Hn.
  destruct (parseDigits_digitsOf _ n "" (proj1 Hn) (fuel_enough n (proj1 Hn)))
    as (m & _ & H).
  rewrite H by lia. cbn. reflexivity.
Qed.

(** The first character of a written number is a digit. *)
Lemma digitsOf_head (fuel : nat) (n : Z) (acc : string) :
  0 <= n ->
  exists d rest, 0 <= d < 10 /\
    digitsOf (S fuel) n acc = String (ascii_of_N (Z.to_N (48 + d))) rest.
Proof.
  revert n acc. induction fuel as [| fuel IH]; intros n acc Hn.
  - cbn [digitsOf]. exists (n mod 10), acc.
    split; [apply Z.mod_pos_bound; lia |]. destruct (n <? 10); reflexivity.
  - cbn [digitsOf]. destruct (n <? 10) eqn:Hs.
    + exists (n mod 10), acc. split; [apply Z.mod_pos_bound; lia | reflexivity].
    + apply Z.ltb_ge in Hs.
      destruct (IH (n / 10) (String (ascii_of_N (Z.to_N (48 + n mod 10))) acc))
        as (d & rest & Hd & Heq).
      { apply Z.div_pos; lia. }
      exists d, rest. split; [exact Hd |]. exact Heq.
Qed.

Lemma digit_not_sign (d : Z) :
  0 <= d < 10 ->
  Ascii.eqb (ascii_of_N (Z.to_N (48 + d))) "-" = false /\
  Ascii.eqb (ascii_of_N (Z.to_N (48 + d))) "+" = false.
Proof.
  intros H.
  assert (d = 0 \/ d = 1 \/ d = 2 \/ d = 3 \/ d = 4 \/ d = 5 \/ d = 6 \/ d = 7
          \/ d = 8 \/ d = 9) as Hc by lia.
  repeat (destruct Hc as [-> | Hc]; [split; reflexivity |]). subst. split; reflexivity.
Qed.

(** Printing an [int] with [%d] and reading it back with
    [strconv.Atoi] gives the number again, without error. *)
Lemma Atoi_Itoa (n : Z) :
  minInt <= n <= maxInt -> Atoi (Itoa n) = (n, true).
Proof.
  unfold minInt, maxInt. intros Hn. unfold Itoa.
  destruct (n <? 0) eqn:Hneg.
  - apply Z.ltb_lt in Hneg. unfold Atoi.
    replace (Ascii.eqb "-" "-") with true by reflexivity. cbn [orb].
    pose proof (digitsOf_nonempty (Z.to_nat (Z.log2 (- n))) (- n) "") as Hne.
    destruct (digitsOf (S (Z.to_nat (Z.log2 (- n)))) (- n) "") eqn:Hd;
      [contradiction |].
    rewrite <- Hd, parseDigits_Itoa_nonneg by (unfold maxUint64; lia).
    unfold minInt. rewrite Z.opp_involutive.
    replace (n <? - 2 ^ 63) with false by (symmetry; apply Z.ltb_ge; lia).
    reflexivity.
  - apply Z.ltb_ge in Hneg.
    destruct (digitsOf_head (Z.to_nat (Z.log2 n)) n "" Hneg) as (d & rest & Hd & Heq).
    assert (Hv : parseDigits 0 (digitsOf (S (Z.to_nat (Z.log2 n))) n "") = Value n)
      by (apply parseDigits_Itoa_nonneg; unfold maxUint64; lia).
    rewrite Heq in *. unfold Atoi.
    destruct (digit_not_sign d Hd) as [-> ->]. cbn [orb].
    rewrite Hv. unfold maxInt.
    replace (2 ^ 63 - 1 <? n) with false by (symmetry; apply Z.ltb_ge; lia).
    reflexivity.
Qed.

End GoLibProps.

(* ===================================================================== *)
(** * Properties of the update check                                     *)
(* ===================================================================== *)

Module VersionsProps.

Import GoLib Versions GoLibProps.
Local Open Scope string_scope.
Local Open Scope Z_scope.

(** Lexicographic comparison of two triples, as -1, 0 or 1. *)
Lemma compareVersions_as_numbers (v1 v2 : string) :
  compareVersions v1 v2 =
    let '(a1, b1, c1) := versionNumbers v1 in
    let '(a2, b2, c2) := versionNumbers v2 in
    if a2 <? a1 then 1 else if a1 <? a2 then -1
    else if b2 <? b1 then 1 else if b1 <? b2 then -1
    else if c2 <? c1 then 1 else if c1 <? c2 then -1
    else 0.
Proof. reflexivity. Qed.

Ltac order_cases :=
  repeat match goal with
         | |- context [?a <? ?b] => destruct (Z.ltb_spec a b)
         | H : context [?a <? ?b] |- _ => destruct (Z.ltb_spec a b)
         end.

(** X15.  [compareVersions] is a comparison in the proper sense: it
    answers -1, 0 or 1; swapping the arguments negates the answer; it is
    transitive; it answers 0 exactly when the two versions read as the
    same three numbers; and so [checkForUpdates] never offers an update in
    both directions. *)
Theorem compareVersions_is_an_order :
  (forall v1 v2, compareVersions v1 v2 = -1 \/ compareVersions v1 v2 = 0
                 \/ compareVersions v1 v2 = 1) /\
  (forall v1 v2, compareVersions v2 v1 = - compareVersions v1 v2) /\
  (forall v1 v2 v3, 0 <= compareVersions v1 v2 -> 0 <= compareVersions v2 v3 ->
                    0 <= compareVersions v1 v3) /\
  (forall v1 v2, compareVersions v1 v2 = 0 <-> versionNumbers v1 = versionNumbers v2) /\
  (forall remote current, updateOffered remote current = true ->
                          updateOffered current remote = false).
Proof.
  split; [| split; [| split; [| split]]].
  - intros v1 v2. rewrite compareVersions_as_numbers.
    destruct (versionNumbers v1) as [[a1 b1] c1], (versionNumbers v2) as [[a2 b2] c2].
    order_cases; lia.
  - intros v1 v2. rewrite !compareVersions_as_numbers.
    destruct (versionNumbers v1) as [[a1 b1] c1], (versionNumbers v2) as [[a2 b2] c2].
    order_cases; lia.
  - intros v1 v2 v3. rewrite !compareVersions_as_numbers.
    destruct (versionNumbers v1) as [[a1 b1] c1], (versionNumbers v2) as [[a2 b2] c2],
             (versionNumbers v3) as [[a3 b3] c3].
    order_cases; lia.
  - intros v1 v2. rewrite compareVersions_as_numbers.
    destruct (versionNumbers v1) as [[a1 b1] c1], (versionNumbers v2) as [[a2 b2] c2].
    split.
    + intros Heq. order_cases; try lia. f_equal; [f_equal |]; lia.
    + intros H. injection H as -> -> ->. rewrite !Z.ltb_irrefl. reflexivity.
  - intros remote current. unfold updateOffered.
    rewrite !compareVersions_as_numbers.
    destruct (versionNumbers remote) as [[a1 b1] c1],
             (versionNumbers current) as [[a2 b2] c2].
    intros Hup. order_cases; try reflexivity; try discriminate; try lia.
Qed.

Lemma compareVersions_is_an_order_witness :
  compareVersions "1.2.0" "1.3.0" = - compareVersions "1.3.0" "1.2.0" /\
  updateOffered "1.2.0" "1.3.0" = false.
Proof.
  destruct compareVersions_is_an_order as (_ & Hanti & _ & _ & Hup).
  split; [apply Hanti | apply Hup; reflexivity].
Defined.

(** ** Dotted decimal versions *)

(** No byte of the string is a dot. *)
Lemma Contains_dot_cons (c : ascii) (s : string) :
  Contains (String c s) "." = (Ascii.eqb c "." || Contains s ".")%bool.
Proof.
  assert (Hp : String.prefix "." (String c s) = Ascii.eqb c ".").
  { cbn [String.prefix]. destruct (ascii_dec "." c) as [<- | Hne].
    - destruct s; reflexivity.
    - symmetry. apply Ascii.eqb_neq. congruence. }
  cbn [Contains]. rewrite Hp. destruct (Ascii.eqb c "."); reflexivity.
Qed.

Lemma Split_no_dot (s : string) :
  Contains s "." = false -> Split s "." = [s].
Proof.
  induction s as [| c s IH]; intros H; [reflexivity |].
  rewrite Contains_dot_cons in H. apply orb_false_iff in H. destruct H as [Hc Hs].
  cbn [Split]. rewrite Hc, (IH Hs). reflexivity.
Qed.

Lemma Split_dot (s t : string) :
  Contains s "." = false -> Split (s ++ String "." t) "." = s :: Split t ".".
Proof.
  induction s as [| c s IH]; intros H.
  - reflexivity.
  - rewrite Contains_dot_cons in H. apply orb_false_iff in H. destruct H as [Hc Hs].
    cbn [append Split]. rewrite Hc, (IH Hs). reflexivity.
Qed.

Lemma digitsOf_no_dot (fuel : nat) (n : Z) (acc : string) :
  0 <= n -> Contains acc "." = false -> Contains (digitsOf fuel n acc) "." = false.
Proof.
  revert n acc. induction fuel as [| fuel IH]; intros n acc Hn Hacc; [exact Hacc |].
  cbn [digitsOf].
  assert (Hmod : 0 <= n mod 10 < 10) by (apply Z.mod_pos_bound; lia).
  assert (Hc : Contains (String (ascii_of_N (Z.to_N (48 + n mod 10))) acc) "." = false).
  { rewrite Contains_dot_cons, Hacc.
    assert (n mod 10 = 0 \/ n mod 10 = 1 \/ n mod 10 = 2 \/ n mod 10 = 3
            \/ n mod 10 = 4 \/ n mod 10 = 5 \/ n mod 10 = 6 \/ n mod 10 = 7
            \/ n mod 10 = 8 \/ n mod 10 = 9) as Hd by lia.
    repeat (destruct Hd as [-> | Hd]; [reflexivity |]). rewrite Hd. reflexivity. }
  destruct (n <? 10); [exact Hc |].
  apply IH; [apply Z.div_pos; lia | exact Hc].
Qed.

Lemma Itoa_no_dot (n : Z) : Contains (Itoa n) "." = false.
Proof.
  unfold Itoa. destruct (n <? 0) eqn:Hneg.
  - apply Z.ltb_lt in Hneg. rewrite Contains_dot_cons.
    rewrite digitsOf_no_dot by (try lia; reflexivity). reflexivity.
  - apply Z.ltb_ge in Hneg. apply digitsOf_no_dot; [lia | reflexivity].
Qed.

Lemma Split_dotted (ns : list Z) :
  ns <> [] -> Split (dotted ns) "." = map Itoa ns.
Proof.
  unfold dotted. induction ns as [| n ns IH]; intros Hne; [contradiction |].
  destruct ns as [| n' ns].
  - cbn [map String.concat]. apply Split_no_dot, Itoa_no_dot.
  - change (String.concat "." (map Itoa (n :: n' :: ns)))
      with (Itoa n ++ String "." (String.concat "." (map Itoa (n' :: ns)))).
    rewrite Split_dot by apply Itoa_no_dot.
    rewrite IH by discriminate. reflexivity.
Qed.

Lemma Atoi_zero : Atoi "0" = (0, true).
Proof. reflexivity. Qed.

Lemma versionNumbers_of_dotted (a b c : Z) (more : list Z) :
  minInt <= a <= maxInt -> minInt <= b <= maxInt -> minInt <= c <= maxInt ->
  versionNumbers (dotted (a :: b :: c :: more)) = (a, b, c) /\
  versionNumbers (dotted [a; b]) = (a, b, 0) /\
  versionNumbers (dotted [a]) = (a, 0, 0).
Proof.
  intros Ha Hb Hc. unfold versionNumbers.
  rewrite !Split_dotted by discriminate.
  cbn [map padParts List.length Nat.ltb Nat.leb app nth].
  rewrite !Atoi_Itoa by assumption. rewrite Atoi_zero. cbn [fst].
  repeat split.
Qed.

(** X16.  on versions written as dotted decimal numbers [compareVersions]
    compares numerically, not as text: the first differing number among
    the first three decides, so 1.10.0 is newer than 1.9.0; numbers after
    the third are ignored; and a missing second or third number reads as
    0. *)
Theorem compareVersions_dotted (a b c a' b' c' : Z) (more more' : list Z) :
  (minInt <= a <= maxInt /\ minInt <= b <= maxInt /\ minInt <= c <= maxInt) ->
  (minInt <= a' <= maxInt /\ minInt <= b' <= maxInt /\ minInt <= c' <= maxInt) ->
  (updateOffered (dotted (a :: b :: c :: more)) (dotted (a' :: b' :: c' :: more'))
   = true
   <-> a' < a \/ (a = a' /\ b' < b) \/ (a = a' /\ b = b' /\ c' < c)) /\
  compareVersions (dotted [a; b]) (dotted [a; b; 0]) = 0 /\
  compareVersions (dotted [a]) (dotted [a; 0; 0]) = 0.
Proof.
  intros (Ha & Hb & Hc) (Ha' & Hb' & Hc').
  assert (H0 : minInt <= 0 <= maxInt) by (unfold minInt, maxInt; lia).
  destruct (versionNumbers_of_dotted a b c more Ha Hb Hc) as (H3 & H2 & H1).
  destruct (versionNumbers_of_dotted a' b' c' more' Ha' Hb' Hc') as (H3' & _ & _).
  destruct (versionNumbers_of_dotted a b 0 [] Ha Hb H0) as (Hab0 & _ & _).
  destruct (versionNumbers_of_dotted a 0 0 [] Ha H0 H0) as (Ha00 & _ & _).
  unfold updateOffered. rewrite !compareVersions_as_numbers.
  rewrite H3, H3', H2, H1, Hab0, Ha00.
  split; [| split].
  - split.
    + intros H. order_cases; try discriminate; lia.
    + intros H. order_cases; try reflexivity; lia.
  - rewrite !Z.ltb_irrefl. reflexivity.
  - rewrite !Z.ltb_irrefl. reflexivity.
Qed.

Lemma compareVersions_dotted_witness :
  updateOffered (dotted [1; 10; 0]) (dotted [1; 9; 0]) = true.
Proof.
  apply (compareVersions_dotted 1 10 0 1 9 0 [] []);
    unfold minInt, maxInt; try lia.
Defined.

End VersionsProps.

(* ===================================================================== *)
(** * Properties of the bit rate arguments                               *)
(* ===================================================================== *)

Module EncodeProps.

Import GoLib Encode GoLibProps VersionsProps.
Local Open Scope string_scope.
Local Open Scope Z_scope.

Lemma parseDigits_app (s t : string) :
  forall a, parseDigits a (s ++ t)
            = match parseDigits a s with
              | Value v => parseDigits v t
              | e => e
              end.
Proof.
  induction s as [| ch s IH]; intros a; [reflexivity |].
  cbn [append parseDigits].
  destruct (digitValue ch) as [d |]; [| reflexivity].
  destruct (maxUint64 / 10 + 1 <=? a); [reflexivity |].
  destruct (maxUint64 <? a * 10 + d); [reflexivity |].
  apply IH.
Qed.

Lemma parseDigits_thousand (n : Z) :
  0 <= n -> n * 1000 <= maxInt -> parseDigits n "000" = Value (n * 1000).
Proof.
  unfold maxInt. intros Hn Hle.
  assert (Hstep : forall p rest, 0 <= p <= 2 ^ 60 ->
            parseDigits p (String "0" rest) = parseDigits (p * 10) rest).
  { intros p rest Hp. cbn [parseDigits].
    change (digitValue "0") with (Some 0). unfold maxUint64.
    change ((2 ^ 64 - 1) / 10 + 1) with 1844674407370955162.
    replace (1844674407370955162 <=? p) with false
      by (symmetry; apply Z.leb_gt; lia).
    replace (2 ^ 64 - 1 <? p * 10 + 0) with false
      by (symmetry; apply Z.ltb_ge; lia).
    f_equal. lia. }
  rewrite !Hstep by lia. cbn [parseDigits]. f_equal. lia.
Qed.

(** Reading a written number followed by three zeros. *)
Lemma Atoi_Itoa_thousand (n : Z) :
  0 <= n -> n * 1000 <= maxInt -> Atoi (Itoa n ++ "000") = (n * 1000, true).
Proof.
  intros Hn Hle. unfold Itoa.
  replace (n <? 0) with false by (symmetry; apply Z.ltb_ge; lia).
  destruct (digitsOf_head (Z.to_nat (Z.log2 n)) n "" Hn) as (d & rest & Hd & Heq).
  assert (Hv : parseDigits 0 (digitsOf (S (Z.to_nat (Z.log2 n))) n "") = Value n)
    by (apply parseDigits_Itoa_nonneg; unfold maxUint64, maxInt in *; lia).
  assert (Hall : parseDigits 0 (digitsOf (S (Z.to_nat (Z.log2 n))) n "" ++ "000")
                 = Value (n * 1000))
    by (rewrite parseDigits_app, Hv; apply parseDigits_thousand; assumption).
  rewrite Heq in *. cbn [append] in *. unfold Atoi.
  destruct (digit_not_sign d Hd) as [-> ->]. cbn [orb].
  rewrite Hall.
  replace (maxInt <? n * 1000) with false by (symmetry; apply Z.ltb_ge; lia).
  reflexivity.
Qed.

(** The byte [k] in a string. *)
Lemma Contains_k_cons (c : ascii) (s : string) :
  Contains (String c s) "k" = (Ascii.eqb c "k" || Contains s "k")%bool.
Proof.
  assert (Hp : String.prefix "k" (String c s) = Ascii.eqb c "k").
  { cbn [String.prefix]. destruct (ascii_dec "k" c) as [<- | Hne].
    - destruct s; reflexivity.
    - symmetry. apply Ascii.eqb_neq. congruence. }
  cbn [Contains]. rewrite Hp. destruct (Ascii.eqb c "k"); reflexivity.
Qed.

Lemma digitsOf_no_k (fuel : nat) (n : Z) (acc : string) :
  0 <= n -> Contains acc "k" = false -> Contains (digitsOf fuel n acc) "k" = false.
Proof.
  revert n acc. induction fuel as [| fuel IH]; intros n acc Hn Hacc; [exact Hacc |].
  cbn [digitsOf].
  assert (Hmod : 0 <= n mod 10 < 10) by (apply Z.mod_pos_bound; lia).
  assert (Hc : Contains (String (ascii_of_N (Z.to_N (48 + n mod 10))) acc) "k" = false).
  { rewrite Contains_k_cons, Hacc.
    assert (n mod 10 = 0 \/ n mod 10 = 1 \/ n mod 10 = 2 \/ n mod 10 = 3
            \/ n mod 10 = 4 \/ n mod 10 = 5 \/ n mod 10 = 6 \/ n mod 10 = 7
            \/ n mod 10 = 8 \/ n mod 10 = 9) as Hd by lia.
    repeat (destruct Hd as [-> | Hd]; [reflexivity |]). rewrite Hd. reflexivity. }
  destruct (n <? 10); [exact Hc |].
  apply IH; [apply Z.div_pos; lia | exact Hc].
Qed.

Lemma Itoa_no_k (n : Z) : 0 <= n -> Contains (Itoa n) "k" = false.
Proof.
  intros Hn. unfold Itoa.
  replace (n <? 0) with false by (symmetry; apply Z.ltb_ge; lia).
  apply digitsOf_no_k; [lia | reflexivity].
Qed.

Lemma Contains_k_suffix (s : string) : Contains (s ++ "k") "k" = true.
Proof.
  induction s as [| c s IH]; [reflexivity |].
  cbn [append]. rewrite Contains_k_cons, IH. apply orb_true_r.
Qed.

Lemma ReplaceAll_k_suffix (s : string) :
  Contains s "k" = false -> ReplaceAll (s ++ "k") "k" "000" = s ++ "000".
Proof.
  induction s as [| c s IH]; intros H; [reflexivity |].
  rewrite Contains_k_cons in H. apply orb_false_iff in H. destruct H as [Hc Hs].
  cbn [append ReplaceAll]. rewrite Hc, (IH Hs). reflexivity.
Qed.

(** The number that the bit rate entry gives. *)
Lemma bitrate_of_entry (actualCodec : string) (n : Z) :
  0 < n -> n * 1000 <= maxInt ->
  (needsFullNumber actualCodec = true ->
     bitrate actualCodec (Itoa n ++ "k") = n * 1000 /\
     (Contains (Itoa n) "000" = false -> bitrate actualCodec (Itoa n) = n * 1000) /\
     (Contains (Itoa n) "000" = true -> bitrate actualCodec (Itoa n) = n)) /\
  (needsFullNumber actualCodec = false -> 12 < n ->
     bitrate actualCodec (Itoa n) = n).
Proof.
  intros Hn Hle.
  assert (Hint : minInt <= n <= maxInt) by (unfold minInt, maxInt in *; lia).
  assert (Hk : Contains (Itoa n) "k" = false) by (apply Itoa_no_k; lia).
  assert (Hbig : (n * 1000 <=? minBitrate) = false)
    by (apply Z.leb_gt; unfold minBitrate; lia).
  split.
  - intros Hfull. split; [| split].
    + unfold bitrate, bitrateStr. rewrite Hfull, Contains_k_suffix.
      rewrite ReplaceAll_k_suffix by exact Hk.
      rewrite Atoi_Itoa_thousand by lia. cbn [negb orb]. rewrite Hbig. reflexivity.
    + intros H000. unfold bitrate, bitrateStr. rewrite Hfull, Hk, H000.
      rewrite Atoi_Itoa_thousand by lia. cbn [negb orb]. rewrite Hbig. reflexivity.
    + intros H000. unfold bitrate, bitrateStr. rewrite Hfull, Hk, H000.
      rewrite Atoi_Itoa by exact Hint. cbn [negb orb].
      assert (Hlarge : 12 < n).
      { destruct (Z.ltb_spec 12 n) as [| Hsmall]; [assumption | exfalso].
        assert (n = 1 \/ n = 2 \/ n = 3 \/ n = 4 \/ n = 5 \/ n = 6 \/ n = 7 \/ n = 8
                \/ n = 9 \/ n = 10 \/ n = 11 \/ n = 12) as Hc by lia.
        repeat (destruct Hc as [-> | Hc]; [discriminate H000 |]).
        subst. discriminate H000. }
      replace (n <=? minBitrate) with false
        by (symmetry; apply Z.leb_gt; unfold minBitrate; lia).
      reflexivity.
  - intros Hfull Hlarge. unfold bitrate, bitrateStr. rewrite Hfull.
    rewrite Atoi_Itoa by exact Hint. cbn [negb orb].
    replace (n <=? minBitrate) with false
      by (symmetry; apply Z.leb_gt; unfold minBitrate; lia).
    reflexivity.
Qed.

Lemma full_number_codec_takes_bitrate (actualCodec : string) :
  needsFullNumber actualCodec = true -> noBitrateUsed actualCodec = false.
Proof.
  unfold needsFullNumber, noBitrateUsed. intros H.
  repeat (apply orb_prop in H; destruct H as [H | H]);
    apply String.eqb_eq in H; subst; reflexivity.
Qed.

(** X17.  how the bit rate entry reaches the encoder.  For the codecs that
    take bits per second (libfdk_aac, aac, libopus, libmp3lame) an entry
    of n or nk is passed as n * 1000, unless the entry n itself contains
    000, when it is passed unchanged: 1000 means 1000 bit/s, not
    1000 kbit/s.  For the other codecs an entry n above 12 is passed as
    nk; PCM and FLAC get no bit rate argument. *)
Theorem bitrate_entry_units (actualCodec : string) (n : Z) :
  0 < n -> n * 1000 <= maxInt ->
  (needsFullNumber actualCodec = true ->
     bitrateArgs actualCodec (Itoa n ++ "k") = ["-b:a"; Itoa (n * 1000)] /\
     (Contains (Itoa n) "000" = false ->
        bitrateArgs actualCodec (Itoa n) = ["-b:a"; Itoa (n * 1000)]) /\
     (Contains (Itoa n) "000" = true ->
        bitrateArgs actualCodec (Itoa n) = ["-b:a"; Itoa n])) /\
  (needsFullNumber actualCodec = false -> noBitrateUsed actualCodec = false ->
   12 < n -> bitrateArgs actualCodec (Itoa n) = ["-b:a"; Itoa n ++ "k"]) /\
  (noBitrateUsed actualCodec = true -> bitrateArgs actualCodec (Itoa n) = []).
Proof.
  intros Hn Hle.
  destruct (bitrate_of_entry actualCodec n Hn Hle) as (Hfull & Hother).
  split; [| split].
  - intros Hf. destruct (Hfull Hf) as (Hk & Hplain & Hquirk).
    unfold bitrateArgs.
    rewrite (full_number_codec_takes_bitrate actualCodec Hf), Hf. cbn [negb].
    rewrite Hk. split; [reflexivity |].
    split; intros H000; [rewrite (Hplain H000) | rewrite (Hquirk H000)]; reflexivity.
  - intros Hf Hused Hlarge. unfold bitrateArgs. rewrite Hused, Hf. cbn [negb].
    rewrite (Hother Hf Hlarge). reflexivity.
  - intros Hnone. unfold bitrateArgs. rewrite Hnone. reflexivity.
Qed.

Lemma bitrate_entry_units_witness :
  bitrateArgs "libmp3lame" "320" = ["-b:a"; "320000"] /\
  bitrateArgs "libmp3lame" "1000" = ["-b:a"; "1000"] /\
  bitrateArgs "aac_at" "256" = ["-b:a"; "256k"].
Proof.
  assert (H320 : 0 < 320 /\ 320 * 1000 <= maxInt) by (unfold maxInt; lia).
  assert (H1000 : 0 < 1000 /\ 1000 * 1000 <= maxInt) by (unfold maxInt; lia).
  assert (H256 : 0 < 256 /\ 256 * 1000 <= maxInt) by (unfold maxInt; lia).
  destruct (bitrate_entry_units "libmp3lame" 320 (proj1 H320) (proj2 H320))
    as (Hfull & _).
  destruct (bitrate_entry_units "libmp3lame" 1000 (proj1 H1000) (proj2 H1000))
    as (Hquirk & _).
  destruct (bitrate_entry_units "aac_at" 256 (proj1 H256) (proj2 H256))
    as (_ & Hother & _).
  split; [| split].
  - apply (proj1 (proj2 (Hfull eq_refl))). reflexivity.
  - apply (proj2 (proj2 (Hquirk eq_refl))). reflexivity.
  - apply Hother; [reflexivity | reflexivity | lia].
Defined.

End EncodeProps.

(* ===================================================================== *)
(** * Properties of the file list                                        *)
(* ===================================================================== *)

Module FileListProps.

Import FileList.
Local Open Scope string_scope.
Local Open Scope list_scope.

Lemma contains_In (files : list string) (path : string) :
  contains files path = true <-> In path files.
Proof.
  unfold contains. rewrite existsb_exists. split.
  - intros (x & Hin & Heq). apply String.eqb_eq in Heq. now subst.
  - intros Hin. exists path. split; [exact Hin | apply String.eqb_refl].
Qed.

Lemma NoDup_snoc (files : list string) (path : string) :
  NoDup files -> ~ In path files -> NoDup (files ++ [path]).
Proof.
  intros Hnd Hnot. induction Hnd as [| x l Hx Hnd IH]; cbn [app].
  - constructor; [intros [] | constructor].
  - constructor.
    + rewrite in_app_iff. intros [H | [H | []]]; [contradiction |].
      subst. apply Hnot. now left.
    + apply IH. intros H. apply Hnot. now right.
Qed.

Lemma addFile_NoDup (files : list string) (path : string) :
  NoDup files -> NoDup (addFile files path).
Proof.
  intros Hnd. unfold addFile. destruct (contains files path) eqn:Hc; [exact Hnd |].
  apply NoDup_snoc; [exact Hnd |]. rewrite <- contains_In, Hc. discriminate.
Qed.

Lemma addFolder_as_addFile (audioFiles : list string) :
  forall files, addFolder files audioFiles = fold_left addFile audioFiles files.
Proof.
  induction audioFiles as [| file rest IH]; intros files; [reflexivity |].
  cbn [addFolder fold_left]. apply IH.
Qed.

Lemma addFolder_NoDup (audioFiles : list string) :
  forall files, NoDup files -> NoDup (addFolder files audioFiles).
Proof.
  induction audioFiles as [| file rest IH]; intros files Hnd; [exact Hnd |].
  cbn [addFolder]. apply IH. apply (addFile_NoDup files file Hnd).
Qed.

Lemma NoDup_app_parts (l1 l2 l1' l2' : list string) :
  NoDup (l1 ++ l2) -> incl l1' l1 -> incl l2' l2 -> NoDup l1' -> NoDup l2' ->
  NoDup (l1' ++ l2').
Proof.
  intros Hnd H1 H2 Hn1 Hn2.
  induction Hn1 as [| x l Hx Hn1 IH]; [exact Hn2 |].
  cbn [app]. constructor.
  - rewrite in_app_iff. intros [H | H]; [contradiction |].
    assert (Hin1 : In x l1) by (apply H1; now left).
    assert (Hin2 : In x l2) by (apply H2; exact H).
    clear - Hnd Hin1 Hin2.
    induction l1 as [| y l1 IH]; [contradiction |].
    cbn [app] in Hnd. inversion Hnd as [| ? ? Hy Hnd']; subst.
    destruct Hin1 as [-> | Hin1].
    + apply Hy. rewrite in_app_iff. now right.
    + apply (IH Hnd' Hin1).
  - apply IH. intros y Hy. apply H1. now right.
Qed.

Lemma removeFile_NoDup (files files' : list string) (index : Z) :
  NoDup files -> removeFile files index = Some files' -> NoDup files'.
Proof.
  intros Hnd. unfold removeFile.
  destruct ((0 <=? index)%Z && (index <? Z.of_nat (List.length files))%Z);
    [| discriminate].
  intros H. injection H as <-.
  set (i := Z.to_nat index).
  assert (Hsplit : files = firstn i files ++ skipn i files)
    by (symmetry; apply firstn_skipn).
  assert (Hnd' : NoDup (firstn i files ++ skipn i files)) by (rewrite <- Hsplit; exact Hnd).
  apply (NoDup_app_parts (firstn i files) (skipn i files)); try assumption.
  - apply incl_refl.
  - replace (i + 1)%nat with (1 + i)%nat by lia. rewrite <- skipn_skipn.
    intros x Hx. destruct (skipn i files) as [| y l]; [exact Hx | now right].
  - apply (NoDup_app_remove_r _ _ Hnd').
  - replace (i + 1)%nat with (1 + i)%nat by lia. rewrite <- skipn_skipn.
    pose proof (NoDup_app_remove_l _ _ Hnd') as Hs.
    destruct (skipn i files) as [| y l]; [exact Hs |].
    cbn [skipn]. now inversion Hs.
Qed.

(** X18.  the file list never holds a path twice: starting from the empty
    list, whatever files and folders are added (the same path again, a
    folder that overlaps with what is listed) and whatever entries are
    removed, every path is listed at most once. *)
Theorem file_list_has_no_duplicates (actions : list Action) (files : list string) :
  session [] actions = Some files -> NoDup files.
Proof.
  assert (Hgen : forall start, NoDup start -> session start actions = Some files ->
                               NoDup files).
  { induction actions as [| a rest IH]; intros start Hnd Hs.
    - cbn [session] in Hs. injection Hs as <-. exact Hnd.
    - cbn [session] in Hs. destruct (act start a) as [files' |] eqn:Ha; [| discriminate].
      apply (IH files'); [| exact Hs].
      destruct a as [path | audioFiles | index]; cbn [act] in Ha.
      + injection Ha as <-. apply addFile_NoDup, Hnd.
      + injection Ha as <-. apply addFolder_NoDup, Hnd.
      + apply (removeFile_NoDup start files' index Hnd Ha). }
  apply Hgen. constructor.
Qed.

Lemma file_list_has_no_duplicates_witness :
  NoDup ["b.wav"; "c.wav"].
Proof.
  apply (file_list_has_no_duplicates
           [AddFile "a.wav"; AddFolder ["a.wav"; "b.wav"; "b.wav"]; AddFile "c.wav";
            AddFile "b.wav"; RemoveFile 0]).
  reflexivity.
Defined.

(** X19.  what [removeFile] does at each index: inside the list it drops
    exactly that entry and keeps the others in order, so removing the
    entry that [addFile] has just appended gives the list back; at an
    index outside the list (negative, or the length or more) it panics. *)
Theorem removeFile_by_index (files : list string) (path : string) (index : Z) :
  (removeFile files index <> None <-> (0 <= index < Z.of_nat (List.length files))%Z) /\
  (forall before after, files = before ++ path :: after ->
     removeFile files (Z.of_nat (List.length before)) = Some (before ++ after)) /\
  (contains files path = false ->
     removeFile (addFile files path) (Z.of_nat (List.length files)) = Some files).
Proof.
  assert (Hmid : forall before after : list string,
            removeFile (before ++ path :: after) (Z.of_nat (List.length before))
            = Some (before ++ after)).
  { intros before after. unfold removeFile.
    rewrite length_app. cbn [List.length].
    replace ((0 <=? Z.of_nat (List.length before))%Z
             && (Z.of_nat (List.length before)
                 <? Z.of_nat (List.length before + S (List.length after)))%Z)
      with true
      by (symmetry; apply andb_true_iff; split;
          [apply Z.leb_le | apply Z.ltb_lt]; lia).
    rewrite Nat2Z.id. f_equal. f_equal.
    - rewrite firstn_app, Nat.sub_diag, firstn_all. cbn [firstn]. apply app_nil_r.
    - rewrite skipn_app.
      rewrite skipn_all2 by lia.
      replace (List.length before + 1 - List.length before)%nat with 1%nat by lia.
      reflexivity. }
  split; [| split].
  - unfold removeFile.
    destruct (Z.leb_spec 0 index), (Z.ltb_spec index (Z.of_nat (List.length files)));
      cbn [andb]; split; intros Hrem; try lia; try discriminate; try contradiction.
  - intros before after ->. apply Hmid.
  - intros Hc. unfold addFile. rewrite Hc.
    rewrite (Hmid files []). now rewrite app_nil_r.
Qed.

End FileListProps.

(* ===================================================================== *)
(** * Further properties of the EQ curve engine                          *)
(* ===================================================================== *)

Module EqMoreProps.

Import EqBands EqMore EqProps.
Local Open Scope Q_scope.
Local Open Scope string_scope.

(** ** Limits of the emitted gains *)

Lemma tiny_false (g : Q) : tiny g = false -> g <= -0.5 \/ 0.5 <= g.
Proof.
  unfold tiny. destruct (Qlt_le_dec (-0.5) g); [| intros _; left; assumption].
  destruct (Qlt_le_dec g 0.5); [discriminate | intros _; right; assumption].
Qed.

Lemma at_bounds (P : Q -> Prop) (l : list Q) (i : nat) :
  P 0 -> Forall P l -> P (EqClamp.at_ l i).
Proof.
  intros H0 Hl. unfold EqClamp.at_. revert i.
  induction Hl as [| x l Hx Hl IH]; intros [| i]; cbn; auto.
Qed.

Lemma setAt_Forall (P : Q -> Prop) (l : list Q) (i : nat) (v : Q) :
  P v -> Forall P l -> Forall P (EqClamp.setAt l i v).
Proof.
  intros Hv Hl. revert i.
  induction Hl as [| x l Hx Hl IH]; intros i; cbn [EqClamp.setAt].
  - constructor.
  - destruct i; constructor; auto.
Qed.


(** A shelf clamped against gains within +-10 stays within +-10. *)
Lemma clampShelf_within_10 (shelf other neighbor avg : Q) :
  -10 <= shelf <= 10 -> -10 <= other <= 10 -> -10 <= neighbor <= 10 ->
  -10 <= EqClamp.clampShelf shelf (EqClamp.shelfRange other neighbor avg) <= 10.
Proof.
  intros Hs Ho Hn.
  destruct (shelfRange_bounds other neighbor avg) as (A1 & A2 & A3 & A4 & _ & _).
  remember (EqClamp.shelfRange other neighbor avg) as range eqn:Hr.
  assert (Hlo : fst range <= 6).
  { subst range. unfold EqClamp.shelfRange, EqClamp.avgLimits.
    destruct (Qlt_le_dec avg 0); cbn [fst];
      repeat apply Q.max_lub; qlra. }
  assert (Hhi : -6 <= snd range).
  { subst range. unfold EqClamp.shelfRange, EqClamp.avgLimits.
    destruct (Qlt_le_dec avg 0); cbn [snd];
      repeat apply Q.min_glb; qlra. }
  unfold EqClamp.clampShelf. destruct range as [lo hi]. cbn [fst snd] in *.
  destruct (Qlt_le_dec hi shelf); [qlra |].
  destruct (Qlt_le_dec shelf lo); qlra.
Qed.

Lemma eqGains_within_10 (bands : list FrequencyBand) (eqTarget : string) :
  Forall (fun g => -10 <= g <= 10) (EqClamp.eqGains bands eqTarget).
Proof.
  unfold EqClamp.eqGains.
  pose proof (limitedGains_bounds bands eqTarget) as Hb.
  set (raw := EqClamp.limitedGains bands eqTarget) in *.
  assert (H0 : -10 <= 0 <= 10) by (split; qdecide).
  unfold EqClamp.clampExtremeEQ.
  destruct (List.length raw <? 3)%nat; [exact Hb |].
  assert (Hlow : -10 <= EqClamp.clampedLow raw <= 10).
  { unfold EqClamp.clampedLow, EqClamp.lowRange.
    apply clampShelf_within_10; apply (at_bounds (fun g => -10 <= g <= 10)); assumption. }
  apply setAt_Forall.
  - unfold EqClamp.clampedHigh, EqClamp.highRange.
    apply clampShelf_within_10;
      [apply (at_bounds (fun g => -10 <= g <= 10)); assumption
      | exact Hlow
      | apply (at_bounds (fun g => -10 <= g <= 10)); assumption].
  - apply setAt_Forall; assumption.
Qed.

Lemma renderBand_gain (P : Q -> Prop) (band : FrequencyBand) (g : Q) (p : EqPart) (x : Q) :
  P g -> In p (EqClamp.renderBand (band, g)) -> partGain p = Some x ->
  P x /\ tiny x = false.
Proof.
  intros Hg Hin Hx. unfold EqClamp.renderBand in Hin.
  destruct (tiny g) eqn:Ht; [destruct Hin |].
  destruct (FilterType band =? "lowpass");
    [| destruct (FilterType band =? "highpass");
       [| destruct (FilterType band =? "bandpass"); [| destruct Hin]]].
  - destruct Hin as [<- | []]. injection Hx as <-. auto.
  - destruct Hin as [<- | []]. injection Hx as <-. auto.
  - destruct (getBandpassParams (Frequency band)) as [centerFreq bandwidth].
    destruct Hin as [<- | []]. injection Hx as <-. auto.
Qed.

Lemma freq_renderBand_gain (band : FrequencyBand) (g : Q) (p : EqPart) (x : Q) :
  In p (FreqAnal.renderBand (band, g)) -> partGain p = Some x -> x = g.
Proof.
  intros Hin Hx. unfold FreqAnal.renderBand in Hin.
  destruct (FilterType band =? "lowpass");
    [| destruct (FilterType band =? "highpass");
       [| destruct (FilterType band =? "bandpass"); [| destruct Hin]]].
  - destruct Hin as [<- | []]. now injection Hx as <-.
  - destruct Hin as [<- | []]. now injection Hx as <-.
  - destruct (getBandpassParams (Frequency band)) as [centerFreq bandwidth].
    destruct Hin as [<- | []]. now injection Hx as <-.
Qed.

Lemma fixedPart_no_gain (s : string) (p : EqPart) (x : Q) :
  In p (EqClamp.fixedPart s) -> partGain p = Some x -> False.
Proof.
  unfold EqClamp.fixedPart. destruct (s =? ""); [intros [] |].
  intros [<- | []]. discriminate.
Qed.

(** Every band filter of the newest chain carries a gain taken from
    [eqGains] that is not tiny. *)
Lemma clamp_chain_gain (P : Q -> Prop) (bands : list FrequencyBand) (eqTarget : string)
  (p : EqPart) (x : Q) :
  Forall P (EqClamp.eqGains bands eqTarget) ->
  In p (EqClamp.buildEqFilter bands eqTarget) -> partGain p = Some x ->
  P x /\ tiny x = false.
Proof.
  intros HP Hin Hx. unfold EqClamp.buildEqFilter in Hin.
  destruct (Nat.eqb (List.length bands) 0 || (eqTarget =? "Off"))%bool; [destruct Hin |].
  rewrite !in_app_iff in Hin. destruct Hin as [Hin | [Hin | Hin]].
  - exfalso. exact (fixedPart_no_gain _ _ _ Hin Hx).
  - apply in_flat_map in Hin. destruct Hin as ([band g] & Hbg & Hp).
    apply in_combine_r in Hbg. rewrite Forall_forall in HP.
    exact (renderBand_gain P band g p x (HP g Hbg) Hp Hx).
  - exfalso. exact (fixedPart_no_gain _ _ _ Hin Hx).
Qed.

(** X20.  every gain that reaches the EQ chain lies within +-10 dB and is
    at least 0.5 dB in size, for any list of bands and any preset: in
    go/freq_anal.go, and in the newest copy also after the extreme-band
    clamp. *)
Theorem eq_chain_gains_limited (bands : list FrequencyBand) (eqTarget : string)
  (p : EqPart) (g : Q) :
  partGain p = Some g ->
  In p (FreqAnal.buildEqFilter bands eqTarget)
  \/ In p (EqClamp.buildEqFilter bands eqTarget) ->
  -10 <= g <= 10 /\ (g <= -0.5 \/ 0.5 <= g).
Proof.
  intros Hg [Hin | Hin].
  - unfold FreqAnal.buildEqFilter in Hin.
    destruct (Nat.eqb (List.length bands) 0 || (eqTarget =? "Off"))%bool; [destruct Hin |].
    apply in_flat_map in Hin. destruct Hin as ([band x] & Hbg & Hp).
    rewrite (freq_renderBand_gain band x p g Hp Hg) in *.
    unfold FreqAnal.corrections in Hbg. apply filter_In in Hbg.
    destruct Hbg as [Hbg Ht]. cbn [snd] in Ht.
    apply in_map_iff in Hbg. destruct Hbg as ([b t] & Heq & _).
    cbn [fst snd] in Heq. injection Heq as <- <-.
    split; [apply limitGain_bounds |].
    apply tiny_false. now destruct (tiny (limitGain t b)).
  - destruct (clamp_chain_gain (fun g => -10 <= g <= 10) bands eqTarget p g
                (eqGains_within_10 bands eqTarget) Hin Hg) as [Hb Ht].
    split; [exact Hb | now apply tiny_false].
Qed.

Lemma eq_chain_gains_limited_witness :
  -10 <= EqClamp.at_ (EqClamp.eqGains brightTop "Flat") 0 <= 10 /\
  (EqClamp.at_ (EqClamp.eqGains brightTop "Flat") 0 <= -0.5
   \/ 0.5 <= EqClamp.at_ (EqClamp.eqGains brightTop "Flat") 0).
Proof.
  apply (eq_chain_gains_limited brightTop "Flat"
           (ShelfLow true (EqClamp.at_ (EqClamp.eqGains brightTop "Flat") 0)));
    [reflexivity | right; vm_compute; right; left; reflexivity].
Defined.


(** ** The Flat preset only cuts *)

Lemma half_pos (x : Q) : 0 < x -> 0 < x / 2.
Proof. intros H. unfold Qdiv. change (/ 2) with (1 # 2). qlra. Qed.

Lemma attenuateAbove_le (band : FrequencyBand) (reference : Q) :
  attenuateAbove band reference <= RMSLevel band.
Proof.
  unfold attenuateAbove.
  destruct (Qlt_le_dec reference (RMSLevel band)) as [Hlt | Hle]; [| apply Qle_refl].
  cbv zeta.
  assert (Hh : 0 < (RMSLevel band - reference) / 2) by (apply half_pos; qlra).
  destruct (Qlt_le_dec 10 ((RMSLevel band - reference) / 2)); qlra.
Qed.

Lemma limitGain_nonpos (target : Q) (band : FrequencyBand) :
  target <= RMSLevel band -> limitGain target band <= 0.
Proof.
  intros H. unfold limitGain. cbv zeta.
  destruct (Qlt_le_dec 10 (target - RMSLevel band)); [qlra |].
  destruct (Qlt_le_dec (target - RMSLevel band) (Qopp 10)); qlra.
Qed.

(** The gains that a curve of attenuate-only targets produces. *)
Lemma attenuating_gains_nonpos (bands : list FrequencyBand) (ref : FrequencyBand -> Q) :
  Forall (fun g => g <= 0)
    (map (fun bt => limitGain (snd bt) (fst bt))
         (combine bands (map (fun band => attenuateAbove band (ref band)) bands))).
Proof.
  apply Forall_map. apply Forall_forall. intros [b t] Hin. cbn [fst snd].
  apply limitGain_nonpos.
  assert (Ht : t = attenuateAbove b (ref b)).
  { revert Hin. clear. induction bands as [| x l IH]; cbn; [tauto |].
    intros [Heq | Hin]; [now injection Heq as <- <- | now apply IH]. }
  subst t. apply attenuateAbove_le.
Qed.

Lemma clampShelf_nonpos (shelf other neighbor avg : Q) :
  shelf <= 0 -> other <= 0 -> neighbor <= 0 ->
  EqClamp.clampShelf shelf (EqClamp.shelfRange other neighbor avg) <= 0.
Proof.
  intros Hs Ho Hn.
  remember (EqClamp.shelfRange other neighbor avg) as range eqn:Hr.
  assert (Hlo : fst range <= 0).
  { subst range. unfold EqClamp.shelfRange, EqClamp.avgLimits.
    destruct (Qlt_le_dec avg 0); cbn [fst];
      repeat apply Q.max_lub; qlra. }
  unfold EqClamp.clampShelf. destruct range as [lo hi]. cbn [fst snd] in *.
  destruct (Qlt_le_dec hi shelf); [qlra |].
  destruct (Qlt_le_dec shelf lo); qlra.
Qed.

Lemma clampExtremeEQ_nonpos (raw : list Q) :
  Forall (fun g => g <= 0) raw -> Forall (fun g => g <= 0) (EqClamp.clampExtremeEQ raw).
Proof.
  intros Hb. assert (H0 : 0 <= 0) by apply Qle_refl.
  unfold EqClamp.clampExtremeEQ.
  destruct (List.length raw <? 3)%nat; [exact Hb |].
  assert (Hlow : EqClamp.clampedLow raw <= 0).
  { unfold EqClamp.clampedLow, EqClamp.lowRange.
    apply clampShelf_nonpos; apply (at_bounds (fun g => g <= 0)); assumption. }
  apply setAt_Forall.
  - unfold EqClamp.clampedHigh, EqClamp.highRange.
    apply clampShelf_nonpos;
      [apply (at_bounds (fun g => g <= 0)); assumption
      | exact Hlow
      | apply (at_bounds (fun g => g <= 0)); assumption].
  - apply setAt_Forall; assumption.
Qed.

Lemma freq_chain_gain (P : Q -> Prop) (gains : list (FrequencyBand * Q))
  (p : EqPart) (x : Q) :
  Forall (fun bg => P (snd bg)) gains ->
  In p (flat_map FreqAnal.renderBand (filter (fun bg => negb (tiny (snd bg))) gains)) ->
  partGain p = Some x -> P x /\ tiny x = false.
Proof.
  intros HP Hin Hx. apply in_flat_map in Hin. destruct Hin as ([band g] & Hbg & Hp).
  rewrite (freq_renderBand_gain band g p x Hp Hx) in *.
  apply filter_In in Hbg. destruct Hbg as [Hbg Ht]. cbn [snd] in Ht.
  rewrite Forall_forall in HP. split; [exact (HP _ Hbg) |].
  now destruct (tiny g).
Qed.

Lemma nonpos_not_tiny (x : Q) : x <= 0 -> tiny x = false -> x <= -0.5.
Proof. intros H Ht. destruct (tiny_false x Ht); [assumption | qlra]. Qed.

Lemma Forall_snd_map (P : Q -> Prop) (f : FrequencyBand * Q -> Q)
  (l : list (FrequencyBand * Q)) :
  Forall P (map f l) -> Forall (fun bg => P (snd bg)) (map (fun bt => (fst bt, f bt)) l).
Proof.
  intros H. apply Forall_map. rewrite Forall_map in H.
  eapply Forall_impl; [| exact H]. intros a Ha. exact Ha.
Qed.

(** X21.  with the Flat preset no band is ever boosted: in all three
    copies of the EQ engine every gain of the chain is a cut of at least
    0.5 dB, whatever the measured levels. *)
Theorem flat_never_boosts (bands : list FrequencyBand) (p : EqPart) (g : Q) :
  partGain p = Some g ->
  In p (FreqAnal.buildEqFilter bands "Flat")
  \/ In p (FreqAnalEarly.buildEqFilter bands "Flat")
  \/ In p (EqClamp.buildEqFilter bands "Flat") ->
  g <= -0.5.
Proof.
  intros Hg [Hin | [Hin | Hin]].
  - unfold FreqAnal.buildEqFilter in Hin.
    destruct (Nat.eqb (List.length bands) 0 || ("Flat" =? "Off"))%bool; [destruct Hin |].
    unfold FreqAnal.corrections, FreqAnal.calculateTargetCurve in Hin.
    cbn [String.eqb Ascii.eqb Bool.eqb] in Hin.
    destruct (freq_chain_gain (fun x => x <= 0) _ p g
                (Forall_snd_map _ _ _ (attenuating_gains_nonpos bands _)) Hin Hg)
      as [Hle Ht].
    now apply nonpos_not_tiny.
  - unfold FreqAnalEarly.buildEqFilter in Hin.
    destruct (Nat.eqb (List.length bands) 0 || ("Flat" =? "Off"))%bool; [destruct Hin |].
    unfold FreqAnalEarly.corrections, FreqAnalEarly.calculateTargetCurve in Hin.
    cbn [String.eqb Ascii.eqb Bool.eqb] in Hin.
    destruct (freq_chain_gain (fun x => x <= 0) _ p g
                (Forall_snd_map _ _ _ (attenuating_gains_nonpos bands _)) Hin Hg)
      as [Hle Ht].
    now apply nonpos_not_tiny.
  - assert (Hb : Forall (fun x => x <= 0) (EqClamp.eqGains bands "Flat")).
    { unfold EqClamp.eqGains. apply clampExtremeEQ_nonpos.
      unfold EqClamp.limitedGains, EqClamp.calculateTargetCurve.
      cbn [String.eqb Ascii.eqb Bool.eqb].
      apply attenuating_gains_nonpos. }
    destruct (clamp_chain_gain (fun x => x <= 0) bands "Flat" p g Hb Hin Hg) as [Hle Ht].
    now apply nonpos_not_tiny.
Qed.

Lemma flat_never_boosts_witness :
  EqClamp.at_ (EqClamp.eqGains brightTop "Flat") 0 <= -0.5.
Proof.
  apply (flat_never_boosts brightTop
           (ShelfLow true (EqClamp.at_ (EqClamp.eqGains brightTop "Flat") 0)));
    [reflexivity | right; right; vm_compute; right; left; reflexivity].
Defined.


(** ** Preset names *)

Lemma tiny_zero (g : Q) : g == 0 -> tiny g = true.
Proof.
  intros H. unfold tiny.
  destruct (Qlt_le_dec (-0.5) g); [| exfalso; qlra].
  destruct (Qlt_le_dec g 0.5); [reflexivity | exfalso; qlra].
Qed.

Lemma limitGain_zero (band : FrequencyBand) : limitGain (RMSLevel band) band == 0.
Proof.
  unfold limitGain. cbv zeta.
  destruct (Qlt_le_dec 10 (RMSLevel band - RMSLevel band)); [exfalso; qlra |].
  destruct (Qlt_le_dec (RMSLevel band - RMSLevel band) (Qopp 10)); [exfalso; qlra |].
  qlra.
Qed.

Lemma own_level_gains_zero (bands : list FrequencyBand) :
  Forall (fun g => g == 0)
    (map (fun bt => limitGain (snd bt) (fst bt)) (combine bands (map RMSLevel bands))).
Proof.
  induction bands as [| b l IH]; cbn [map combine]; constructor; [| exact IH].
  cbn [fst snd]. apply limitGain_zero.
Qed.

Lemma clampShelf_zero (shelf other neighbor avg : Q) :
  shelf == 0 -> other == 0 -> neighbor == 0 ->
  EqClamp.clampShelf shelf (EqClamp.shelfRange other neighbor avg) == 0.
Proof.
  intros Hs Ho Hn.
  remember (EqClamp.shelfRange other neighbor avg) as range eqn:Hr.
  assert (Hlo : fst range <= 0).
  { subst range. unfold EqClamp.shelfRange, EqClamp.avgLimits.
    destruct (Qlt_le_dec avg 0); cbn [fst];
      repeat apply Q.max_lub; qlra. }
  assert (Hhi : 0 <= snd range).
  { subst range. unfold EqClamp.shelfRange, EqClamp.avgLimits.
    destruct (Qlt_le_dec avg 0); cbn [snd];
      repeat apply Q.min_glb; qlra. }
  unfold EqClamp.clampShelf. destruct range as [lo hi]. cbn [fst snd] in *.
  destruct (Qlt_le_dec hi shelf); [qlra |].
  destruct (Qlt_le_dec shelf lo); qlra.
Qed.

Lemma clampExtremeEQ_zero (raw : list Q) :
  Forall (fun g => g == 0) raw -> Forall (fun g => g == 0) (EqClamp.clampExtremeEQ raw).
Proof.
  intros Hb. assert (H0 : 0 == 0) by reflexivity.
  unfold EqClamp.clampExtremeEQ.
  destruct (List.length raw <? 3)%nat; [exact Hb |].
  assert (Hlow : EqClamp.clampedLow raw == 0).
  { unfold EqClamp.clampedLow, EqClamp.lowRange.
    apply clampShelf_zero; apply (at_bounds (fun g => g == 0)); assumption. }
  apply setAt_Forall.
  - unfold EqClamp.clampedHigh, EqClamp.highRange.
    apply clampShelf_zero;
      [apply (at_bounds (fun g => g == 0)); assumption
      | exact Hlow
      | apply (at_bounds (fun g => g == 0)); assumption].
  - apply setAt_Forall; assumption.
Qed.

Lemma unknown_preset_eqb (eqTarget : string) :
  knownPreset eqTarget = false ->
  (eqTarget =? "Flat") = false /\ (eqTarget =? "Speech") = false /\
  (eqTarget =? "Broadcast") = false /\ (eqTarget =? "Off") = false.
Proof.
  unfold knownPreset. intros H.
  destruct (eqTarget =? "Flat"), (eqTarget =? "Speech"), (eqTarget =? "Broadcast"),
    (eqTarget =? "Off"); try discriminate; auto.
Qed.

Lemma no_part_no_chain (l : list EqPart) : (forall p, ~ In p l) -> l = [].
Proof. destruct l as [| p l]; [reflexivity |]. intros H. exfalso. apply (H p). now left. Qed.

(** X22.  a preset name that is none of Flat, Speech, Broadcast and Off
    gives no EQ at all: every target equals the measured level, every
    gain is zero, and both go/freq_anal.go and the newest copy return the
    empty chain.  For the three named presets the newest copy never
    returns the empty chain on a non-empty analysis: the preset's
    high-pass filter is always there. *)
Theorem eq_chain_by_preset_name (bands : list FrequencyBand) (eqTarget : string) :
  (knownPreset eqTarget = false ->
     FreqAnal.buildEqFilter bands eqTarget = [] /\
     EqClamp.buildEqFilter bands eqTarget = []) /\
  (bands <> [] ->
     eqTarget = "Flat" \/ eqTarget = "Speech" \/ eqTarget = "Broadcast" ->
     exists rest,
       EqClamp.buildEqFilter bands eqTarget
       = Fixed (EqClamp.presetHighpass eqTarget) :: rest /\
       EqClamp.presetHighpass eqTarget <> "").
Proof.
  split.
  - intros Hk. destruct (unknown_preset_eqb eqTarget Hk) as (Hf & Hs & Hb & Ho).
    split.
    + unfold FreqAnal.buildEqFilter. rewrite Ho, orb_false_r.
      destruct (Nat.eqb (List.length bands) 0); [reflexivity |].
      apply no_part_no_chain. intros p Hin.
      apply in_flat_map in Hin. destruct Hin as ([band g] & Hbg & _).
      unfold FreqAnal.corrections, FreqAnal.calculateTargetCurve in Hbg.
      rewrite Hf, Hs, Hb in Hbg.
      apply filter_In in Hbg. destruct Hbg as [Hbg Ht]. cbn [snd] in Ht.
      pose proof (Forall_snd_map _ _ _ (own_level_gains_zero bands)) as Hz.
      rewrite Forall_forall in Hz. specialize (Hz _ Hbg). cbn [snd] in Hz.
      rewrite (tiny_zero g Hz) in Ht. discriminate.
    + unfold EqClamp.buildEqFilter. rewrite Ho, orb_false_r.
      destruct (Nat.eqb (List.length bands) 0); [reflexivity |].
      unfold EqClamp.presetHighpass, EqClamp.presetLowpass.
      rewrite Hf, Hs, Hb. cbn [EqClamp.fixedPart String.eqb app].
      rewrite app_nil_r.
      apply no_part_no_chain. intros p Hin.
      apply in_flat_map in Hin. destruct Hin as ([band g] & Hbg & Hp).
      apply in_combine_r in Hbg.
      assert (Hz : Forall (fun g => g == 0) (EqClamp.eqGains bands eqTarget)).
      { unfold EqClamp.eqGains. apply clampExtremeEQ_zero.
        unfold EqClamp.limitedGains, EqClamp.calculateTargetCurve.
        rewrite Hf, Hs, Hb. apply own_level_gains_zero. }
      rewrite Forall_forall in Hz. specialize (Hz _ Hbg).
      unfold EqClamp.renderBand in Hp. rewrite (tiny_zero g Hz) in Hp. exact Hp.
  - intros Hne Hp. unfold EqClamp.buildEqFilter.
    assert (Hlen : Nat.eqb (List.length bands) 0 = false)
      by (destruct bands; [contradiction | reflexivity]).
    rewrite Hlen.
    destruct Hp as [-> | [-> | ->]]; cbn [String.eqb Ascii.eqb Bool.eqb orb];
      eexists; (split; [reflexivity | discriminate]).
Qed.

Lemma eq_chain_by_preset_name_witness :
  EqClamp.buildEqFilter brightTop "Music" = [] /\
  exists rest, EqClamp.buildEqFilter brightTop "Speech" = Fixed "highpass=f=80:p=2" :: rest.
Proof.
  destruct (eq_chain_by_preset_name brightTop "Music") as [Hu _].
  destruct (eq_chain_by_preset_name brightTop "Speech") as [_ Hn].
  split; [apply Hu; reflexivity |].
  destruct Hn as (rest & Heq & _); [discriminate | right; left; reflexivity |].
  exists rest. exact Heq.
Defined.


(** ** The correction depends on the spectrum, not on the level *)














(** The clamp gives equal results on equal gains. *)











(** Rendering equal gains for a band and its louder twin. *)








End EqMoreProps.

(* ===================================================================== *)
(** * Further properties of the staged pipeline                          *)
(* ===================================================================== *)

Module PipelineMoreProps.

Import Audio Compressor Pipeline PipelineMore PipelineProps.
Local Open Scope R_scope.
Local Open Scope string_scope.
Local Open Scope proc_scope.

(** ** A cooperative engine *)

Ltac run_coop :=
  intros r Hr; unfold_proc;
  repeat (match goal with
          | |- context [match ?c with _ => _ end] =>
              match c with
              | negb ?c' => destruct c' eqn:?; cbn [negb]
              | _ =>
                  match type of c with
                  | bool => destruct c eqn:?
                  | option _ => destruct c eqn:?
                  | sumbool _ _ => destruct c
                  end
              end
          end; unfold_proc; cbn [isSome negb] in *);
  try exact I; try discriminate; try congruence; try reflexivity.

Lemma cooperative_fields (w : World) :
  cooperative w = true ->
  (exists f, w_eqFilter w = Some f) /\ w_eqApply w = true /\
  (exists s, w_score w = Some s) /\
  (exists a, w_dynAnalysis w = Some a) /\ w_dynApply w = true /\
  (exists m, w_dynLoudnorm w = Some m) /\ (exists m, w_dynEbuR128 w = Some m) /\
  w_attenuate w = true /\ Nat.eqb (List.length (w_bands w)) 0 = false /\
  (exists a, w_sbcAnalysis w = Some a) /\ w_compApply w = true /\
  (exists m, w_loudnorm w = Some m) /\ (exists m, w_ebuR128 w = Some m) /\
  w_encode w = true.
Proof.
  unfold cooperative. intros H.
  repeat (apply andb_prop in H; let H' := fresh in destruct H as [H H']).
  repeat split; try assumption;
    try match goal with
        | Hs : isSome ?o = true |- exists x, ?o = Some x =>
            destruct o; [eexists; reflexivity | discriminate]
        end.
  now destruct (Nat.eqb (List.length (w_bands w)) 0).
Qed.

Section Cooperative.

Variable w : World.
Variable cfg : ProcessConfig.
Hypothesis Hcoop : cooperative w = true.

Let never (b : bool) (r : Run) : Prop := False.
Let anyRun (r : Run) : Prop := True.

Lemma coop_stageEq : triple anyRun (stageEq w cfg) (fun _ => anyRun) never.
Proof.
  destruct (cooperative_fields w Hcoop)
    as ((f & Hf) & Happ & _).
  unfold stageEq, anyRun, never. rewrite Hf, Happ. run_coop.
Qed.

Lemma coop_stageScore : triple anyRun (stageScore w cfg) (fun _ => anyRun) never.
Proof.
  destruct (cooperative_fields w Hcoop) as (_ & _ & (s & Hs) & _).
  unfold stageScore, anyRun, never. rewrite Hs. run_coop.
Qed.

Lemma coop_measureBoth (ln eb : option Measured) :
  isSome ln = true -> isSome eb = true ->
  triple anyRun (measureBoth cfg ln eb) (fun _ => anyRun) never.
Proof.
  intros Hln Heb. destruct ln, eb; try discriminate.
  unfold measureBoth, anyRun, never. run_coop.
Qed.

Lemma coop_stageDynaudnorm :
  triple anyRun (stageDynaudnorm w cfg) (fun _ => anyRun) never.
Proof.
  destruct (cooperative_fields w Hcoop)
    as (_ & _ & _ & (a & Ha) & Hd & (m1 & Hm1) & (m2 & Hm2) & _).
  unfold stageDynaudnorm, measureBoth, anyRun, never.
  rewrite Ha, Hd, Hm1, Hm2. run_coop.
Qed.

Lemma coop_stageDynamics :
  triple anyRun (stageDynamics w cfg) (fun _ => anyRun) never.
Proof.
  destruct (cooperative_fields w Hcoop)
    as (_ & _ & _ & _ & _ & _ & _ & Hat & Hb & (a & Ha) & Hc & _).
  unfold stageDynamics, attenuationPrePass, compressionFilterBuilt, anyRun, never.
  rewrite Hat, Hb, Ha, Hc. run_coop.
Qed.

Lemma coop_stageLoudness :
  triple anyRun (stageLoudness w cfg) (fun _ => anyRun) never.
Proof.
  destruct (cooperative_fields w Hcoop)
    as (_ & _ & _ & _ & _ & _ & _ & _ & _ & _ & _ & (m1 & Hm1) & (m2 & Hm2) & _).
  unfold stageLoudness. apply coop_measureBoth; [rewrite Hm1 | rewrite Hm2]; reflexivity.
Qed.

Lemma coop_stageEncode :
  triple anyRun (stageEncode w cfg) (fun b _ => b = true) (fun b _ => b = true).
Proof.
  destruct (cooperative_fields w Hcoop)
    as (_ & _ & _ & _ & _ & _ & _ & _ & _ & _ & _ & _ & _ & He).
  unfold stageEncode, anyRun. rewrite He. run_coop.
Qed.

Lemma coop_body :
  triple anyRun (processFileBody w cfg) (fun b _ => b = true) (fun b _ => b = true).
Proof.
  unfold processFileBody.
  assert (Hw : forall (m : Proc unit) (k : Proc bool),
             triple anyRun m (fun _ => anyRun) never ->
             triple anyRun k (fun b _ => b = true) (fun b _ => b = true) ->
             triple anyRun (bind m (fun _ => k)) (fun b _ => b = true) (fun b _ => b = true)).
  { intros m k Hm Hk r Hr. unfold bind. specialize (Hm r Hr).
    destruct (m r) as [[a | b] r']; [apply Hk; exact I | destruct Hm]. }
  apply Hw; [apply coop_stageEq |].
  apply Hw; [apply coop_stageScore |].
  apply Hw; [apply coop_stageDynaudnorm |].
  apply Hw; [apply coop_stageDynamics |].
  apply Hw; [apply coop_stageLoudness |].
  apply coop_stageEncode.
Qed.

End Cooperative.


(** X24.  against an engine that succeeds at every call site, every
    configuration runs to the end: [processFile] returns true, the final
    encode has run, and no invocation other than the quick peak check has
    failed. *)
Theorem cooperative_run_succeeds (w : World) (cfg : ProcessConfig) (fs : list Path) :
  cooperative w = true ->
  fst (processFile w cfg fs) = true /\
  outputWritten (snd (processFile w cfg fs)) /\
  (forall st, st <> PeakCheck -> ~ failed st (snd (processFile w cfg fs))).
Proof.
  intros Hcoop.
  pose proof (coop_body w cfg Hcoop (initialRun fs) Logic.I) as Hb.
  destruct (processFile_returned w cfg fs) as (r & Hret & Heq).
  assert (Htrue : fst (processFile w cfg fs) = true).
  { unfold processFile.
    destruct (processFileBody w cfg (initialRun fs)) as [[b | b] r']; exact Hb. }
  split; [exact Htrue |].
  rewrite Htrue in Hret. destruct Hret as (Hok & _ & _).
  destruct (Hok eq_refl) as [Hnf Hout].
  rewrite Heq. unfold outputWritten, failed in *.
  cbn [trace]. split; assumption.
Qed.

Lemma cooperative_run_succeeds_witness :
  fst (processFile
         (mkWorld (Some "highpass=f=25:p=2") true (Some 12)
                  (Some (mkDynamicsAnalysis (-3) (-10) (-30) 6 20 (-18) (-60))) true
                  (Some (mkMeasured (Some (-18)) (Some (-1.5))))
                  (Some (mkMeasured (Some (-18)) (Some (-1.5)))) false None true
                  [("sub", mkBand "sub" (-3) (-9) 2 4)]
                  (Some (mkDynamicsAnalysis (-3) (-10) (-30) 6 20 (-18) (-60))) true
                  (Some (mkMeasured (Some (-18)) (Some (-1.5))))
                  (Some (mkMeasured (Some (-18)) (Some (-1.5)))) true (Some (-23))
                  (fun _ => false))
         (mkConfig true false false false "Broadcast" "Flat" true) [InputPath]) = true.
Proof.
  apply cooperative_run_succeeds. reflexivity.
Defined.

(** ** Files *)

Ltac solve_files :=
  match goal with
  | Hr : filesKept _ _ |- _ =>
      destruct Hr as (Hkeep & Htemp);
      unfold filesKeptAtReturn, filesKept in *;
      cbn [workingPath tempFiles measured files trace tags] in *;
      repeat split; intros;
      repeat match goal with
             | H : In _ (_ ++ _) |- _ => apply in_app_or in H; destruct H
             | H : In _ [_] |- _ => destruct H as [<- | []]
             end;
      try discriminate; try reflexivity;
      try (apply Htemp; assumption);
      try (cbn [In]; auto; fail)
  end.

Ltac run_files :=
  intros r Hr; unfold_proc;
  repeat (match goal with
          | |- context [match ?c with _ => _ end] =>
              match c with
              | negb ?c' => destruct c' eqn:?; cbn [negb]
              | _ =>
                  match type of c with
                  | bool => destruct c eqn:?
                  | option _ => destruct c eqn:?
                  | sumbool _ _ => destruct c
                  end
              end
          end; unfold_proc);
  try solve_files.

Lemma files_stageEq (w : World) (cfg : ProcessConfig) (fs : list Path) :
  triple (filesKept fs) (stageEq w cfg) (fun _ => filesKept fs) (filesKeptAtReturn fs).
Proof. unfold stageEq. run_files. Qed.

Lemma files_stageScore (w : World) (cfg : ProcessConfig) (fs : list Path) :
  triple (filesKept fs) (stageScore w cfg) (fun _ => filesKept fs) (filesKeptAtReturn fs).
Proof. unfold stageScore. run_files. Qed.

Lemma files_stageDynaudnorm (w : World) (cfg : ProcessConfig) (fs : list Path) :
  triple (filesKept fs) (stageDynaudnorm w cfg) (fun _ => filesKept fs)
         (filesKeptAtReturn fs).
Proof. unfold stageDynaudnorm, measureBoth. run_files. Qed.

Lemma files_stageDynamics (w : World) (cfg : ProcessConfig) (fs : list Path) :
  triple (filesKept fs) (stageDynamics w cfg) (fun _ => filesKept fs)
         (filesKeptAtReturn fs).
Proof. unfold stageDynamics, attenuationPrePass, compressionFilterBuilt. run_files. Qed.

Lemma files_stageLoudness (w : World) (cfg : ProcessConfig) (fs : list Path) :
  triple (filesKept fs) (stageLoudness w cfg) (fun _ => filesKept fs)
         (filesKeptAtReturn fs).
Proof. unfold stageLoudness, measureBoth. run_files. Qed.

Lemma files_stageEncode (w : World) (cfg : ProcessConfig) (fs : list Path) :
  triple (filesKept fs) (stageEncode w cfg) (fun b r => filesKeptAtReturn fs b r)
         (filesKeptAtReturn fs).
Proof. unfold stageEncode. run_files. Qed.

Lemma files_body (w : World) (cfg : ProcessConfig) (fs : list Path) :
  triple (filesKept fs) (processFileBody w cfg) (fun b r => filesKeptAtReturn fs b r)
         (filesKeptAtReturn fs).
Proof.
  unfold processFileBody.
  eapply triple_bind; [apply files_stageEq | intros ?; cbv beta].
  eapply triple_bind; [apply files_stageScore | intros ?; cbv beta].
  eapply triple_bind; [apply files_stageDynaudnorm | intros ?; cbv beta].
  eapply triple_bind; [apply files_stageDynamics | intros ?; cbv beta].
  eapply triple_bind; [apply files_stageLoudness | intros ?; cbv beta].
  apply files_stageEncode.
Qed.

(** X25.  [processFile] removes nothing but its own temp files: every
    file that existed before the run and is not one of the four temp
    files of this run -- the input file in particular -- still exists
    afterwards, on success and on failure; and after a successful run the
    output file exists. *)
Theorem processFile_keeps_other_files (w : World) (cfg : ProcessConfig)
  (fs : list Path) (p : Path) :
  (In p fs -> isTemp p = false -> In p (files (snd (processFile w cfg fs)))) /\
  (In p (tempFiles (snd (processFile w cfg fs))) -> isTemp p = true) /\
  (fst (processFile w cfg fs) = true ->
   In OutputPath (files (snd (processFile w cfg fs)))).
Proof.
  assert (Hinit : filesKept fs (initialRun fs)).
  { unfold filesKept, initialRun. cbn. split; [auto | intros ? []]. }
  pose proof (files_body w cfg fs (initialRun fs) Hinit) as Hb.
  unfold processFile.
  destruct (processFileBody w cfg (initialRun fs)) as [[b | b] r];
    cbn [fst snd files tempFiles];
    destruct Hb as ((Hkeep & Htemp) & Hout);
    (split; [| split]).
  all: try (intros Hin Hnt; apply cleanup_keeps; [| now apply Hkeep];
            intros Hc; apply Htemp in Hc; congruence).
  all: try (exact (Htemp p)).
  all: intros Hb; apply cleanup_keeps; [| now apply Hout];
       intros Hc; apply Htemp in Hc; discriminate.
Qed.

Lemma processFile_keeps_other_files_witness :
  In InputPath (files (snd (processFile scenarioD_world scenarioD_config [InputPath]))).
Proof.
  apply (proj1 (processFile_keeps_other_files scenarioD_world scenarioD_config
                  [InputPath] InputPath)); [left; reflexivity | reflexivity].
Defined.


(** ** Bypass *)

Ltac solve_bypass :=
  match goal with
  | Hr : bypassed _ |- _ =>
      destruct Hr as (Htemps & Hwork & Htrace);
      unfold bypassed in *;
      cbn [workingPath tempFiles measured files trace tags] in *;
      repeat split; try assumption; intros;
      repeat match goal with
             | H : In _ (_ ++ _) |- _ => apply in_app_or in H; destruct H
             | H : In _ [_] |- _ => destruct H as [H | []]; injection H as <- <-
             end;
      try (eapply Htrace; eassumption); auto
  end.

Ltac run_bypass :=
  intros r Hr; unfold_proc;
  repeat (match goal with
          | |- context [match ?c with _ => _ end] =>
              match c with
              | negb ?c' => destruct c' eqn:?; cbn [negb]
              | _ =>
                  match type of c with
                  | bool => destruct c eqn:?
                  | option _ => destruct c eqn:?
                  | sumbool _ _ => destruct c
                  end
              end
          end; unfold_proc);
  try solve_bypass.

(** X26.  in bypass mode no processing stage is invoked: the only engine
    invocations are the loudness measurements and the final encode, no
    temp file is created, and the final encode reads the input file
    itself. *)
Theorem bypass_skips_processing (w : World) (cfg : ProcessConfig) (fs : list Path) :
  bypassProc cfg = true ->
  tempFiles (snd (processFile w cfg fs)) = [] /\
  workingPath (snd (processFile w cfg fs)) = InputPath /\
  (forall st ok, In (st, ok) (trace (snd (processFile w cfg fs))) ->
     st = MeasureLoudnorm \/ st = MeasureEbuR128 \/ st = Encode).
Proof.
  intros Hbypass.
  assert (Hskip : forall (m : Proc unit) (c : bool),
            triple bypassed (when (c && negb (bypassProc cfg)) m)
                   (fun _ => bypassed) (fun _ => bypassed)).
  { intros m c r Hr. rewrite Hbypass, andb_false_r. exact Hr. }
  assert (Hskip' : forall (m : Proc unit) (c : bool),
            triple bypassed (when (negb (bypassProc cfg) && c) m)
                   (fun _ => bypassed) (fun _ => bypassed)).
  { intros m c r Hr. rewrite Hbypass. exact Hr. }
  assert (Hmeasure : forall ln eb,
            triple bypassed (measureBoth cfg ln eb) (fun _ => bypassed) (fun _ => bypassed)).
  { intros ln eb. unfold measureBoth. run_bypass. }
  assert (Hencode : triple bypassed (stageEncode w cfg)
                           (fun _ => bypassed) (fun _ => bypassed)).
  { unfold stageEncode. run_bypass. }
  assert (Hbody : triple bypassed (processFileBody w cfg)
                         (fun _ => bypassed) (fun _ => bypassed)).
  { unfold processFileBody.
    eapply triple_bind; [apply Hskip | intros ?; cbv beta].
    eapply triple_bind; [apply Hskip' | intros ?; cbv beta].
    eapply triple_bind; [apply Hskip | intros ?; cbv beta].
    eapply triple_bind; [apply Hskip | intros ?; cbv beta].
    eapply triple_bind; [apply Hmeasure | intros ?; cbv beta].
    apply Hencode. }
  assert (Hinit : bypassed (initialRun fs)).
  { unfold bypassed, initialRun. cbn. repeat split. intros ? ? []. }
  specialize (Hbody (initialRun fs) Hinit).
  unfold processFile.
  destruct (processFileBody w cfg (initialRun fs)) as [[b | b] r];
    cbn [snd tempFiles workingPath trace]; exact Hbody.
Qed.

Lemma bypass_skips_processing_witness :
  workingPath (snd (processFile scenarioD_world
                      (mkConfig true false false true "Broadcast" "Flat" true)
                      [InputPath])) = InputPath.
Proof.
  apply (bypass_skips_processing scenarioD_world
           (mkConfig true false false true "Broadcast" "Flat" true) [InputPath]).
  reflexivity.
Defined.

(** ** The measurement behind the final encode *)

Ltac run_measured :=
  intros r Hr; unfold unmeasured, finalMeasurement in *; unfold_proc;
  repeat (match goal with
          | |- context [match ?c with _ => _ end] =>
              match c with
              | negb ?c' => destruct c' eqn:?; cbn [negb]
              | _ =>
                  match type of c with
                  | bool => destruct c eqn:?
                  | option _ => destruct c eqn:?
                  | sumbool _ _ => destruct c
                  end
              end
          end; unfold_proc);
  cbn [workingPath tempFiles measured files trace tags] in *;
  try reflexivity; try discriminate; try (intros; congruence);
  try (intros; discriminate); try (apply Hr; reflexivity); auto.

Lemma measured_stageEq (w : World) (cfg : ProcessConfig) :
  triple (unmeasured cfg) (stageEq w cfg) (fun _ => unmeasured cfg) (fun b _ => b = false).
Proof. unfold stageEq. run_measured. Qed.

Lemma measured_stageScore (w : World) (cfg : ProcessConfig) :
  triple (unmeasured cfg) (stageScore w cfg) (fun _ => unmeasured cfg)
         (fun b _ => b = false).
Proof. unfold stageScore. run_measured. Qed.

Lemma measured_stageDynaudnorm (w : World) (cfg : ProcessConfig) :
  triple (unmeasured cfg) (stageDynaudnorm w cfg) (fun _ => unmeasured cfg)
         (fun b _ => b = false).
Proof. unfold stageDynaudnorm, measureBoth. run_measured. Qed.

Lemma measured_stageDynamics (w : World) (cfg : ProcessConfig) :
  triple (unmeasured cfg) (stageDynamics w cfg) (fun _ => unmeasured cfg)
         (fun b _ => b = false).
Proof.
  unfold stageDynamics, attenuationPrePass, compressionFilterBuilt. run_measured.
Qed.

Lemma measured_stageLoudness (w : World) (cfg : ProcessConfig) :
  triple (unmeasured cfg) (stageLoudness w cfg)
         (fun _ r => measured r = finalMeasurement w cfg) (fun b _ => b = false).
Proof. unfold stageLoudness, measureBoth. run_measured. Qed.

Lemma measured_stageEncode (w : World) (cfg : ProcessConfig) :
  triple (fun r => measured r = finalMeasurement w cfg) (stageEncode w cfg)
         (fun b r => b = true -> measured r = finalMeasurement w cfg)
         (fun b r => b = true -> measured r = finalMeasurement w cfg).
Proof. unfold stageEncode. run_measured. Qed.

(** X27.  a successful run encodes from the stage 4 measurements alone:
    the measurement behind the final encode is the EBU R128 one when tags
    are written, else the loudnorm one when normalizing, else none.  What
    was measured inside the dynaudnorm stage is always overwritten, and
    with both modes switched on the loudnorm measurement is overwritten
    by the EBU R128 one. *)
Theorem final_encode_uses_stage4_measurement (w : World) (cfg : ProcessConfig)
  (fs : list Path) :
  fst (processFile w cfg fs) = true ->
  measured (snd (processFile w cfg fs))
  = (if writeTags cfg then w_ebuR128 w
     else if UseLoudnorm cfg then w_loudnorm w
     else None).
Proof.
  assert (Hearly : forall (m : Proc unit) (k : Proc bool) (Q : Run -> Prop),
            triple (unmeasured cfg) m (fun _ => Q) (fun b _ => b = false) ->
            triple Q k (fun b r => b = true -> measured r = finalMeasurement w cfg)
                       (fun b r => b = true -> measured r = finalMeasurement w cfg) ->
            triple (unmeasured cfg) (bind m (fun _ => k))
                   (fun b r => b = true -> measured r = finalMeasurement w cfg)
                   (fun b r => b = true -> measured r = finalMeasurement w cfg)).
  { intros m k Q Hm Hk r Hr. unfold bind. specialize (Hm r Hr).
    destruct (m r) as [[a | b] r']; [apply Hk; exact Hm |].
    intros Hb. congruence. }
  assert (Hbody : triple (unmeasured cfg) (processFileBody w cfg)
                    (fun b r => b = true -> measured r = finalMeasurement w cfg)
                    (fun b r => b = true -> measured r = finalMeasurement w cfg)).
  { unfold processFileBody.
    eapply Hearly; [apply measured_stageEq |].
    eapply Hearly; [apply measured_stageScore |].
    eapply Hearly; [apply measured_stageDynaudnorm |].
    eapply Hearly; [apply measured_stageDynamics |].
    eapply Hearly; [apply measured_stageLoudness |].
    apply measured_stageEncode. }
  assert (Hinit : unmeasured cfg (initialRun fs)) by (intros _ _; reflexivity).
  specialize (Hbody (initialRun fs) Hinit).
  unfold processFile.
  destruct (processFileBody w cfg (initialRun fs)) as [[b | b] r];
    cbn [fst snd measured]; exact Hbody.
Qed.

Lemma final_encode_uses_stage4_measurement_witness :
  measured (snd (processFile tagOnly_world tagOnly_config [InputPath]))
  = Some (mkMeasured (Some (-18)) (Some (-1.5))).
Proof.
  apply (final_encode_uses_stage4_measurement tagOnly_world tagOnly_config [InputPath]).
  reflexivity.
Defined.


(** ** The working path *)

Lemma rendered_app (st st' : Stage) (ok : bool) (t : list (Stage * bool)) :
  rendered st (t ++ [(st', ok)]) = rendered st t || (Stage_eqb st' st && ok).
Proof.
  unfold rendered. rewrite existsb_app. cbn [existsb fst snd].
  now rewrite orb_false_r.
Qed.

Ltac solve_works :=
  match goal with
  | Hr : worksOn _ _ |- _ =>
      destruct Hr as (Hwork & Hlater);
      unfold worksOn, lastRendering in *;
      cbn [workingPath tempFiles measured files trace tags forallb] in *;
      rewrite ?rendered_app;
      cbn [Stage_eqb andb];
      rewrite ?orb_false_r, ?orb_true_r, ?andb_true_r in *;
      repeat match goal with
             | H : negb ?b = true |- _ => apply negb_true_iff in H
             | H : _ && _ = true |- _ => apply andb_prop in H; destruct H
             end;
      repeat match goal with
             | H : rendered ?st ?t = false |- _ => rewrite H in *; clear H
             end;
      cbn [negb andb orb];
      try (split; [assumption || reflexivity | reflexivity]);
      try assumption; try reflexivity
  end.

Ltac run_works :=
  intros r Hr; unfold_proc;
  repeat (match goal with
          | |- context [match ?c with _ => _ end] =>
              match c with
              | negb ?c' => destruct c' eqn:?; cbn [negb]
              | _ =>
                  match type of c with
                  | bool => destruct c eqn:?
                  | option _ => destruct c eqn:?
                  | sumbool _ _ => destruct c
                  end
              end
          end; unfold_proc);
  try solve_works.

Lemma works_stageEq (w : World) (cfg : ProcessConfig) :
  triple (worksOn [DynApply; CompApply]) (stageEq w cfg)
         (fun _ => worksOn [DynApply; CompApply]) (fun _ => worksOn []).
Proof. unfold stageEq. run_works. Qed.

Lemma works_stageScore (w : World) (cfg : ProcessConfig) :
  triple (worksOn [DynApply; CompApply]) (stageScore w cfg)
         (fun _ => worksOn [DynApply; CompApply]) (fun _ => worksOn []).
Proof. unfold stageScore. run_works. Qed.

Lemma works_stageDynaudnorm (w : World) (cfg : ProcessConfig) :
  triple (worksOn [DynApply; CompApply]) (stageDynaudnorm w cfg)
         (fun _ => worksOn [CompApply]) (fun _ => worksOn []).
Proof. unfold stageDynaudnorm, measureBoth. run_works. Qed.

Lemma works_stageDynamics (w : World) (cfg : ProcessConfig) :
  triple (worksOn [CompApply]) (stageDynamics w cfg)
         (fun _ => worksOn []) (fun _ => worksOn []).
Proof.
  unfold stageDynamics, attenuationPrePass, compressionFilterBuilt. run_works.
Qed.

Lemma works_stageLoudness (w : World) (cfg : ProcessConfig) :
  triple (worksOn []) (stageLoudness w cfg)
         (fun _ => worksOn []) (fun _ => worksOn []).
Proof. unfold stageLoudness, measureBoth. run_works. Qed.

Lemma works_stageEncode (w : World) (cfg : ProcessConfig) :
  triple (worksOn []) (stageEncode w cfg)
         (fun _ => worksOn []) (fun _ => worksOn []).
Proof. unfold stageEncode. run_works. Qed.

Lemma works_body (w : World) (cfg : ProcessConfig) :
  triple (worksOn [DynApply; CompApply]) (processFileBody w cfg)
         (fun _ => worksOn []) (fun _ => worksOn []).
Proof.
  unfold processFileBody.
  eapply triple_bind; [apply works_stageEq | intros ?; cbv beta].
  eapply triple_bind; [apply works_stageScore | intros ?; cbv beta].
  eapply triple_bind; [apply works_stageDynaudnorm | intros ?; cbv beta].
  eapply triple_bind; [apply works_stageDynamics | intros ?; cbv beta].
  eapply triple_bind; [apply works_stageLoudness | intros ?; cbv beta].
  apply works_stageEncode.
Qed.

(** X28.  on every exit the working path, which the final encode reads,
    is the file of the latest successful rendering: the compression temp
    file if compression was rendered, else the dynaudnorm temp file if
    dynaudnorm was rendered, else the EQ temp file if the EQ was
    rendered, else the input.  In particular the attenuated file of the
    Broadcast pre-pass is never encoded by itself. *)
Theorem working_path_is_last_rendering (w : World) (cfg : ProcessConfig)
  (fs : list Path) :
  let r := snd (processFile w cfg fs) in
  workingPath r
  = (if rendered CompApply (trace r) then CompTempPath
     else if rendered DynApply (trace r) then DynTempPath
     else if rendered EqApply (trace r) then EqTempPath
     else InputPath)
  /\ workingPath r <> AttenuatedPath.
Proof.
  assert (Hinit : worksOn [DynApply; CompApply] (initialRun fs))
    by (split; reflexivity).
  pose proof (works_body w cfg (initialRun fs) Hinit) as Hbody.
  unfold processFile.
  destruct (processFileBody w cfg (initialRun fs)) as [[b | b] r];
    cbn [snd workingPath trace]; destruct Hbody as (Hwork & _);
    (split; [exact Hwork |]); rewrite Hwork; unfold lastRendering;
    repeat match goal with
           | |- context [if ?c then _ else _] => destruct c
           end; discriminate.
Qed.

(** ** The order of the renderings *)

Local Open Scope list_scope.

Lemma ranks_app (t : list (Stage * bool)) (st : Stage) (ok : bool) :
  ranks (t ++ [(st, ok)])
  = ranks t ++ match renderRank st with Some k => [k] | None => [] end.
Proof.
  induction t as [| [st' ok'] t IH]; cbn [ranks app].
  - destruct (renderRank st); reflexivity.
  - rewrite IH. destruct (renderRank st'); reflexivity.
Qed.

Lemma increasing_app (l l' : list nat) (k : nat) :
  increasing (l ++ [S k]) = true -> increasing (k :: l') = true ->
  increasing (l ++ l') = true.
Proof.
  induction l as [| a l IH]; intros Hl Hl'.
  - destruct l' as [| b l']; [reflexivity |].
    cbn [app]. cbn [increasing] in Hl'. apply andb_prop in Hl'. tauto.
  - destruct l as [| a' l].
    + cbn [app increasing] in Hl |- *. apply andb_prop in Hl. destruct Hl as [Hak _].
      destruct l' as [| b l']; [reflexivity |].
      cbn [increasing] in Hl' |- *. apply andb_prop in Hl'. destruct Hl' as [Hkb Hl'].
      apply Nat.ltb_lt in Hak, Hkb. rewrite Hl'.
      replace (a <? b)%nat with true; [reflexivity |].
      symmetry. apply Nat.ltb_lt. lia.
    + change ((a :: a' :: l) ++ [k]) with (a :: a' :: (l ++ [k])) in Hl.
      change ((a :: a' :: l) ++ l') with (a :: a' :: (l ++ l')).
      cbn [increasing] in Hl |- *. apply andb_prop in Hl. destruct Hl as [Haa Hl].
      rewrite Haa. cbn [andb]. apply (IH Hl Hl').
Qed.

Ltac solve_order :=
  match goal with
  | Hr : upTo _ _ |- _ =>
      unfold upTo in *;
      cbn [workingPath tempFiles measured files trace tags] in *;
      rewrite ?ranks_app; cbn [renderRank];
      rewrite ?app_nil_r, <- ?app_assoc; cbn [app];
      apply (increasing_app _ _ _ Hr); reflexivity
  end.

Ltac run_order :=
  intros r Hr; unfold_proc;
  repeat (match goal with
          | |- context [match ?c with _ => _ end] =>
              match c with
              | negb ?c' => destruct c' eqn:?; cbn [negb]
              | _ =>
                  match type of c with
                  | bool => destruct c eqn:?
                  | option _ => destruct c eqn:?
                  | sumbool _ _ => destruct c
                  end
              end
          end; unfold_proc);
  try solve_order.

Lemma order_stageEq (w : World) (cfg : ProcessConfig) :
  triple (upTo 1) (stageEq w cfg) (fun _ => upTo 2) (fun _ => upTo 6).
Proof. unfold stageEq. run_order. Qed.

Lemma order_stageScore (w : World) (cfg : ProcessConfig) :
  triple (upTo 2) (stageScore w cfg) (fun _ => upTo 2) (fun _ => upTo 6).
Proof. unfold stageScore. run_order. Qed.

Lemma order_stageDynaudnorm (w : World) (cfg : ProcessConfig) :
  triple (upTo 2) (stageDynaudnorm w cfg) (fun _ => upTo 3) (fun _ => upTo 6).
Proof. unfold stageDynaudnorm, measureBoth. run_order. Qed.

Lemma order_stageDynamics (w : World) (cfg : ProcessConfig) :
  triple (upTo 3) (stageDynamics w cfg) (fun _ => upTo 5) (fun _ => upTo 6).
Proof.
  unfold stageDynamics, attenuationPrePass, compressionFilterBuilt. run_order.
Qed.

Lemma order_stageLoudness (w : World) (cfg : ProcessConfig) :
  triple (upTo 5) (stageLoudness w cfg) (fun _ => upTo 5) (fun _ => upTo 6).
Proof. unfold stageLoudness, measureBoth. run_order. Qed.

Lemma order_stageEncode (w : World) (cfg : ProcessConfig) :
  triple (upTo 5) (stageEncode w cfg) (fun _ => upTo 6) (fun _ => upTo 6).
Proof. unfold stageEncode. run_order. Qed.

Lemma order_body (w : World) (cfg : ProcessConfig) :
  triple (upTo 1) (processFileBody w cfg) (fun _ => upTo 6) (fun _ => upTo 6).
Proof.
  unfold processFileBody.
  eapply triple_bind; [apply order_stageEq | intros ?; cbv beta].
  eapply triple_bind; [apply order_stageScore | intros ?; cbv beta].
  eapply triple_bind; [apply order_stageDynaudnorm | intros ?; cbv beta].
  eapply triple_bind; [apply order_stageDynamics | intros ?; cbv beta].
  eapply triple_bind; [apply order_stageLoudness | intros ?; cbv beta].
  apply order_stageEncode.
Qed.

(** X29.  whatever the configuration and the engine's answers, the audio
    is rendered in one fixed order, EQ, dynaudnorm, attenuation pre-pass,
    compression, final encode, and each of these at most once per run
    (failed attempts included): no rendering is retried or repeated. *)
Theorem renderings_in_source_order (w : World) (cfg : ProcessConfig)
  (fs : list Path) :
  increasing (ranks (trace (snd (processFile w cfg fs)))) = true.
Proof.
  assert (Hinit : upTo 1 (initialRun fs)) by reflexivity.
  pose proof (order_body w cfg (initialRun fs) Hinit) as Hbody.
  unfold processFile.
  destruct (processFileBody w cfg (initialRun fs)) as [[b | b] r];
    cbn [snd trace]; unfold upTo in Hbody;
    rewrite <- (app_nil_r (ranks (trace r)));
    apply (increasing_app _ _ _ Hbody); reflexivity.
Qed.

End PipelineMoreProps.
